(** * BMP.C : 24-bit bitmap codec, grayscale and 3x3 convolution

    A shallow embedding of [src/BMP.C].  The C functions [clamp_int_to_u8],
    [load_bmp24], [save_bmp24], [to_grayscale], [convolve3x3] and [main]
    become Rocq functions of the same names.

    Conventions of the embedding.
    - [int] is a 32-bit two's complement integer, [uint32_t] a 32-bit
      unsigned one, [size_t] a 64-bit unsigned one.  A C integer is a [Z];
      every operation that can leave the range is followed by the wrap-around
      of its type ([to_int], [to_uint32], [to_size_t]).  C's [/] and [%] are
      [Z.quot] and [Z.rem].
    - [uint8_t] is [Byte.byte]; the packed headers are read from and written
      to their little-endian byte layout.
    - [double] and [float] are IEEE-754 binary64 and binary32 values of
      [SpecFloat.spec_float], every operation rounded to nearest-even in its
      own format.
    - A pointer into a [malloc]ed block is an index into a list.  An access
      outside the block has no defined behaviour in C: the functions then
      return an explicit "undefined" outcome.
    - [fopen], [malloc] and a write to the output stream can fail; their
      behaviour is an argument of the function that calls them.
    - [main] talks to the terminal through [fgets] and [scanf]; what each of
      these calls returns is a field of the [world] a run starts in. *)

From Stdlib Require Import String Ascii.
From Stdlib Require Import Strings.Byte.
From Stdlib Require Import ZArith List Lia Bool.
From Stdlib Require Import Floats.SpecFloat.
Import ListNotations.

Local Open Scope Z_scope.

(* ================================================================= *)
(** ** Machine integers *)

Definition to_uint32 (z : Z) : Z := z mod 2 ^ 32.

Definition to_size_t (z : Z) : Z := z mod 2 ^ 64.

Definition to_int (z : Z) : Z :=
  let u := z mod 2 ^ 32 in
  if u <? 2 ^ 31 then u else u - 2 ^ 32.

Definition INT_MAX : Z := 2 ^ 31 - 1.

(** [uint8_t] values and the conversions between them and [int]. *)

Definition u8 (x : byte) : Z := Z.of_N (Byte.to_N x).

Definition to_uint8 (z : Z) : byte :=
  match Byte.of_N (Z.to_N (z mod 256)) with
  | Some x => x
  | None => "000"%byte
  end.

(** Lines 45-52. *)
Definition clamp_int_to_u8 (v : Z) : byte :=
  if v <? 0 then to_uint8 0
  else if v >? 255 then to_uint8 255
  else to_uint8 v.

(* ================================================================= *)
(** ** Little-endian layout of the packed headers *)

Fixpoint le_value (bs : list byte) : Z :=
  match bs with
  | [] => 0
  | x :: rest => u8 x + 256 * le_value rest
  end.

Fixpoint le_bytes (n : nat) (z : Z) : list byte :=
  match n with
  | O => []
  | S k => to_uint8 z :: le_bytes k (z / 256)
  end.

(** The [len]-byte field at byte offset [off] of a struct image. *)
Definition field (off len : nat) (bs : list byte) : Z :=
  le_value (firstn len (skipn off bs)).

(** Lines 13-20. *)
Record BMPHeader := mkBMPHeader {
  bfType : Z;
  bfSize : Z;
  bfReserved1 : Z;
  bfReserved2 : Z;
  bfOffBits : Z
}.

(** Lines 22-35. *)
Record BMPInfoHeader := mkBMPInfoHeader {
  biSize : Z;
  biWidth : Z;
  biHeight : Z;
  biPlanes : Z;
  biBitCount : Z;
  biCompression : Z;
  biSizeImage : Z;
  biXPelsPerMeter : Z;
  biYPelsPerMeter : Z;
  biClrUsed : Z;
  biClrImportant : Z
}.

Definition sizeof_BMPHeader : nat := 14.
Definition sizeof_BMPInfoHeader : nat := 40.

Definition BMPHeader_of_bytes (bs : list byte) : BMPHeader :=
  {| bfType := field 0 2 bs;
     bfSize := field 2 4 bs;
     bfReserved1 := field 6 2 bs;
     bfReserved2 := field 8 2 bs;
     bfOffBits := field 10 4 bs |}.

Definition BMPInfoHeader_of_bytes (bs : list byte) : BMPInfoHeader :=
  {| biSize := field 0 4 bs;
     biWidth := to_int (field 4 4 bs);
     biHeight := to_int (field 8 4 bs);
     biPlanes := field 12 2 bs;
     biBitCount := field 14 2 bs;
     biCompression := field 16 4 bs;
     biSizeImage := field 20 4 bs;
     biXPelsPerMeter := to_int (field 24 4 bs);
     biYPelsPerMeter := to_int (field 28 4 bs);
     biClrUsed := field 32 4 bs;
     biClrImportant := field 36 4 bs |}.

Definition bytes_of_BMPHeader (fh : BMPHeader) : list byte :=
  le_bytes 2 (bfType fh) ++ le_bytes 4 (bfSize fh)
  ++ le_bytes 2 (bfReserved1 fh) ++ le_bytes 2 (bfReserved2 fh)
  ++ le_bytes 4 (bfOffBits fh).

Definition bytes_of_BMPInfoHeader (ih : BMPInfoHeader) : list byte :=
  le_bytes 4 (biSize ih) ++ le_bytes 4 (biWidth ih) ++ le_bytes 4 (biHeight ih)
  ++ le_bytes 2 (biPlanes ih) ++ le_bytes 2 (biBitCount ih)
  ++ le_bytes 4 (biCompression ih) ++ le_bytes 4 (biSizeImage ih)
  ++ le_bytes 4 (biXPelsPerMeter ih) ++ le_bytes 4 (biYPelsPerMeter ih)
  ++ le_bytes 4 (biClrUsed ih) ++ le_bytes 4 (biClrImportant ih).

(* ================================================================= *)
(** ** Pixels *)

(** Lines 39-42: three bytes in memory order b, g, r. *)
Module Px.
Record Pixel24 := mk { b : byte; g : byte; r : byte }.
End Px.
Abbreviation Pixel24 := Px.Pixel24.

Fixpoint pixels_of_bytes (bs : list byte) : list Pixel24 :=
  match bs with
  | x :: y :: z :: rest => Px.mk x y z :: pixels_of_bytes rest
  | _ => []
  end.

Fixpoint bytes_of_pixels (ps : list Pixel24) : list byte :=
  match ps with
  | [] => []
  | p :: rest => Px.b p :: Px.g p :: Px.r p :: bytes_of_pixels rest
  end.

(* ================================================================= *)
(** ** Blocks of memory *)

(** A fresh block of [n] cells; [junk i] is what cell [i] happens to hold. *)
Definition malloc {A : Type} (junk : nat -> A) (n : nat) : list A :=
  map junk (seq 0 n).

(** Do the [count] cells starting at index [idx] lie inside a block of [n]
    cells? *)
Definition in_block (idx count : Z) (n : nat) : bool :=
  (0 <=? idx) && (idx + count <=? Z.of_nat n).

Definition load_cells {A : Type} (idx count : nat) (blk : list A) : list A :=
  firstn count (skipn idx blk).

Definition store_cells {A : Type} (idx : nat) (vs blk : list A) : list A :=
  firstn idx blk ++ vs ++ skipn (idx + length vs) blk.

(* ================================================================= *)
(** ** Loops *)

Inductive step (S R : Type) : Type :=
| Next (s : S)
| Return (r : R).
Arguments Next {S R} s.
Arguments Return {S R} r.

(** [for (y = lo; ...; ++y)] running [n] times. *)
Fixpoint for_up {S R : Type} (n : nat) (y : Z) (body : Z -> S -> step S R)
  (s : S) : step S R :=
  match n with
  | O => Next s
  | Datatypes.S k =>
      match body y s with
      | Next s' => for_up k (y + 1) body s'
      | Return v => Return v
      end
  end.

(** [for (y = hi; ...; --y)] running [n] times. *)
Fixpoint for_down {S R : Type} (n : nat) (y : Z) (body : Z -> S -> step S R)
  (s : S) : step S R :=
  match n with
  | O => Next s
  | Datatypes.S k =>
      match body y s with
      | Next s' => for_down k (y - 1) body s'
      | Return v => Return v
      end
  end.

(* ================================================================= *)
(** ** Input streams *)

Record FILE := mkFILE { contents : list byte; position : nat }.

Definition fopen_rb (data : list byte) : FILE :=
  {| contents := data; position := 0 |}.

(** [fread(ptr, size, count, f)]: the bytes transferred and the stream
    afterwards; the call returns [items size got]. *)
Definition fread (size count : nat) (f : FILE) : list byte * FILE :=
  let got := firstn (size * count) (skipn (position f) (contents f)) in
  (got, {| contents := contents f; position := position f + length got |}).

Definition items (size : nat) (got : list byte) : nat :=
  Nat.div (length got) size.

Definition fseek_set (off : Z) (f : FILE) : FILE :=
  {| contents := contents f; position := Z.to_nat off |}.

Definition fseek_cur (off : Z) (f : FILE) : FILE :=
  {| contents := contents f; position := position f + Z.to_nat off |}.

(* ================================================================= *)
(** ** load_bmp24 (lines 56-141) *)

Definition nl : string := String (ascii_of_nat 10) EmptyString.

(** [perror] appends the text of [errno] to its argument; only the argument
    is kept here. *)
Definition msg_open : string := "No se pudo abrir el archivo".
Definition msg_signature : string :=
  ("No es un BMP valido (firma BM)." ++ nl)%string.
Definition msg_format : string :=
  ("Solo se soporta BMP 24-bpp sin compresion." ++ nl)%string.
Definition msg_dimensions : string :=
  ("Solo se soportan dimensiones positivas." ++ nl)%string.
Definition msg_row : string := ("Lectura de fila incompleta." ++ nl)%string.

(** What a call of [load_bmp24] does: it returns 1 and fills the three
    output arguments, or returns 0 after writing [stderr], or runs into an
    access outside the pixel block. *)
Inductive load_outcome : Type :=
| Loaded (fh : BMPHeader) (ih : BMPInfoHeader) (pixels : list Pixel24)
| Rejected (stderr : list string)
| LoadUndefined.

Definition load_return (o : load_outcome) : option Z :=
  match o with
  | Loaded _ _ _ => Some 1
  | Rejected _ => Some 0
  | LoadUndefined => None
  end.

Definition row_padding (width : Z) : Z :=
  let row_bytes := to_int (width * 3) in
  Z.rem (4 - Z.rem row_bytes 4) 4.

(** Body of the row loop, lines 119-134. *)
Definition load_row (width height padding : Z) (y : Z)
  (s : FILE * list Pixel24) : step (FILE * list Pixel24) load_outcome :=
  let '(f, pixels) := s in
  let dest_y := height - 1 - y in
  let row := to_int (dest_y * width) in
  if negb (in_block row width (length pixels)) then Return LoadUndefined
  else
    let '(got, f) := fread 3 (Z.to_nat width) f in
    if negb (items 3 got =? Z.to_nat width)%nat
    then Return (Rejected [msg_row])
    else
      let pixels := store_cells (Z.to_nat row) (pixels_of_bytes got) pixels in
      let f := if padding =? 0 then f else fseek_cur padding f in
      Next (f, pixels).

(** [file] is [None] when [fopen] fails; [heap] is [None] when [malloc]
    fails and otherwise gives the initial content of the block. *)
Definition load_bmp24 (file : option (list byte))
  (heap : option (nat -> Pixel24)) : load_outcome :=
  match file with
  | None => Rejected [msg_open]
  | Some data =>
    let f := fopen_rb data in
    let '(fhb, f) := fread sizeof_BMPHeader 1 f in
    if negb (items sizeof_BMPHeader fhb =? 1)%nat then Rejected [] else
    let '(ihb, f) := fread sizeof_BMPInfoHeader 1 f in
    if negb (items sizeof_BMPInfoHeader ihb =? 1)%nat then Rejected [] else
    let fh := BMPHeader_of_bytes fhb in
    let ih := BMPInfoHeader_of_bytes ihb in
    if negb (bfType fh =? 0x4D42) then Rejected [msg_signature] else
    if negb (biBitCount ih =? 24) || negb (biCompression ih =? 0)
    then Rejected [msg_format] else
    if (biWidth ih <=? 0) || (biHeight ih <=? 0)
    then Rejected [msg_dimensions] else
    let f := fseek_set (bfOffBits fh) f in
    let width := biWidth ih in
    let height := biHeight ih in
    let padding := row_padding width in
    match heap with
    | None => Rejected []
    | Some junk =>
      let pixels := malloc junk (Z.to_nat width * Z.to_nat height) in
      match for_up (Z.to_nat height) 0 (load_row width height padding)
                   (f, pixels) with
      | Next (_, pixels) => Loaded fh ih pixels
      | Return o => o
      end
    end
  end.

(* ================================================================= *)
(** ** Output streams *)

(** A stream open for writing.  [written] holds the bytes [fwrite] has
    taken so far.  [room] is [None] for a stream on which no write fails,
    the flush of [fclose] included: the file then holds [written].  It is
    [Some n] for a stream that reports a write error once [n] more bytes
    have been handed to it.  The C library buffers the stream, so [n] is the
    room left on the device only for an unbuffered stream; with a buffer the
    error shows later, or only in [fclose], whose result the code never
    looks at.  Nothing is said here about what the file holds after a write
    error. *)
Record OFILE := mkOFILE { written : list byte; room : option nat }.

Definition fopen_wb (space : option nat) : OFILE :=
  {| written := []; room := space |}.

(** [fwrite(ptr, size, count, f)] with [bs] the [size * count] bytes at
    [ptr]: the bytes the stream took and the stream afterwards; the call
    returns [items size put]. *)
Definition fwrite (bs : list byte) (o : OFILE) : list byte * OFILE :=
  let put := match room o with
             | None => bs
             | Some n => firstn n bs
             end in
  (put, {| written := written o ++ put;
           room := option_map (fun n => (n - length put)%nat) (room o) |}).

(* ================================================================= *)
(** ** save_bmp24 (lines 144-205) *)

(** [Saved out]: the call returns 1 after handing [out] to the stream; on a
    stream without write error the file holds [out].
    [SaveFailed stderr out]: it returns 0; [out] is what the stream had
    taken, if the file was created at all. *)
Inductive save_outcome : Type :=
| Saved (out : list byte)
| SaveFailed (stderr : list string) (out : option (list byte))
| SaveUndefined.

Definition save_return (o : save_outcome) : option Z :=
  match o with
  | Saved _ => Some 1
  | SaveFailed _ _ => Some 0
  | SaveUndefined => None
  end.

Definition msg_create : string := "No se pudo crear el archivo".

Definition pad : list byte := ["000"%byte; "000"%byte; "000"%byte].

(** Body of the row loop, lines 191-201. *)
Definition save_row (pixels : list Pixel24) (width padding : Z) (y : Z)
  (o : OFILE) : step OFILE save_outcome :=
  let row := to_int (y * width) in
  let count := to_size_t width in
  if negb (in_block row count (length pixels)) then Return SaveUndefined
  else
    let '(put, o) :=
      fwrite (bytes_of_pixels
                (load_cells (Z.to_nat row) (Z.to_nat count) pixels)) o in
    if negb (items 3 put =? Z.to_nat count)%nat
    then Return (SaveFailed [] (Some (written o)))
    else
      let o := if padding =? 0 then o
               else snd (fwrite (firstn (Z.to_nat (to_size_t padding)) pad) o)
      in Next o.

(** [device] is [None] when [fopen] fails and otherwise the [room] of the
    stream it returns. *)
Definition save_bmp24 (device : option (option nat))
  (src_ih : BMPInfoHeader) (pixels : list Pixel24) : save_outcome :=
  match device with
  | None => SaveFailed [msg_create] None
  | Some space =>
    let f := fopen_wb space in
    let width := biWidth src_ih in
    let height := biHeight src_ih in
    let row_bytes := to_int (width * 3) in
    let padding := row_padding width in
    let image_size :=
      to_uint32 (to_uint32 (to_int (row_bytes + padding)) * to_uint32 height) in
    let ih :=
      {| biSize := Z.of_nat sizeof_BMPInfoHeader;
         biWidth := biWidth src_ih;
         biHeight := biHeight src_ih;
         biPlanes := 1;
         biBitCount := 24;
         biCompression := 0;
         biSizeImage := image_size;
         biXPelsPerMeter := biXPelsPerMeter src_ih;
         biYPelsPerMeter := biYPelsPerMeter src_ih;
         biClrUsed := biClrUsed src_ih;
         biClrImportant := biClrImportant src_ih |} in
    let off_bits :=
      to_uint32 (Z.of_nat sizeof_BMPHeader + Z.of_nat sizeof_BMPInfoHeader) in
    let fh :=
      {| bfType := 0x4D42;
         bfSize := to_uint32 (off_bits + image_size);
         bfReserved1 := 0;
         bfReserved2 := 0;
         bfOffBits := off_bits |} in
    let '(put, f) := fwrite (bytes_of_BMPHeader fh) f in
    if negb (items sizeof_BMPHeader put =? 1)%nat
    then SaveFailed [] (Some (written f)) else
    let '(put, f) := fwrite (bytes_of_BMPInfoHeader ih) f in
    if negb (items sizeof_BMPInfoHeader put =? 1)%nat
    then SaveFailed [] (Some (written f)) else
    let y0 := to_int (height - 1) in
    match for_down (Z.to_nat (y0 + 1)) y0 (save_row pixels width padding) f with
    | Next f => Saved (written f)
    | Return o => o
    end
  end.

(* ================================================================= *)
(** ** Floating point *)

Definition INT_MIN : Z := - 2 ^ 31.

(** The integer part of a finite value, rounded toward zero. *)
Definition trunc_float (x : spec_float) : option Z :=
  match x with
  | S754_zero _ => Some 0
  | S754_finite s m e =>
      let a := match e with
               | Zneg p => Z.shiftr (Zpos m) (Zpos p)
               | _ => Z.shiftl (Zpos m) e
               end in
      Some (if s then - a else a)
  | _ => None
  end.

(** [(int)x].  ISO C leaves the conversion of a NaN, an infinity or a value
    outside [int] undefined; the x86-64 instruction the cast compiles to
    ([cvttsd2si], [cvttss2si]) then gives [INT_MIN]. *)
Definition float_to_int (x : spec_float) : Z :=
  match trunc_float x with
  | Some z => if (INT_MIN <=? z) && (z <=? INT_MAX) then z else INT_MIN
  | None => INT_MIN
  end.

(** [double]: binary64. *)
Module B64.
Definition prec : Z := 53.
Definition emax : Z := 1024.
Definition of_int (z : Z) : spec_float := binary_normalize prec emax z 0 false.
Definition add : spec_float -> spec_float -> spec_float := SFadd prec emax.
Definition mul : spec_float -> spec_float -> spec_float := SFmul prec emax.
Definition div : spec_float -> spec_float -> spec_float := SFdiv prec emax.
(** The decimal literal [num/den], correctly rounded. *)
Definition literal (num den : Z) : spec_float := div (of_int num) (of_int den).
End B64.

(** [float]: binary32. *)
Module F32.
Definition prec : Z := 24.
Definition emax : Z := 128.
Definition of_int (z : Z) : spec_float := binary_normalize prec emax z 0 false.
Definition add : spec_float -> spec_float -> spec_float := SFadd prec emax.
Definition mul : spec_float -> spec_float -> spec_float := SFmul prec emax.
Definition div : spec_float -> spec_float -> spec_float := SFdiv prec emax.
Definition eqb : spec_float -> spec_float -> bool := SFeqb.
Definition zero : spec_float := S754_zero false.
Definition one : spec_float := of_int 1.
Definition half : spec_float := div (of_int 1) (of_int 2).
End F32.

(* ================================================================= *)
(** ** Access to one cell of a block *)

Definition get {A R : Type} (undef : R) (blk : list A) (i : Z) : step A R :=
  if in_block i 1 (length blk)
  then match nth_error blk (Z.to_nat i) with
       | Some v => Next v
       | None => Return undef
       end
  else Return undef.

Definition set {A R : Type} (undef : R) (blk : list A) (i : Z) (v : A)
  : step (list A) R :=
  if in_block i 1 (length blk)
  then Next (store_cells (Z.to_nat i) [v] blk)
  else Return undef.

Definition bind {S T R : Type} (m : step S R) (k : S -> step T R)
  : step T R :=
  match m with
  | Next s => k s
  | Return v => Return v
  end.

Notation "x <- m ;; k" := (bind m (fun x => k))
  (at level 61, m at next level, right associativity).

(* ================================================================= *)
(** ** to_grayscale (lines 208-219) *)

(** Line 215: [(int)(0.299 * r + 0.587 * g + 0.114 * b + 0.5)]. *)
Definition luma (r g b : Z) : Z :=
  float_to_int
    (B64.add
       (B64.add
          (B64.add (B64.mul (B64.literal 299 1000) (B64.of_int r))
                   (B64.mul (B64.literal 587 1000) (B64.of_int g)))
          (B64.mul (B64.literal 114 1000) (B64.of_int b)))
       (B64.literal 5 10)).

Definition gray_pixel (g8 : byte) : Pixel24 := Px.mk g8 g8 g8.

(** Body of the loop, lines 212-217. *)
Definition to_grayscale_body (i : Z) (pixels : list Pixel24)
  : step (list Pixel24) unit :=
  p <- get tt pixels i ;;
  let r := u8 (Px.r p) in
  let g := u8 (Px.g p) in
  let b := u8 (Px.b p) in
  let gray := luma r g b in
  let g8 := clamp_int_to_u8 gray in
  set tt pixels i (gray_pixel g8).

(** [None]: the loop leaves the block [pixels]. *)
Definition to_grayscale (pixels : list Pixel24) (width height : Z)
  : option (list Pixel24) :=
  match for_up (Z.to_nat (to_int (width * height))) 0 to_grayscale_body
               pixels with
  | Next pixels => Some pixels
  | Return _ => None
  end.

(* ================================================================= *)
(** ** convolve3x3 (lines 223-288) *)

(** [k j i] is [k[j][i]]. *)
Definition kernel : Type := Z -> Z -> spec_float.

(** A loop that has no exit. *)
Fixpoint iter_up {S : Type} (n : nat) (y : Z) (body : Z -> S -> S) (s : S)
  : S :=
  match n with
  | O => s
  | Datatypes.S k => iter_up k (y + 1) body (body y s)
  end.

(** Lines 239-242. *)
Definition kernel_sum (k : kernel) : spec_float :=
  iter_up 3 0
    (fun j sumk => iter_up 3 0 (fun i sumk => F32.add sumk (k j i)) sumk)
    F32.zero.

(** Lines 243-244. *)
Definition norm_factor (k : kernel) : spec_float :=
  let sumk := kernel_sum k in
  if F32.eqb sumk F32.zero then F32.one else sumk.

(** Lines 251-262: the weighted sum of the window centred at (x, y). *)
Definition window_sum (src : list byte) (width : Z) (k : kernel) (x y : Z)
  : step spec_float unit :=
  for_up 3 (-1)
    (fun dy acc =>
       for_up 3 (-1)
         (fun dx acc =>
            let xx := to_int (x + dx) in
            let yy := to_int (y + dy) in
            pix <- get tt src (to_int (to_int (yy * width) + xx)) ;;
            Next (F32.add acc
                    (F32.mul (F32.of_int (u8 pix)) (k (dy + 1) (dx + 1)))))
         acc)
    F32.zero.

(** Lines 263-264. *)
Definition interior_value (acc sumk : spec_float) : byte :=
  let val := float_to_int (F32.add (F32.div acc sumk) F32.half) in
  clamp_int_to_u8 val.

(** Lines 249-265. *)
Definition convolve_row (src : list byte) (width : Z) (k : kernel)
  (sumk : spec_float) (y : Z) (dst : list byte) : step (list byte) unit :=
  for_up (Z.to_nat (to_int (width - 1) - 1)) 1
    (fun x dst =>
       acc <- window_sum src width k x y ;;
       set tt dst (to_int (to_int (y * width) + x)) (interior_value acc sumk))
    dst.

Definition copy_cell (src : list byte) (i : Z) (dst : list byte)
  : step (list byte) unit :=
  v <- get tt src i ;; set tt dst i v.

(** Lines 269-273. *)
Definition copy_rows (src : list byte) (width height : Z) (dst : list byte)
  : step (list byte) unit :=
  for_up (Z.to_nat width) 0
    (fun x dst =>
       dst <- copy_cell src (to_int (to_int (0 * width) + x)) dst ;;
       copy_cell src (to_int (to_int (to_int (height - 1) * width) + x)) dst)
    dst.

(** Lines 274-278. *)
Definition copy_columns (src : list byte) (width height : Z)
  (dst : list byte) : step (list byte) unit :=
  for_up (Z.to_nat height) 0
    (fun y dst =>
       dst <- copy_cell src (to_int (to_int (y * width) + 0)) dst ;;
       copy_cell src (to_int (to_int (y * width) + to_int (width - 1))) dst)
    dst.

(** [heap_src] and [heap_dst] are [None] when the [malloc] of that plane
    fails.  The result is [None] when an access leaves a block. *)
Definition convolve3x3 (heap_src heap_dst : option (nat -> byte))
  (pixels : list Pixel24) (width height : Z) (k : kernel)
  : option (list Pixel24) :=
  let size := Z.to_nat (to_size_t (to_size_t width * to_size_t height)) in
  match heap_src, heap_dst with
  | Some junk_src, Some junk_dst =>
    let src := malloc junk_src size in
    let dst := malloc junk_dst size in
    let n := Z.to_nat (to_int (width * height)) in
    let run :=
      src <- for_up n 0
               (fun i src => p <- get tt pixels i ;; set tt src i (Px.r p))
               src ;;
      let sumk := norm_factor k in
      dst <- for_up (Z.to_nat (to_int (height - 1) - 1)) 1
               (convolve_row src width k sumk) dst ;;
      dst <- copy_rows src width height dst ;;
      dst <- copy_columns src width height dst ;;
      for_up n 0
        (fun i pixels => v <- get tt dst i ;; set tt pixels i (gray_pixel v))
        pixels in
    match run with
    | Next pixels => Some pixels
    | Return _ => None
    end
  | _, _ => Some pixels
  end.

(** The kernels of the menu, lines 372-412. *)
Definition kernel_of_rows (rows : list (list Z)) : kernel :=
  fun j i => F32.of_int (nth (Z.to_nat i) (nth (Z.to_nat j) rows []) 0).

Definition sobelX : kernel :=
  kernel_of_rows [[-1; 0; 1]; [-2; 0; 2]; [-1; 0; 1]].
Definition sobelY : kernel :=
  kernel_of_rows [[-1; -2; -1]; [0; 0; 0]; [1; 2; 1]].
Definition laplacian : kernel :=
  kernel_of_rows [[0; -1; 0]; [-1; 4; -1]; [0; -1; 0]].

(* ================================================================= *)
(** ** main (lines 290-455) *)

(** The C string a buffer holds: the characters before the first NUL. *)
Fixpoint c_string (buf : string) : string :=
  match buf with
  | EmptyString => EmptyString
  | String c rest =>
      if Ascii.eqb c zero then EmptyString else String c (c_string rest)
  end.

Definition newline : ascii := ascii_of_nat 10.

(** Lines 297-299, 339-341 and 435-437: a final newline is cut off. *)
Definition chomp (buf : string) : string :=
  let s := c_string buf in
  let ln := String.length s in
  if negb (ln =? 0)%nat
     && match String.get (ln - 1) s with
        | Some c => Ascii.eqb c newline
        | None => false
        end
  then String.substring 0 (ln - 1) s
  else s.

(** What a run finds outside the program: one field for each call into the
    C library whose result the program does not determine. *)
Record world := mkWorld {
  (* line 294: the line fgets stores, None at the end of the input *)
  typed_in_name : option string;
  (* fopen(name, rb): the content of the file, None when it fails *)
  file_system : string -> option (list byte);
  (* the malloc of load_bmp24 *)
  image_heap : option (nat -> Pixel24);
  (* line 317: the number scanf converts, None when it does not return 1 *)
  typed_op : option Z;
  (* line 363, the same *)
  typed_kernel_op : option Z;
  (* line 404: the value scanf converts for k[j][i], None when it
     converts nothing *)
  typed_kernel : Z -> Z -> option spec_float;
  (* what the array k of line 366 holds before it is written *)
  stack_kernel : kernel;
  (* the two malloc of convolve3x3 *)
  plane_heap_src : option (nat -> byte);
  plane_heap_dst : option (nat -> byte);
  (* lines 334 and 430: the line fgets stores for the output name *)
  typed_out_name : option string;
  (* fopen(name, wb): the room of the stream, None when it fails *)
  devices : string -> option (option nat)
}.

(** What a run leaves behind: the value [main] returns, the texts written
    to the two streams, and the file created, if any, with the bytes handed
    to its stream. *)
Record finished := mkFinished {
  exit_code : Z;
  stdout : list string;
  stderr : list string;
  file_written : option (string * list byte)
}.

Definition prompt_in : string :=
  "Ingrese la ruta del BMP de entrada (24bpp, sin compresion): ".
Definition msg_load : string := ("Error cargando BMP." ++ nl)%string.
Definition menu : list string :=
  [(nl ++ "MENU" ++ nl)%string;
   ("1) Escala de grises" ++ nl)%string;
   ("2) Convolucion 3x3 (ingresar kernel)" ++ nl)%string;
   "Seleccione opcion: "%string].
Definition prompt_gray : string :=
  "Nombre del BMP de salida (ej: salida_gray.bmp): ".
Definition kernel_menu : list string :=
  [(nl ++ "Seleccione un kernel:" ++ nl)%string;
   ("1) Sobel X (bordes verticales)" ++ nl)%string;
   ("2) Sobel Y (bordes horizontales)" ++ nl)%string;
   ("3) Laplaciano (bordes en todas direcciones)" ++ nl)%string;
   ("4) Personalizado (ingresar 9 valores)" ++ nl)%string;
   "Opcion: "%string].
Definition prompt_kernel : string :=
  ("Ingrese los 9 valores del kernel:" ++ nl)%string.
Definition prompt_conv : string :=
  "Nombre del BMP de salida (ej: salida_conv.bmp): ".
Definition msg_save : string := ("Error guardando BMP." ++ nl)%string.
Definition msg_saved (name : string) : string :=
  ("Guardado OK: " ++ name ++ nl)%string.
Definition msg_option : string := ("Opcion no valida." ++ nl)%string.

Definition defaultK : kernel :=
  kernel_of_rows [[-1; 0; 1]; [-2; 0; 2]; [-1; 0; 1]].

(** Lines 362-416: the kernel in [k] after the [switch], and what the
    [switch] prints.  [kernel_op] keeps its 0 when [scanf] converts
    nothing, and a cell of [k] keeps what it held. *)
Definition read_kernel (w : world) : kernel * list string :=
  let kernel_op := match typed_kernel_op w with
                   | Some v => v
                   | None => 0
                   end in
  if kernel_op =? 1 then (sobelX, [])
  else if kernel_op =? 2 then (sobelY, [])
  else if kernel_op =? 3 then (laplacian, [])
  else if kernel_op =? 4 then
    (fun j i => match typed_kernel w j i with
                | Some v => v
                | None => stack_kernel w j i
                end,
     [prompt_kernel])
  else (defaultK, []).

(** Lines 334-350 and 430-446, the same text twice: read the output name,
    save, report.  [out] is what the program has printed so far. *)
Definition save_named (w : world) (ih : BMPInfoHeader) (img : list Pixel24)
  (out : list string) : option finished :=
  match typed_out_name w with
  | None => Some (mkFinished 0 out [] None)
  | Some line =>
      let out_name := chomp line in
      match save_bmp24 (devices w out_name) ih img with
      | Saved bytes =>
          Some (mkFinished 0 (out ++ [msg_saved out_name]) []
                  (Some (out_name, bytes)))
      | SaveFailed err file =>
          Some (mkFinished 0 out (err ++ [msg_save])
                  (option_map (pair out_name) file))
      | SaveUndefined => None
      end
  end.

(** [None]: the run makes an access outside a block. *)
Definition main (w : world) : option finished :=
  let out := [prompt_in] in
  match typed_in_name w with
  | None => Some (mkFinished 0 out [] None)
  | Some line =>
    let in_name := chomp line in
    match load_bmp24 (file_system w in_name) (image_heap w) with
    | LoadUndefined => None
    | Rejected err => Some (mkFinished 1 out (err ++ [msg_load]) None)
    | Loaded fh ih img =>
      let W := biWidth ih in
      let H := biHeight ih in
      let out := out ++ menu in
      match typed_op w with
      | None => Some (mkFinished 0 out [] None)
      | Some op =>
        if op =? 1 then
          match to_grayscale img W H with
          | None => None
          | Some img => save_named w ih img (out ++ [prompt_gray])
          end
        else if op =? 2 then
          let out := out ++ kernel_menu in
          let '(k, printed) := read_kernel w in
          let out := out ++ printed in
          match to_grayscale img W H with
          | None => None
          | Some img =>
            match convolve3x3 (plane_heap_src w) (plane_heap_dst w)
                    img W H k with
            | None => None
            | Some img => save_named w ih img (out ++ [prompt_conv])
            end
          end
        else Some (mkFinished 0 (out ++ [msg_option]) [] None)
      end
    end
  end.

(* ================================================================= *)
(** ** Definitions used to state the properties *)

(** The pixels of the stored row that starts at byte [pos] of a stream. *)
Definition row_at (data : list byte) (w pos : nat) : list Pixel24 :=
  pixels_of_bytes (firstn (3 * w) (skipn pos data)).

(** The [n] stored rows from byte [pos] on, [stride] bytes apart, the last
    one first. *)
Fixpoint rows_from (data : list byte) (w stride pos n : nat)
  : list Pixel24 :=
  match n with
  | O => []
  | S n' => rows_from data w stride (pos + stride) n' ++ row_at data w pos
  end.

(** The headers a stream holds in its first 54 bytes. *)
Definition stream_fh (data : list byte) : BMPHeader :=
  BMPHeader_of_bytes (firstn 14 data).

Definition stream_ih (data : list byte) : BMPInfoHeader :=
  BMPInfoHeader_of_bytes (firstn 40 (skipn 14 data)).

(** The bytes from one stored row to the next, and the byte at which the
    first one starts, as the headers of the stream give them. *)
Definition stream_stride (data : list byte) : nat :=
  let W := biWidth (stream_ih data) in
  (3 * Z.to_nat W + Z.to_nat (row_padding W))%nat.

Definition stream_offset (data : list byte) : nat :=
  Z.to_nat (bfOffBits (stream_fh data)).

(** Does the stream hold the pixels of its last stored row (and so of every
    row)? *)
Definition rows_present (data : list byte) : bool :=
  let W := biWidth (stream_ih data) in
  let H := biHeight (stream_ih data) in
  (stream_offset data + (Z.to_nat H - 1) * stream_stride data
   + 3 * Z.to_nat W <=? length data)%nat.

(** The image of a stream, top row first. *)
Definition stream_pixels (data : list byte) : list Pixel24 :=
  rows_from data (Z.to_nat (biWidth (stream_ih data))) (stream_stride data)
    (stream_offset data) (Z.to_nat (biHeight (stream_ih data))).

(** What an accepted stream looks like. *)
Record accepted (data : list byte) : Prop := mkAccepted {
  acc_length : (54 <= length data)%nat;
  acc_signature : bfType (stream_fh data) = 0x4D42;
  acc_bits : biBitCount (stream_ih data) = 24;
  acc_compression : biCompression (stream_ih data) = 0;
  acc_width : 0 < biWidth (stream_ih data) < 2 ^ 31;
  acc_height : 0 < biHeight (stream_ih data) < 2 ^ 31;
  acc_no_wrap :
    (biHeight (stream_ih data) - 1) * biWidth (stream_ih data) < 2 ^ 31;
  acc_rows : rows_present data = true
}.

(** Rows [k-1] down to 0 of a [w]-wide block, each followed by [p] zero
    bytes: the pixel data of an encoded file. *)
Fixpoint encoded_rows (px : list Pixel24) (w p k : nat) : list byte :=
  match k with
  | O => []
  | S k' =>
      bytes_of_pixels (load_cells (k' * w) w px)
      ++ repeat "000"%byte p ++ encoded_rows px w p k'
  end.

(** The headers [save_bmp24] writes for the template [src_ih]. *)
Definition saved_ih (src_ih : BMPInfoHeader) : BMPInfoHeader :=
  let width := biWidth src_ih in
  let row_bytes := to_int (width * 3) in
  {| biSize := 40;
     biWidth := biWidth src_ih;
     biHeight := biHeight src_ih;
     biPlanes := 1;
     biBitCount := 24;
     biCompression := 0;
     biSizeImage :=
       to_uint32 (to_uint32 (to_int (row_bytes + row_padding width))
                  * to_uint32 (biHeight src_ih));
     biXPelsPerMeter := biXPelsPerMeter src_ih;
     biYPelsPerMeter := biYPelsPerMeter src_ih;
     biClrUsed := biClrUsed src_ih;
     biClrImportant := biClrImportant src_ih |}.

Definition saved_fh (src_ih : BMPInfoHeader) : BMPHeader :=
  {| bfType := 0x4D42;
     bfSize := to_uint32 (54 + biSizeImage (saved_ih src_ih));
     bfReserved1 := 0;
     bfReserved2 := 0;
     bfOffBits := 54 |}.

(** The pixel stored in the three bytes at [pos] of a stream. *)
Definition stored_pixel (data : list byte) (pos : nat) : option Pixel24 :=
  match nth_error data pos, nth_error data (pos + 1),
        nth_error data (pos + 2) with
  | Some x, Some y, Some z => Some (Px.mk x y z)
  | _, _, _ => None
  end.

(** The file [save_bmp24] produces when no write fails. *)
Definition saved_stream (ih : BMPInfoHeader) (px : list Pixel24)
  : list byte :=
  bytes_of_BMPHeader (saved_fh ih)
  ++ bytes_of_BMPInfoHeader (saved_ih ih)
  ++ encoded_rows px (Z.to_nat (biWidth ih))
       (Z.to_nat (row_padding (biWidth ih))) (Z.to_nat (biHeight ih)).

Definition red : Pixel24 := Px.mk "000"%byte "000"%byte "255"%byte.
Definition blue : Pixel24 := Px.mk "255"%byte "000"%byte "000"%byte.

(** Streams used as examples: a 54-byte header followed by [body]. *)
Definition sample_stream (sig size width height bits : Z) (body : list byte)
  : list byte :=
  bytes_of_BMPHeader
    {| bfType := sig; bfSize := 70; bfReserved1 := 0; bfReserved2 := 0;
       bfOffBits := 54 |}
  ++ bytes_of_BMPInfoHeader
       {| biSize := size; biWidth := width; biHeight := height;
          biPlanes := 1; biBitCount := bits; biCompression := 0;
          biSizeImage := 16; biXPelsPerMeter := 2835;
          biYPelsPerMeter := 2835; biClrUsed := 0; biClrImportant := 0 |}
  ++ body.

(** Two rows of two pixels: the first stored row red, the second blue, each
    followed by two padding bytes that are not zero. *)
Definition sample_body : list byte :=
  ["000"; "000"; "255"; "000"; "000"; "255"; "170"; "170";
   "255"; "000"; "000"; "255"; "000"; "000"; "187"; "187"]%byte.

Definition stream_2x2 : list byte := sample_stream 0x4D42 40 2 2 24 sample_body.
Definition stream_bad_signature : list byte :=
  sample_stream 0x4D43 40 2 2 24 sample_body.
Definition stream_8bpp : list byte := sample_stream 0x4D42 40 2 2 8 sample_body.
Definition stream_negative_width : list byte :=
  sample_stream 0x4D42 40 (-10) 2 24 sample_body.
Definition stream_truncated : list byte := firstn 20 stream_2x2.
Definition stream_size_124 : list byte :=
  sample_stream 0x4D42 124 2 2 24 sample_body.

Definition no_junk : nat -> Pixel24 := fun _ => Px.mk "000" "000" "000".

(** The error taxonomy of the specification. *)
Inductive error_tag : Type :=
| IoOpenFailed | TruncatedHeader | InvalidSignature | UnsupportedFormat
| UnsupportedDimensions | TruncatedPixelData | WriteFailed | OutOfMemory.

(** A stream with its header-size field (bytes 14 to 17) overwritten. *)
Definition with_size_field (bs data : list byte) : list byte :=
  firstn 14 data ++ bs ++ skipn 18 data.

Definition set_biSize (v : Z) (ih : BMPInfoHeader) : BMPInfoHeader :=
  {| biSize := v;
     biWidth := biWidth ih;
     biHeight := biHeight ih;
     biPlanes := biPlanes ih;
     biBitCount := biBitCount ih;
     biCompression := biCompression ih;
     biSizeImage := biSizeImage ih;
     biXPelsPerMeter := biXPelsPerMeter ih;
     biYPelsPerMeter := biYPelsPerMeter ih;
     biClrUsed := biClrUsed ih;
     biClrImportant := biClrImportant ih |}.

(** What one pass of the loop of [to_grayscale] makes of a pixel. *)
Definition gray_of (p : Pixel24) : Pixel24 :=
  gray_pixel
    (clamp_int_to_u8 (luma (u8 (Px.r p)) (u8 (Px.g p)) (u8 (Px.b p)))).

(** The formula of the specification, [0.299 R + 0.587 G + 0.114 B + 0.5]
    truncated, in exact arithmetic. *)
Definition luma_exact (r g b : Z) : Z :=
  (299 * r + 587 * g + 114 * b + 500) / 1000.

(** The weighted sum of the 3x3 neighbourhood of (x, y) in the plane
    [src], accumulated in the order of the source. *)
Definition window_acc (src : list byte) (width : Z) (k : kernel) (x y : Z)
  : spec_float :=
  iter_up 3 (-1)
    (fun dy acc =>
       iter_up 3 (-1)
         (fun dx acc =>
            F32.add acc
              (F32.mul
                 (F32.of_int
                    (u8 (nth (Z.to_nat ((y + dy) * width + (x + dx))) src
                           "000"%byte)))
                 (k (dy + 1) (dx + 1))))
         acc)
    F32.zero.

Definition is_border (width height x y : Z) : bool :=
  (y =? 0) || (y =? height - 1) || (x =? 0) || (x =? width - 1).

(** The value [convolve3x3] leaves in the cell at row [y], column [x] of
    its plane [dst]. *)
Definition convolved_cell (src : list byte) (width height : Z) (k : kernel)
  (y x : Z) : byte :=
  if is_border width height x y
  then nth (Z.to_nat (y * width + x)) src "000"%byte
  else interior_value (window_acc src width k x y) (norm_factor k).

(** [dst] holds the expected value in every cell selected by [P]. *)
Definition agree (W H : Z) (E : Z -> Z -> byte) (P : Z -> Z -> Prop)
  (dst : list byte) : Prop :=
  Z.of_nat (length dst) = W * H
  /\ forall y x, 0 <= y < H -> 0 <= x < W -> P y x ->
                 nth (Z.to_nat (y * W + x)) dst "000"%byte = E y x.

Definition no_junk8 : nat -> byte := fun _ => "000"%byte.

(** A 3x3 block of gray pixels, the centre one brighter. *)
Definition block_3x3 : list Pixel24 :=
  map gray_pixel
    ["010"; "020"; "030"; "040"; "200"; "060"; "070"; "080"; "090"]%byte.

(** A kernel that averages the nine cells. *)
Definition box : kernel :=
  kernel_of_rows [[1; 1; 1]; [1; 1; 1]; [1; 1; 1]].

(** The same world with another answer to the kernel menu. *)
Definition with_kernel_op (v : option Z) (w : world) : world :=
  {| typed_in_name := typed_in_name w;
     file_system := file_system w;
     image_heap := image_heap w;
     typed_op := typed_op w;
     typed_kernel_op := v;
     typed_kernel := typed_kernel w;
     stack_kernel := stack_kernel w;
     plane_heap_src := plane_heap_src w;
     plane_heap_dst := plane_heap_dst w;
     typed_out_name := typed_out_name w;
     devices := devices w |}.

(** A world in which every call into the library succeeds: the file
    [in.bmp] holds [data], the user types [op] and [kernel_op], and the
    output goes to [out.bmp] on a device with room. *)
Definition sample_world (data : list byte) (op kernel_op : Z) : world :=
  {| typed_in_name := Some ("in.bmp" ++ nl)%string;
     file_system :=
       fun name => if String.eqb name "in.bmp" then Some data else None;
     image_heap := Some no_junk;
     typed_op := Some op;
     typed_kernel_op := Some kernel_op;
     typed_kernel := fun _ _ => None;
     stack_kernel := fun _ _ => F32.zero;
     plane_heap_src := Some no_junk8;
     plane_heap_dst := Some no_junk8;
     typed_out_name := Some ("out.bmp" ++ nl)%string;
     devices := fun _ => Some None |}.

(** The plane [main] hands to the convolution at line 426: the gray value
    of every pixel. *)
Definition luma_plane (pixels : list Pixel24) : list byte :=
  map (fun p => Px.r (gray_of p)) pixels.

(** A stream cut in the middle of its pixel data. *)
Definition stream_short_rows : list byte := firstn 60 stream_2x2.

(** A header for a block of [width] x [height] pixels, the fields that
    [save_bmp24] passes through set to sample values. *)
Definition template (width height : Z) : BMPInfoHeader :=
  {| biSize := 0; biWidth := width; biHeight := height; biPlanes := 0;
     biBitCount := 0; biCompression := 3; biSizeImage := 0;
     biXPelsPerMeter := 2835; biYPelsPerMeter := -1; biClrUsed := 0;
     biClrImportant := 0 |}.

(** The kernel that keeps the centre of the window: a kernel a user can
    type in at line 404. *)
Definition identity : kernel :=
  kernel_of_rows [[0; 0; 0]; [0; 1; 0]; [0; 0; 0]].

(** The pixel [convolve3x3] writes for a cell it copies. *)
Definition red_as_gray (p : Pixel24) : Pixel24 := gray_pixel (Px.r p).

Definition rejected_run : finished :=
  mkFinished 1 [prompt_in] [msg_format; msg_load] None.

(** The weighted sum of a window all of whose cells hold [v]. *)
Definition flat_acc (v : byte) (k : kernel) : spec_float :=
  iter_up 3 (-1)
    (fun dy acc =>
       iter_up 3 (-1)
         (fun dx acc =>
            F32.add acc (F32.mul (F32.of_int (u8 v)) (k (dy + 1) (dx + 1))))
         acc)
    F32.zero.

(** The stream of [stream_2x2] followed by three more bytes. *)
Definition stream_with_tail : list byte :=
  stream_2x2 ++ ["001"; "002"; "003"]%byte.

(** The same world in which the first plane of [convolve3x3] cannot be
    allocated. *)
Definition without_plane (w : world) : world :=
  {| typed_in_name := typed_in_name w;
     file_system := file_system w;
     image_heap := image_heap w;
     typed_op := typed_op w;
     typed_kernel_op := typed_kernel_op w;
     typed_kernel := typed_kernel w;
     stack_kernel := stack_kernel w;
     plane_heap_src := None;
     plane_heap_dst := plane_heap_dst w;
     typed_out_name := typed_out_name w;
     devices := devices w |}.







(* ================================================================= *)
(** ** Facts about bytes and machine integers *)

Lemma u8_range (x : byte) : 0 <= u8 x < 256.
Proof.
  unfold u8. pose proof (Byte.to_N_bounded x) as H. lia.
Qed.

Lemma to_uint8_u8 (x : byte) : to_uint8 (u8 x) = x.
Proof.
  unfold to_uint8. rewrite Z.mod_small by apply u8_range.
  unfold u8. rewrite N2Z.id, Byte.of_to_N. reflexivity.
Qed.

Lemma u8_to_uint8 (z : Z) : u8 (to_uint8 z) = z mod 256.
Proof.
  unfold to_uint8, u8.
  assert (Hr : 0 <= z mod 256 < 256) by (apply Z.mod_pos_bound; lia).
  destruct (Byte.of_N (Z.to_N (z mod 256))) as [x|] eqn:E.
  - apply Byte.to_of_N in E. rewrite E. lia.
  - apply Byte.of_N_None_iff in E. lia.
Qed.

Lemma u8_inj (x y : byte) : u8 x = u8 y -> x = y.
Proof.
  intros H. rewrite <- (to_uint8_u8 x), <- (to_uint8_u8 y), H. reflexivity.
Qed.

Lemma clamp_int_to_u8_small (v : Z) :
  0 <= v <= 255 -> u8 (clamp_int_to_u8 v) = v.
Proof.
  intros H. unfold clamp_int_to_u8.
  destruct (v <? 0) eqn:E1; [lia|].
  destruct (v >? 255) eqn:E2; [lia|].
  rewrite u8_to_uint8. apply Z.mod_small. lia.
Qed.

Lemma to_int_small (z : Z) : - 2 ^ 31 <= z < 2 ^ 31 -> to_int z = z.
Proof.
  intros H. unfold to_int.
  destruct (Z_lt_le_dec z 0) as [Hn|Hp].
  - replace (z mod 2 ^ 32) with (z + 2 ^ 32).
    + destruct (z + 2 ^ 32 <? 2 ^ 31) eqn:E; lia.
    + apply Z.mod_unique with (q := -1); lia.
  - rewrite Z.mod_small by lia.
    destruct (z <? 2 ^ 31) eqn:E; lia.
Qed.

Lemma to_int_range (z : Z) : - 2 ^ 31 <= to_int z < 2 ^ 31.
Proof.
  unfold to_int.
  pose proof (Z.mod_pos_bound z (2 ^ 32) ltac:(lia)) as H.
  destruct (z mod 2 ^ 32 <? 2 ^ 31) eqn:E; lia.
Qed.


(** A product that wraps to a negative [int] on its first overflow. *)
Lemma to_int_wrapped (z : Z) : 2 ^ 31 <= z < 2 ^ 32 -> to_int z < 0.
Proof.
  intros H. unfold to_int. rewrite Z.mod_small by lia.
  destruct (z <? 2 ^ 31) eqn:E; lia.
Qed.

Lemma to_uint32_small (z : Z) : 0 <= z < 2 ^ 32 -> to_uint32 z = z.
Proof. intros H. unfold to_uint32. apply Z.mod_small. lia. Qed.

Lemma to_size_t_small (z : Z) : 0 <= z < 2 ^ 64 -> to_size_t z = z.
Proof. intros H. unfold to_size_t. apply Z.mod_small. lia. Qed.

Lemma to_int_to_uint32 (z : Z) : to_int (to_uint32 z) = to_int z.
Proof.
  unfold to_int, to_uint32. rewrite Z.mod_mod by lia. reflexivity.
Qed.

(* ================================================================= *)
(** ** Row padding *)

Lemma row_padding_range (w : Z) : 0 <= row_padding w < 4.
Proof.
  unfold row_padding.
  pose proof (Z.rem_bound_abs (to_int (w * 3)) 4 ltac:(lia)) as Hb.
  set (q := Z.rem (to_int (w * 3)) 4) in *.
  assert (Hq : -3 <= q <= 3) by lia.
  assert (Hc : q = -3 \/ q = -2 \/ q = -1 \/ q = 0 \/ q = 1 \/ q = 2 \/ q = 3)
    by lia.
  destruct Hc as [-> | [-> | [-> | [-> | [-> | [-> | ->]]]]]]; cbn; lia.
Qed.


(* ================================================================= *)
(** ** Little-endian fields *)

Lemma length_le_bytes (n : nat) (z : Z) : length (le_bytes n z) = n.
Proof.
  revert z. induction n as [|n IH]; intros z; cbn; [reflexivity|].
  rewrite IH. reflexivity.
Qed.

Lemma le_value_le_bytes (n : nat) (z : Z) :
  le_value (le_bytes n z) = z mod 256 ^ Z.of_nat n.
Proof.
  revert z. induction n as [|n IH]; intros z.
  - cbn. rewrite Z.mod_1_r. reflexivity.
  - cbn [le_bytes le_value]. rewrite IH, u8_to_uint8.
    rewrite Nat2Z.inj_succ, Z.pow_succ_r by lia.
    rewrite Z.rem_mul_r by lia. reflexivity.
Qed.

Lemma BMPHeader_of_bytes_of (fh : BMPHeader) :
  BMPHeader_of_bytes (bytes_of_BMPHeader fh) =
  {| bfType := bfType fh mod 2 ^ 16;
     bfSize := bfSize fh mod 2 ^ 32;
     bfReserved1 := bfReserved1 fh mod 2 ^ 16;
     bfReserved2 := bfReserved2 fh mod 2 ^ 16;
     bfOffBits := bfOffBits fh mod 2 ^ 32 |}.
Proof.
  unfold BMPHeader_of_bytes, bytes_of_BMPHeader, field.
  cbn [le_bytes app firstn skipn].
  f_equal;
    first [ exact (le_value_le_bytes 2 _) | exact (le_value_le_bytes 4 _) ].
Qed.

Lemma BMPInfoHeader_of_bytes_of (ih : BMPInfoHeader) :
  BMPInfoHeader_of_bytes (bytes_of_BMPInfoHeader ih) =
  {| biSize := biSize ih mod 2 ^ 32;
     biWidth := to_int (biWidth ih mod 2 ^ 32);
     biHeight := to_int (biHeight ih mod 2 ^ 32);
     biPlanes := biPlanes ih mod 2 ^ 16;
     biBitCount := biBitCount ih mod 2 ^ 16;
     biCompression := biCompression ih mod 2 ^ 32;
     biSizeImage := biSizeImage ih mod 2 ^ 32;
     biXPelsPerMeter := to_int (biXPelsPerMeter ih mod 2 ^ 32);
     biYPelsPerMeter := to_int (biYPelsPerMeter ih mod 2 ^ 32);
     biClrUsed := biClrUsed ih mod 2 ^ 32;
     biClrImportant := biClrImportant ih mod 2 ^ 32 |}.
Proof.
  unfold BMPInfoHeader_of_bytes, bytes_of_BMPInfoHeader, field.
  cbn [le_bytes app firstn skipn].
  f_equal; try (apply f_equal);
    first [ exact (le_value_le_bytes 2 _) | exact (le_value_le_bytes 4 _) ].
Qed.

Lemma length_bytes_of_BMPHeader (fh : BMPHeader) :
  length (bytes_of_BMPHeader fh) = 14%nat.
Proof. reflexivity. Qed.

Lemma length_bytes_of_BMPInfoHeader (ih : BMPInfoHeader) :
  length (bytes_of_BMPInfoHeader ih) = 40%nat.
Proof. reflexivity. Qed.

(* ================================================================= *)
(** ** Pixels and their bytes *)

Lemma pixels_of_bytes_of (ps : list Pixel24) :
  pixels_of_bytes (bytes_of_pixels ps) = ps.
Proof.
  induction ps as [|[x y z] ps IH]; cbn; [reflexivity|].
  rewrite IH. reflexivity.
Qed.

Lemma length_bytes_of_pixels (ps : list Pixel24) :
  length (bytes_of_pixels ps) = (3 * length ps)%nat.
Proof.
  induction ps as [|p ps IH]; cbn [bytes_of_pixels length]; lia.
Qed.

Lemma length_pixels_of_bytes (bs : list byte) (n : nat) :
  length bs = (3 * n)%nat -> length (pixels_of_bytes bs) = n.
Proof.
  revert bs. induction n as [|n IH]; intros bs H.
  - destruct bs; [reflexivity|discriminate].
  - destruct bs as [|x [|y [|z bs]]]; cbn [length] in H; try lia.
    cbn [pixels_of_bytes length]. rewrite IH; [reflexivity|lia].
Qed.

Lemma nth_error_pixels_of_bytes (bs : list byte) (c : nat) (x y z : byte) :
  nth_error bs (3 * c) = Some x ->
  nth_error bs (3 * c + 1) = Some y ->
  nth_error bs (3 * c + 2) = Some z ->
  nth_error (pixels_of_bytes bs) c = Some (Px.mk x y z).
Proof.
  revert bs. induction c as [|c IH]; intros bs Hx Hy Hz.
  - destruct bs as [|x' [|y' [|z' bs]]]; cbn in *; try discriminate.
    congruence.
  - destruct bs as [|x' [|y' [|z' bs]]].
    + destruct c; discriminate.
    + replace (3 * S c)%nat with (S (S (S (3 * c)))) in Hx by lia.
      cbn in Hx. destruct (3 * c)%nat; discriminate.
    + replace (3 * S c)%nat with (S (S (S (3 * c)))) in Hx by lia.
      cbn in Hx. destruct (3 * c)%nat; discriminate.
    + replace (3 * S c)%nat with (S (S (S (3 * c)))) in Hx by lia.
      replace (3 * S c + 1)%nat with (S (S (S (3 * c + 1)))) in Hy by lia.
      replace (3 * S c + 2)%nat with (S (S (S (3 * c + 2)))) in Hz by lia.
      cbn [pixels_of_bytes nth_error] in *. apply IH; assumption.
Qed.

(* ================================================================= *)
(** ** Blocks *)

Lemma length_malloc {A : Type} (junk : nat -> A) (n : nat) :
  length (malloc junk n) = n.
Proof. unfold malloc. rewrite length_map, length_seq. reflexivity. Qed.

Lemma length_store_cells {A : Type} (idx : nat) (vs blk : list A) :
  (idx + length vs <= length blk)%nat ->
  length (store_cells idx vs blk) = length blk.
Proof.
  intros H. unfold store_cells.
  rewrite !length_app, length_firstn, length_skipn. lia.
Qed.

Lemma store_cells_app {A : Type} (pre vs acc : list A) (idx : nat) :
  (idx + length vs = length pre)%nat ->
  store_cells idx vs (pre ++ acc) = firstn idx pre ++ vs ++ acc.
Proof.
  intros H. unfold store_cells.
  rewrite firstn_app, skipn_app.
  replace (idx - length pre)%nat with 0%nat by lia.
  replace (idx + length vs - length pre)%nat with 0%nat by lia.
  rewrite (skipn_all2 pre) by lia.
  cbn [firstn skipn app]. rewrite app_nil_r. reflexivity.
Qed.

Lemma in_block_spec (idx count : Z) (n : nat) :
  in_block idx count n = true <-> 0 <= idx /\ idx + count <= Z.of_nat n.
Proof.
  unfold in_block. rewrite andb_true_iff, !Z.leb_le. reflexivity.
Qed.

Lemma items_exact (size count : nat) (got : list byte) :
  (0 < size)%nat -> (length got <= size * count)%nat ->
  (items size got =? count)%nat = (length got =? size * count)%nat.
Proof.
  intros Hs Hl. unfold items.
  destruct (Nat.eqb_spec (length got) (size * count)) as [E|E].
  - rewrite E, Nat.mul_comm, Nat.div_mul by lia. apply Nat.eqb_refl.
  - apply Nat.eqb_neq. intros Hd.
    assert (length got < size * count)%nat by lia.
    pose proof (Nat.Div0.div_lt_upper_bound (length got) size count) as Hu.
    lia.
Qed.

(* ================================================================= *)
(** ** The row loop of load_bmp24 *)

Lemma length_row_at (data : list byte) (w pos : nat) :
  (pos + 3 * w <= length data)%nat -> length (row_at data w pos) = w.
Proof.
  intros H. unfold row_at. apply length_pixels_of_bytes.
  rewrite length_firstn, length_skipn. lia.
Qed.

Lemma load_rows_run (data : list byte) (w h p : nat) :
  (0 < w)%nat -> (Z.of_nat h - 1) * Z.of_nat w < 2 ^ 31 ->
  forall (n : nat) (y : Z) (pos : nat) (pre acc : list Pixel24),
  0 <= y -> Z.of_nat h - y = Z.of_nat n ->
  length pre = (n * w)%nat ->
  for_up n y (load_row (Z.of_nat w) (Z.of_nat h) (Z.of_nat p))
         (mkFILE data pos, pre ++ acc) =
  if (n =? 0)%nat
     || (pos + (n - 1) * (3 * w + p) + 3 * w <=? length data)%nat
  then Next (mkFILE data (pos + n * (3 * w + p)),
             rows_from data w (3 * w + p) pos n ++ acc)
  else Return (Rejected [msg_row]).
Proof.
  intros Hw Hnw. induction n as [|n IH]; intros y pos pre acc Hy Hn Hpre.
  - cbn. destruct pre; [|discriminate]. cbn.
    rewrite Nat.add_0_r. reflexivity.
  - cbn [for_up]. unfold load_row at 1.
    replace (Z.of_nat h - 1 - y) with (Z.of_nat n) by lia.
    assert (Hle : Z.of_nat n * Z.of_nat w <= (Z.of_nat h - 1) * Z.of_nat w)
      by nia.
    rewrite to_int_small by nia.
    assert (Hin : in_block (Z.of_nat n * Z.of_nat w) (Z.of_nat w)
                    (length (pre ++ acc)) = true).
    { apply in_block_spec. rewrite length_app, Hpre. nia. }
    rewrite Hin. cbn [negb].
    unfold fread. cbn [contents position].
    rewrite Nat2Z.id.
    set (got := firstn (3 * w) (skipn pos data)).
    assert (Hgot : length got = Nat.min (3 * w) (length data - pos))
      by (unfold got; rewrite length_firstn, length_skipn; reflexivity).
    rewrite items_exact by lia.
    destruct (Nat.eqb_spec (length got) (3 * w)) as [E|E]; cbn [negb].
    + assert (Hrow : length (pixels_of_bytes got) = w)
        by (apply length_pixels_of_bytes; exact E).
      rewrite <- Nat2Z.inj_mul, Nat2Z.id.
      rewrite store_cells_app by lia.
      assert (Hpos : (if Z.of_nat p =? 0
                      then mkFILE data (pos + length got)
                      else fseek_cur (Z.of_nat p)
                             (mkFILE data (pos + length got)))
                     = mkFILE data (pos + (3 * w + p))).
      { destruct (Z.eqb_spec (Z.of_nat p) 0) as [Ep|Ep].
        - f_equal. lia.
        - unfold fseek_cur. cbn [contents position]. rewrite Nat2Z.id.
          f_equal. lia. }
      rewrite Hpos.
      rewrite (IH (y + 1) (pos + (3 * w + p))%nat (firstn (n * w) pre)
                  (pixels_of_bytes got ++ acc)); try lia.
      2:{ rewrite length_firstn. lia. }
      cbn [Nat.eqb orb].
      replace (S n - 1)%nat with n by lia.
      destruct n as [|n'].
      * cbn [Nat.eqb orb rows_from app].
        destruct (Nat.leb_spec (pos + 0 * (3 * w + p) + 3 * w) (length data));
          [|lia].
        cbn [rows_from app].
        replace (pos + (3 * w + p) + 0 * (3 * w + p))%nat
          with (pos + 1 * (3 * w + p))%nat by lia.
        reflexivity.
      * cbn [Nat.eqb orb].
        replace (pos + (3 * w + p) + (S n' - 1) * (3 * w + p) + 3 * w)%nat
          with (pos + S n' * (3 * w + p) + 3 * w)%nat by lia.
        destruct (Nat.leb_spec (pos + S n' * (3 * w + p) + 3 * w)
                               (length data)); [|reflexivity].
        replace (pos + (3 * w + p) + S n' * (3 * w + p))%nat
          with (pos + S (S n') * (3 * w + p))%nat by lia.
        change (rows_from data w (3 * w + p) pos (S (S n')))
          with (rows_from data w (3 * w + p) (pos + (3 * w + p)) (S n')
                ++ row_at data w pos).
        rewrite <- app_assoc. reflexivity.
    + cbn [Nat.eqb orb].
      replace (S n - 1)%nat with n by lia.
      destruct (Nat.leb_spec (pos + n * (3 * w + p) + 3 * w) (length data));
        [lia|reflexivity].
Qed.

Lemma load_rows_in_block (W H P : Z) :
  0 < W ->
  forall (n : nat) (y : Z) (f : FILE) (px : list Pixel24) s',
  for_up n y (load_row W H P) (f, px) = Next s' ->
  forall j, y <= j < y + Z.of_nat n ->
  in_block (to_int ((H - 1 - j) * W)) W (length px) = true.
Proof.
  intros HW. induction n as [|n IH]; intros y f px s' Hrun j Hj; [lia|].
  cbn [for_up] in Hrun. unfold load_row at 1 in Hrun.
  destruct (in_block (to_int ((H - 1 - y) * W)) W (length px)) eqn:Hin;
    cbn [negb] in Hrun; [|discriminate].
  destruct (fread 3 (Z.to_nat W) f) as [got f'] eqn:Hread.
  assert (Hlen : (length got <= 3 * Z.to_nat W)%nat).
  { unfold fread in Hread. injection Hread as <- _.
    apply firstn_le_length. }
  rewrite items_exact in Hrun by lia.
  destruct (Nat.eqb_spec (length got) (3 * Z.to_nat W)) as [E|E];
    cbn [negb] in Hrun; [|discriminate].
  destruct (Z.eq_dec j y) as [->|Hne]; [exact Hin|].
  apply in_block_spec in Hin.
  rewrite <- (length_store_cells (Z.to_nat (to_int ((H - 1 - y) * W)))
                (pixels_of_bytes got) px).
  - eapply IH; [exact Hrun|lia].
  - rewrite (length_pixels_of_bytes got (Z.to_nat W) E). lia.
Qed.

Lemma rows_do_not_wrap (W H : Z) :
  0 < W < 2 ^ 31 -> 0 < H ->
  (forall d, 0 <= d < H -> 0 <= to_int (d * W)) ->
  (H - 1) * W < 2 ^ 31.
Proof.
  intros HW HH Hall.
  assert (Hd : forall d : nat, Z.of_nat d < H -> Z.of_nat d * W < 2 ^ 31).
  { induction d as [|d IH]; intros Hlt; [lia|].
    assert (Hprev : Z.of_nat d * W < 2 ^ 31) by (apply IH; lia).
    destruct (Z_lt_le_dec (Z.of_nat (S d) * W) (2 ^ 31)) as [Hok|Hbad];
      [exact Hok|].
    pose proof (Hall (Z.of_nat (S d)) ltac:(lia)) as Hpos.
    pose proof (to_int_wrapped (Z.of_nat (S d) * W) ltac:(nia)). lia. }
  replace (H - 1) with (Z.of_nat (Z.to_nat (H - 1))) by lia.
  apply Hd. lia.
Qed.

(* ================================================================= *)
(** ** load_bmp24, step by step *)

Lemma load_bmp24_eq (data : list byte) (heap : option (nat -> Pixel24)) :
  load_bmp24 (Some data) heap =
  if (length data <? 54)%nat then Rejected [] else
  let fh := stream_fh data in
  let ih := stream_ih data in
  if negb (bfType fh =? 0x4D42) then Rejected [msg_signature] else
  if negb (biBitCount ih =? 24) || negb (biCompression ih =? 0)
  then Rejected [msg_format] else
  if (biWidth ih <=? 0) || (biHeight ih <=? 0)
  then Rejected [msg_dimensions] else
  match heap with
  | None => Rejected []
  | Some junk =>
    match for_up (Z.to_nat (biHeight ih)) 0
            (load_row (biWidth ih) (biHeight ih) (row_padding (biWidth ih)))
            (mkFILE data (Z.to_nat (bfOffBits fh)),
             malloc junk (Z.to_nat (biWidth ih) * Z.to_nat (biHeight ih)))
    with
    | Next (_, pixels) => Loaded fh ih pixels
    | Return o => o
    end
  end.
Proof.
  unfold load_bmp24, fread, fopen_rb, sizeof_BMPHeader, sizeof_BMPInfoHeader.
  cbn [contents position skipn Nat.mul Nat.add].
  rewrite items_exact by (try lia; apply firstn_le_length).
  rewrite length_firstn.
  destruct (Nat.ltb_spec (length data) 14) as [H14|H14].
  - replace (Nat.min 14 (length data)) with (length data) by lia.
    destruct (Nat.eqb_spec (length data) (14 * 1)) as [E|E]; [lia|].
    destruct (Nat.ltb_spec (length data) 54); [reflexivity|lia].
  - replace (Nat.min 14 (length data)) with 14%nat by lia.
    cbn [Nat.eqb Nat.mul Nat.add negb].
    rewrite items_exact by (try lia; apply firstn_le_length).
    rewrite length_firstn, length_skipn.
    destruct (Nat.ltb_spec (length data) 54) as [Hshort|Hlong].
    + replace (Nat.min 40 (length data - 14)) with (length data - 14)%nat
        by lia.
      destruct (Nat.eqb_spec (length data - 14) (40 * 1)) as [E|E]; [lia|].
      reflexivity.
    + replace (Nat.min 40 (length data - 14)) with 40%nat by lia.
      reflexivity.
Qed.

(** Streams with sound headers whose row indices stay inside [int]. *)
Lemma load_bmp24_rows (data : list byte) (junk : nat -> Pixel24) :
  let fh := stream_fh data in
  let ih := stream_ih data in
  (54 <= length data)%nat ->
  bfType fh = 0x4D42 -> biBitCount ih = 24 -> biCompression ih = 0 ->
  0 < biWidth ih -> 0 < biHeight ih ->
  (biHeight ih - 1) * biWidth ih < 2 ^ 31 ->
  load_bmp24 (Some data) (Some junk) =
  if rows_present data then Loaded fh ih (stream_pixels data)
  else Rejected [msg_row].
Proof.
  intros fh ih Hlen Hsig Hbits Hcomp HW HH Hnw.
  rewrite load_bmp24_eq.
  destruct (Nat.ltb_spec (length data) 54) as [|_]; [lia|].
  cbv zeta. fold fh ih. rewrite Hsig, Hbits, Hcomp.
  cbn [Z.eqb Pos.eqb negb orb].
  destruct (Z.leb_spec (biWidth ih) 0) as [|_]; [lia|].
  destruct (Z.leb_spec (biHeight ih) 0) as [|_]; [lia|].
  cbn [orb].
  pose proof (row_padding_range (biWidth ih)) as Hp.
  set (w := Z.to_nat (biWidth ih)). set (h := Z.to_nat (biHeight ih)).
  set (p := Z.to_nat (row_padding (biWidth ih))).
  assert (EW : biWidth ih = Z.of_nat w) by (unfold w; lia).
  assert (EH : biHeight ih = Z.of_nat h) by (unfold h; lia).
  assert (EP : row_padding (biWidth ih) = Z.of_nat p) by (unfold p; lia).
  rewrite EP, EH, EW. rewrite EH, EW in Hnw.
  rewrite <- (app_nil_r (malloc junk (w * h))).
  rewrite (load_rows_run data w h p); try lia.
  2:{ rewrite length_malloc. lia. }
  rewrite app_nil_r.
  unfold rows_present, stream_pixels, stream_stride, stream_offset.
  fold fh ih w h p.
  destruct (Nat.eqb_spec h 0) as [E|_]; [lia|]. cbn [orb].
  destruct (Z.to_nat (bfOffBits fh) + (h - 1) * (3 * w + p) + 3 * w
            <=? length data)%nat; reflexivity.
Qed.

Lemma stream_ih_width_range (data : list byte) :
  - 2 ^ 31 <= biWidth (stream_ih data) < 2 ^ 31.
Proof. apply to_int_range. Qed.

Lemma stream_ih_height_range (data : list byte) :
  - 2 ^ 31 <= biHeight (stream_ih data) < 2 ^ 31.
Proof. apply to_int_range. Qed.

Lemma load_bmp24_Loaded (data : list byte) (heap : option (nat -> Pixel24))
  (fh : BMPHeader) (ih : BMPInfoHeader) (px : list Pixel24) :
  load_bmp24 (Some data) heap = Loaded fh ih px ->
  accepted data /\ fh = stream_fh data /\ ih = stream_ih data
  /\ px = stream_pixels data.
Proof.
  intros Hload. pose proof Hload as Hcopy.
  rewrite load_bmp24_eq in Hload.
  destruct (Nat.ltb_spec (length data) 54) as [|Hlen]; [discriminate|].
  cbv zeta in Hload.
  destruct (Z.eqb_spec (bfType (stream_fh data)) 0x4D42) as [Hsig|];
    cbn [negb] in Hload; [|discriminate].
  destruct (Z.eqb_spec (biBitCount (stream_ih data)) 24) as [Hbits|];
    cbn [negb orb] in Hload; [|discriminate].
  destruct (Z.eqb_spec (biCompression (stream_ih data)) 0) as [Hcomp|];
    cbn [negb orb] in Hload; [|discriminate].
  destruct (Z.leb_spec (biWidth (stream_ih data)) 0) as [|HW];
    cbn [orb] in Hload; [discriminate|].
  destruct (Z.leb_spec (biHeight (stream_ih data)) 0) as [|HH];
    cbn [orb] in Hload; [discriminate|].
  destruct heap as [junk|]; [|discriminate].
  pose proof (stream_ih_width_range data) as HWr.
  pose proof (stream_ih_height_range data) as HHr.
  assert (Hnw : (biHeight (stream_ih data) - 1) * biWidth (stream_ih data)
                < 2 ^ 31).
  { destruct (for_up _ _ _ _) as [[f' px']|o] eqn:Hrun in Hload.
    - apply rows_do_not_wrap; [lia|lia|].
      intros d Hd.
      pose proof (load_rows_in_block _ _ _ HW _ _ _ _ _ Hrun
                    (biHeight (stream_ih data) - 1 - d) ltac:(lia)) as Hin.
      apply in_block_spec in Hin.
      replace (biHeight (stream_ih data) - 1
               - (biHeight (stream_ih data) - 1 - d)) with d in Hin by lia.
      lia.
    - exfalso. clear Hcopy.
      assert (Hno : forall n y s,
                 for_up n y
                   (load_row (biWidth (stream_ih data))
                      (biHeight (stream_ih data))
                      (row_padding (biWidth (stream_ih data)))) s
                 <> Return (Loaded fh ih px)).
      { induction n as [|n IHn]; intros y [f0 px0]; cbn [for_up];
          [discriminate|].
        unfold load_row at 1.
        destruct (negb (in_block _ _ _)); [discriminate|].
        destruct (fread 3 _ f0) as [got f1].
        destruct (negb (items 3 got =? _)%nat); [discriminate|].
        apply IHn. }
      subst o. exact (Hno _ _ _ Hrun). }
  rewrite (load_bmp24_rows data junk Hlen Hsig Hbits Hcomp HW HH Hnw)
    in Hcopy.
  destruct (rows_present data) eqn:Hrows; [|discriminate].
  injection Hcopy as <- <- <-.
  repeat split; try assumption; lia.
Qed.

Lemma load_bmp24_accepted (data : list byte) (junk : nat -> Pixel24) :
  accepted data ->
  load_bmp24 (Some data) (Some junk) =
  Loaded (stream_fh data) (stream_ih data) (stream_pixels data).
Proof.
  intros [Hlen Hsig Hbits Hcomp HW HH Hnw Hrows].
  rewrite load_bmp24_rows by (try assumption; lia).
  rewrite Hrows. reflexivity.
Qed.

(* ================================================================= *)
(** ** The row loop of save_bmp24 *)

Lemma firstn_plus {A : Type} (n m : nat) (l : list A) :
  firstn (n + m) l = firstn n l ++ firstn m (skipn n l).
Proof.
  revert l. induction n as [|n IH]; intros l; [reflexivity|].
  destruct l as [|a l]; cbn [Nat.add firstn skipn app].
  - rewrite firstn_nil. reflexivity.
  - rewrite IH. reflexivity.
Qed.

Lemma length_load_cells {A : Type} (idx count : nat) (blk : list A) :
  (idx + count <= length blk)%nat -> length (load_cells idx count blk) = count.
Proof.
  intros H. unfold load_cells. rewrite length_firstn, length_skipn. lia.
Qed.

Lemma pad_prefix (p : nat) :
  (p <= 3)%nat ->
  firstn (Z.to_nat (to_size_t (Z.of_nat p))) pad = repeat "000"%byte p.
Proof.
  intros H.
  destruct p as [|[|[|[|p]]]]; try reflexivity. lia.
Qed.

Lemma save_rows_run (px : list Pixel24) (w p : nat) :
  (0 < w)%nat -> Z.of_nat w < 2 ^ 31 -> (p <= 3)%nat ->
  forall (n : nat) (acc : list byte),
  (Z.of_nat n - 1) * Z.of_nat w < 2 ^ 31 ->
  (n * w <= length px)%nat ->
  for_down n (Z.of_nat n - 1) (save_row px (Z.of_nat w) (Z.of_nat p))
           (mkOFILE acc None) =
  Next (mkOFILE (acc ++ encoded_rows px w p n) None).
Proof.
  intros Hw Hw31 Hp. induction n as [|n IH]; intros acc Hnw Hlen.
  - cbn. rewrite app_nil_r. reflexivity.
  - cbn [for_down]. unfold save_row at 1.
    replace (Z.of_nat (S n) - 1) with (Z.of_nat n) in * by lia.
    rewrite to_int_small by nia.
    rewrite to_size_t_small by lia.
    assert (Hin : in_block (Z.of_nat n * Z.of_nat w) (Z.of_nat w) (length px)
                  = true) by (apply in_block_spec; nia).
    rewrite Hin. cbn [negb].
    unfold fwrite at 1. cbn [room written option_map].
    rewrite <- Nat2Z.inj_mul, !Nat2Z.id.
    assert (Hcells : length (load_cells (n * w) w px) = w)
      by (apply length_load_cells; lia).
    rewrite items_exact
      by (try lia; rewrite length_bytes_of_pixels, Hcells; lia).
    rewrite length_bytes_of_pixels, Hcells, Nat.eqb_refl. cbn [negb].
    assert (Hpad :
      (if Z.of_nat p =? 0
       then mkOFILE (acc ++ bytes_of_pixels (load_cells (n * w) w px)) None
       else snd (fwrite (firstn (Z.to_nat (to_size_t (Z.of_nat p))) pad)
                   (mkOFILE (acc ++ bytes_of_pixels (load_cells (n * w) w px))
                      None)))
      = mkOFILE ((acc ++ bytes_of_pixels (load_cells (n * w) w px))
                 ++ repeat "000"%byte p) None).
    { destruct (Z.eqb_spec (Z.of_nat p) 0) as [E|E].
      - replace p with 0%nat by lia. cbn [repeat]. rewrite app_nil_r.
        reflexivity.
      - unfold fwrite. cbn [room written option_map snd].
        rewrite pad_prefix by exact Hp. reflexivity. }
    rewrite Hpad.
    rewrite IH by nia.
    cbn [encoded_rows]. rewrite <- !app_assoc. reflexivity.
Qed.

Lemma save_bmp24_run (ih : BMPInfoHeader) (px : list Pixel24) :
  0 < biWidth ih < 2 ^ 31 -> 0 < biHeight ih < 2 ^ 31 ->
  (biHeight ih - 1) * biWidth ih < 2 ^ 31 ->
  biHeight ih * biWidth ih <= Z.of_nat (length px) ->
  save_bmp24 (Some None) ih px =
  Saved (bytes_of_BMPHeader (saved_fh ih)
         ++ bytes_of_BMPInfoHeader (saved_ih ih)
         ++ encoded_rows px (Z.to_nat (biWidth ih))
              (Z.to_nat (row_padding (biWidth ih)))
              (Z.to_nat (biHeight ih))).
Proof.
  intros HW HH Hnw Hlen.
  unfold save_bmp24.
  unfold fwrite at 1. cbn [fopen_wb room written option_map app].
  unfold sizeof_BMPHeader, sizeof_BMPInfoHeader.
  rewrite items_exact by (rewrite ?length_bytes_of_BMPHeader; lia).
  rewrite length_bytes_of_BMPHeader.
  cbn [Nat.eqb Nat.mul Nat.add negb].
  unfold fwrite at 1. cbn [room written option_map].
  rewrite items_exact by (rewrite ?length_bytes_of_BMPInfoHeader; lia).
  rewrite length_bytes_of_BMPInfoHeader.
  cbn [Nat.eqb Nat.mul Nat.add negb].
  rewrite (to_int_small (biHeight ih - 1)) by lia.
  pose proof (row_padding_range (biWidth ih)) as Hp.
  set (w := Z.to_nat (biWidth ih)). set (h := Z.to_nat (biHeight ih)).
  set (p := Z.to_nat (row_padding (biWidth ih))).
  assert (EW : biWidth ih = Z.of_nat w) by (unfold w; lia).
  assert (EH : biHeight ih = Z.of_nat h) by (unfold h; lia).
  assert (EP : row_padding (biWidth ih) = Z.of_nat p) by (unfold p; lia).
  rewrite EP.
  replace (Z.to_nat (biHeight ih - 1 + 1)) with h by lia.
  rewrite EH, EW. rewrite EH, EW in Hnw, Hlen.
  rewrite (save_rows_run px w p) by (try lia; nia).
  f_equal. cbn [written]. rewrite <- app_assoc.
  unfold saved_fh, saved_ih. cbn [biSizeImage biWidth biHeight].
  rewrite EP, EH, EW. reflexivity.
Qed.

(* ================================================================= *)
(** ** Where the decoded rows come from *)

Lemma length_rows_from (data : list byte) (w stride : nat) :
  forall (n pos : nat),
  (n = 0 \/ pos + (n - 1) * stride + 3 * w <= length data)%nat ->
  length (rows_from data w stride pos n) = (n * w)%nat.
Proof.
  induction n as [|n IH]; intros pos H; [reflexivity|].
  cbn [rows_from]. rewrite length_app, IH, length_row_at.
  - lia.
  - destruct H as [H|H]; [discriminate|]. nia.
  - destruct n as [|n']; [left; reflexivity|right].
    destruct H as [H|H]; [discriminate|].
    replace (S (S n') - 1)%nat with (S n') in H by lia.
    replace (S n' - 1)%nat with n' by lia. nia.
Qed.

Lemma nth_error_row_at (data : list byte) (w pos c : nat) :
  (c < w)%nat -> (pos + 3 * w <= length data)%nat ->
  exists q, stored_pixel data (pos + 3 * c) = Some q
            /\ nth_error (row_at data w pos) c = Some q.
Proof.
  intros Hc Hlen.
  assert (Hget : forall i, (i < 3 * w)%nat ->
            nth_error (firstn (3 * w) (skipn pos data)) i
            = nth_error data (pos + i)).
  { intros i Hi. rewrite nth_error_firstn.
    destruct (Nat.ltb_spec i (3 * w)); [|lia].
    apply nth_error_skipn. }
  destruct (nth_error data (pos + 3 * c)) as [x|] eqn:Ex.
  2:{ apply nth_error_None in Ex. lia. }
  destruct (nth_error data (pos + 3 * c + 1)) as [y|] eqn:Ey.
  2:{ apply nth_error_None in Ey. lia. }
  destruct (nth_error data (pos + 3 * c + 2)) as [z|] eqn:Ez.
  2:{ apply nth_error_None in Ez. lia. }
  exists (Px.mk x y z). split.
  - unfold stored_pixel. rewrite Ex, Ey, Ez. reflexivity.
  - unfold row_at. apply nth_error_pixels_of_bytes.
    + rewrite Hget by lia. exact Ex.
    + rewrite Hget by lia. rewrite Nat.add_assoc. exact Ey.
    + rewrite Hget by lia. rewrite Nat.add_assoc. exact Ez.
Qed.

Lemma nth_error_rows_from (data : list byte) (w stride : nat) :
  forall (n pos r c : nat),
  (r < n)%nat -> (c < w)%nat ->
  (pos + (n - 1) * stride + 3 * w <= length data)%nat ->
  nth_error (rows_from data w stride pos n) ((n - 1 - r) * w + c)
  = nth_error (row_at data w (pos + r * stride)) c.
Proof.
  induction n as [|n IH]; intros pos r c Hr Hc Hlen; [lia|].
  cbn [rows_from].
  assert (Hl : length (rows_from data w stride (pos + stride) n)
               = (n * w)%nat).
  { apply length_rows_from. destruct n as [|n']; [left; reflexivity|right].
    replace (S (S n') - 1)%nat with (S n') in Hlen by lia.
    replace (S n' - 1)%nat with n' by lia. nia. }
  destruct r as [|r'].
  - rewrite nth_error_app2 by (rewrite Hl; nia).
    rewrite Hl. replace (S n - 1 - 0)%nat with n by lia.
    replace (n * w + c - n * w)%nat with c by lia.
    rewrite Nat.add_0_r. reflexivity.
  - rewrite nth_error_app1 by (rewrite Hl; nia).
    replace (S n - 1 - S r')%nat with (n - 1 - r')%nat by lia.
    rewrite IH; try lia.
    + f_equal. f_equal. lia.
    + replace (S n - 1)%nat with n in Hlen by lia.
      destruct n as [|n']; [lia|].
      replace (S n' - 1)%nat with n' by lia. nia.
Qed.

(* ================================================================= *)
(** ** Decoding what save_bmp24 wrote *)

Lemma length_encoded_rows (px : list Pixel24) (w p : nat) :
  forall k, (k * w <= length px)%nat ->
  length (encoded_rows px w p k) = (k * (3 * w + p))%nat.
Proof.
  induction k as [|k IH]; intros H; [reflexivity|].
  cbn [encoded_rows].
  rewrite !length_app, length_bytes_of_pixels, length_load_cells,
    repeat_length, IH by lia.
  lia.
Qed.

Lemma skipn_encoded_rows (px : list Pixel24) (w p m : nat) :
  forall i, ((m + i) * w <= length px)%nat ->
  skipn (i * (3 * w + p)) (encoded_rows px w p (m + i))
  = encoded_rows px w p m.
Proof.
  induction i as [|i IH]; intros H.
  - rewrite Nat.add_0_r. reflexivity.
  - replace (m + S i)%nat with (S (m + i)) by lia.
    cbn [encoded_rows]. rewrite app_assoc, skipn_app.
    rewrite skipn_all2
      by (rewrite length_app, length_bytes_of_pixels, length_load_cells,
            repeat_length by lia; lia).
    rewrite length_app, length_bytes_of_pixels, length_load_cells,
      repeat_length by lia.
    replace (S i * (3 * w + p) - (3 * w + p))%nat with (i * (3 * w + p))%nat
      by lia.
    cbn [app]. apply IH. lia.
Qed.

Lemma row_at_encoded (px : list Pixel24) (w p h j : nat) (pre : list byte) :
  (S j <= h)%nat -> (h * w <= length px)%nat ->
  row_at (pre ++ encoded_rows px w p h) w
         (length pre + (h - S j) * (3 * w + p))
  = load_cells (j * w) w px.
Proof.
  intros Hj Hlen. unfold row_at.
  rewrite skipn_app, skipn_all2 by apply Nat.le_add_r.
  rewrite Nat.add_comm, Nat.add_sub.
  cbn [app].
  assert (E : encoded_rows px w p h
              = encoded_rows px w p (S j + (h - S j))) by (f_equal; lia).
  rewrite E, skipn_encoded_rows
    by (replace (S j + (h - S j))%nat with h by lia; exact Hlen).
  cbn [encoded_rows].
  assert (Hc : length (load_cells (j * w) w px) = w)
    by (apply length_load_cells; nia).
  rewrite firstn_app, length_bytes_of_pixels, Hc.
  replace (3 * w - 3 * w)%nat with 0%nat by lia.
  rewrite firstn_all2 by (rewrite length_bytes_of_pixels; lia).
  cbn [firstn]. rewrite app_nil_r. apply pixels_of_bytes_of.
Qed.

Lemma rows_from_encoded (px : list Pixel24) (w p h : nat) (pre : list byte) :
  (h * w <= length px)%nat ->
  forall j, (j <= h)%nat ->
  rows_from (pre ++ encoded_rows px w p h) w (3 * w + p)
            (length pre + (h - j) * (3 * w + p)) j
  = firstn (j * w) px.
Proof.
  intros Hlen. induction j as [|j IH]; intros Hj; [reflexivity|].
  cbn [rows_from].
  replace (length pre + (h - S j) * (3 * w + p) + (3 * w + p))%nat
    with (length pre + (h - j) * (3 * w + p))%nat by nia.
  rewrite IH by lia.
  rewrite row_at_encoded by assumption.
  replace (S j * w)%nat with (j * w + w)%nat by lia.
  rewrite firstn_plus. reflexivity.
Qed.

Lemma stream_fh_saved (ih : BMPInfoHeader) (px : list Pixel24) :
  stream_fh (saved_stream ih px) =
  BMPHeader_of_bytes (bytes_of_BMPHeader (saved_fh ih)).
Proof.
  unfold stream_fh, saved_stream.
  rewrite firstn_app, length_bytes_of_BMPHeader.
  rewrite firstn_all2 by (rewrite length_bytes_of_BMPHeader; lia).
  cbn [Nat.sub firstn]. rewrite app_nil_r. reflexivity.
Qed.

Lemma stream_ih_saved (ih : BMPInfoHeader) (px : list Pixel24) :
  stream_ih (saved_stream ih px) =
  BMPInfoHeader_of_bytes (bytes_of_BMPInfoHeader (saved_ih ih)).
Proof.
  unfold stream_ih, saved_stream.
  rewrite skipn_app, length_bytes_of_BMPHeader.
  rewrite skipn_all2 by (rewrite length_bytes_of_BMPHeader; lia).
  cbn [Nat.sub skipn app].
  rewrite firstn_app, length_bytes_of_BMPInfoHeader.
  rewrite firstn_all2 by (rewrite length_bytes_of_BMPInfoHeader; lia).
  cbn [Nat.sub firstn]. rewrite app_nil_r. reflexivity.
Qed.

Lemma to_int_mod32 (z : Z) : to_int (z mod 2 ^ 32) = to_int z.
Proof. exact (to_int_to_uint32 z). Qed.

Lemma saved_stream_decodes (ih : BMPInfoHeader) (px : list Pixel24) :
  0 < biWidth ih < 2 ^ 31 -> 0 < biHeight ih < 2 ^ 31 ->
  (biHeight ih - 1) * biWidth ih < 2 ^ 31 ->
  Z.of_nat (length px) = biHeight ih * biWidth ih ->
  accepted (saved_stream ih px) /\ stream_pixels (saved_stream ih px) = px.
Proof.
  intros HW HH Hnw Hlen.
  pose proof (stream_fh_saved ih px) as Hfh.
  pose proof (stream_ih_saved ih px) as Hih.
  rewrite BMPHeader_of_bytes_of in Hfh.
  rewrite BMPInfoHeader_of_bytes_of in Hih.
  pose proof (row_padding_range (biWidth ih)) as Hp.
  set (w := Z.to_nat (biWidth ih)). set (h := Z.to_nat (biHeight ih)).
  set (p := Z.to_nat (row_padding (biWidth ih))).
  assert (Hpx : (h * w <= length px)%nat) by (unfold h, w; nia).
  assert (EW : biWidth (stream_ih (saved_stream ih px)) = biWidth ih).
  { rewrite Hih. cbn [biWidth saved_ih].
    rewrite to_int_mod32. apply to_int_small. lia. }
  assert (EH : biHeight (stream_ih (saved_stream ih px)) = biHeight ih).
  { rewrite Hih. cbn [biHeight saved_ih].
    rewrite to_int_mod32. apply to_int_small. lia. }
  assert (Eoff : stream_offset (saved_stream ih px) = 54%nat).
  { unfold stream_offset. rewrite Hfh. reflexivity. }
  assert (Estride : stream_stride (saved_stream ih px) = (3 * w + p)%nat).
  { unfold stream_stride. rewrite EW. reflexivity. }
  assert (Elen : length (saved_stream ih px)
                 = (54 + h * (3 * w + p))%nat).
  { unfold saved_stream. fold w h p.
    rewrite !length_app, length_bytes_of_BMPHeader,
      length_bytes_of_BMPInfoHeader, length_encoded_rows by exact Hpx.
    lia. }
  split.
  - constructor.
    + rewrite Elen. lia.
    + rewrite Hfh. reflexivity.
    + rewrite Hih. reflexivity.
    + rewrite Hih. reflexivity.
    + rewrite EW. exact HW.
    + rewrite EH. exact HH.
    + rewrite EW, EH. exact Hnw.
    + unfold rows_present. rewrite Eoff, Estride, EW, EH, Elen.
      fold w h. apply Nat.leb_le.
      assert (1 <= h)%nat by (unfold h; lia). nia.
  - unfold stream_pixels. rewrite Eoff, Estride, EW, EH. fold w h.
    unfold saved_stream. fold w h p. rewrite app_assoc.
    pose proof (rows_from_encoded px w p h
                  (bytes_of_BMPHeader (saved_fh ih)
                   ++ bytes_of_BMPInfoHeader (saved_ih ih)) Hpx h
                  (Nat.le_refl h)) as Hrows.
    rewrite Nat.sub_diag, Nat.mul_0_l, Nat.add_0_r in Hrows.
    rewrite length_app, length_bytes_of_BMPHeader,
      length_bytes_of_BMPInfoHeader in Hrows.
    cbn [Nat.add] in Hrows. rewrite Hrows.
    apply firstn_all2. unfold h, w. nia.
Qed.

Lemma length_stream_pixels (data : list byte) :
  accepted data ->
  Z.of_nat (length (stream_pixels data))
  = biHeight (stream_ih data) * biWidth (stream_ih data).
Proof.
  intros [Hlen Hsig Hbits Hcomp HW HH Hnw Hrows].
  unfold stream_pixels. rewrite length_rows_from.
  - lia.
  - right. apply Nat.leb_le. exact Hrows.
Qed.

(** C1.  Round trip: whenever [load_bmp24] accepts a stream, writing the
    decoded pixels back with the decoded info header succeeds on a device
    that takes every byte, and loading the written file gives exactly the
    same pixels. *)
Theorem load_save_load (data : list byte) (heap : option (nat -> Pixel24))
  (fh : BMPHeader) (ih : BMPInfoHeader) (px : list Pixel24)
  (junk : nat -> Pixel24) :
  load_bmp24 (Some data) heap = Loaded fh ih px ->
  exists out fh' ih',
    save_bmp24 (Some None) ih px = Saved out
    /\ load_bmp24 (Some out) (Some junk) = Loaded fh' ih' px.
Proof.
  intros Hload.
  apply load_bmp24_Loaded in Hload.
  destruct Hload as (Hacc & -> & -> & ->).
  pose proof (length_stream_pixels data Hacc) as Hlen.
  destruct Hacc as [_ _ _ _ HW HH Hnw _].
  destruct (saved_stream_decodes (stream_ih data) (stream_pixels data)
              HW HH Hnw Hlen) as [Hacc' Hpx'].
  exists (saved_stream (stream_ih data) (stream_pixels data)),
    (stream_fh (saved_stream (stream_ih data) (stream_pixels data))),
    (stream_ih (saved_stream (stream_ih data) (stream_pixels data))).
  split.
  - apply save_bmp24_run; try assumption. lia.
  - rewrite (load_bmp24_accepted _ junk Hacc'), Hpx'. reflexivity.
Qed.

Lemma load_save_load_witness :
  load_bmp24 (Some stream_2x2) (Some no_junk)
  = Loaded (stream_fh stream_2x2) (stream_ih stream_2x2)
      [blue; blue; red; red]
  /\ exists out fh' ih',
       save_bmp24 (Some None) (stream_ih stream_2x2) [blue; blue; red; red]
       = Saved out
       /\ load_bmp24 (Some out) (Some no_junk)
          = Loaded fh' ih' [blue; blue; red; red].
Proof.
  split; [vm_compute; reflexivity|].
  apply (load_save_load stream_2x2 (Some no_junk) (stream_fh stream_2x2)).
  vm_compute. reflexivity.
Defined.

(** The file written back need not be the file read: the padding bytes of
    [stream_2x2] are not zero, those of its re-encoding are. *)
Example resaved_bytes_differ :
  save_bmp24 (Some None) (stream_ih stream_2x2) [blue; blue; red; red]
  <> Saved stream_2x2.
Proof. vm_compute. discriminate. Qed.

Lemma decoded_pixel (data : list byte) (r c : nat) :
  accepted data ->
  let w := Z.to_nat (biWidth (stream_ih data)) in
  let h := Z.to_nat (biHeight (stream_ih data)) in
  (r < h)%nat -> (c < w)%nat ->
  exists q,
    stored_pixel data
      (stream_offset data + r * stream_stride data + 3 * c) = Some q
    /\ nth_error (stream_pixels data) ((h - 1 - r) * w + c) = Some q.
Proof.
  intros Hacc w h Hr Hc.
  pose proof (acc_rows data Hacc) as Hrows.
  unfold rows_present in Hrows. fold w h in Hrows.
  apply Nat.leb_le in Hrows.
  unfold stream_pixels. fold w h.
  rewrite nth_error_rows_from by assumption.
  apply nth_error_row_at; [exact Hc|]. nia.
Qed.

(** C2.  Orientation: in an accepted stream of height [h], the pixel at
    column [c] of the [r]-th stored row lands at column [c] of buffer row
    [h-1-r]; hence if the first stored row is all red and the last one all
    blue, buffer row 0 is all blue and buffer row [h-1] all red. *)
Theorem load_bmp24_flips_rows (data : list byte)
  (heap : option (nat -> Pixel24))
  (fh : BMPHeader) (ih : BMPInfoHeader) (px : list Pixel24) :
  load_bmp24 (Some data) heap = Loaded fh ih px ->
  let w := Z.to_nat (biWidth ih) in
  let h := Z.to_nat (biHeight ih) in
  let off := Z.to_nat (bfOffBits fh) in
  let stride := (3 * w + Z.to_nat (row_padding (biWidth ih)))%nat in
  length px = (h * w)%nat
  /\ (forall r c, (r < h)%nat -> (c < w)%nat ->
        exists q, stored_pixel data (off + r * stride + 3 * c) = Some q
                  /\ nth_error px ((h - 1 - r) * w + c) = Some q)
  /\ ((forall c, (c < w)%nat ->
         stored_pixel data (off + 0 * stride + 3 * c) = Some red) ->
      (forall c, (c < w)%nat ->
         stored_pixel data (off + (h - 1) * stride + 3 * c) = Some blue) ->
      forall c, (c < w)%nat ->
        nth_error px (0 * w + c) = Some blue
        /\ nth_error px ((h - 1) * w + c) = Some red).
Proof.
  intros Hload.
  apply load_bmp24_Loaded in Hload.
  destruct Hload as (Hacc & -> & -> & ->).
  intros w h off stride.
  assert (Hcell : forall r c, (r < h)%nat -> (c < w)%nat ->
            exists q, stored_pixel data (off + r * stride + 3 * c) = Some q
                      /\ nth_error (stream_pixels data)
                           ((h - 1 - r) * w + c) = Some q).
  { intros r c Hr Hc. exact (decoded_pixel data r c Hacc Hr Hc). }
  pose proof (acc_height data Hacc) as HH.
  assert (Hh : (1 <= h)%nat) by (unfold h; lia).
  split; [|split].
  - pose proof (length_stream_pixels data Hacc) as Hlen.
    pose proof (acc_width data Hacc) as HW.
    unfold h, w. nia.
  - exact Hcell.
  - intros Hred Hblue c Hc. split.
    + destruct (Hcell (h - 1)%nat c ltac:(lia) Hc) as (q & Hq & Hn).
      rewrite Hblue in Hq by exact Hc. injection Hq as <-.
      replace (h - 1 - (h - 1))%nat with 0%nat in Hn by lia. exact Hn.
    + destruct (Hcell 0%nat c ltac:(lia) Hc) as (q & Hq & Hn).
      rewrite Hred in Hq by exact Hc. injection Hq as <-.
      replace (h - 1 - 0)%nat with (h - 1)%nat in Hn by lia. exact Hn.
Qed.

Lemma load_bmp24_flips_rows_witness :
  load_bmp24 (Some stream_2x2) (Some no_junk)
  = Loaded (stream_fh stream_2x2) (stream_ih stream_2x2)
      [blue; blue; red; red]
  /\ length [blue; blue; red; red] = (2 * 2)%nat
  /\ nth_error [blue; blue; red; red] (0 * 2 + 1) = Some blue
  /\ nth_error [blue; blue; red; red] ((2 - 1) * 2 + 1) = Some red.
Proof.
  assert (Hload : load_bmp24 (Some stream_2x2) (Some no_junk)
                  = Loaded (stream_fh stream_2x2) (stream_ih stream_2x2)
                      [blue; blue; red; red])
    by (vm_compute; reflexivity).
  split; [exact Hload|].
  destruct (load_bmp24_flips_rows _ _ _ _ _ Hload) as (Hl & _ & Hrb).
  split; [exact Hl|].
  apply (Hrb); try (intros c Hc; change (c < 2)%nat in Hc;
                    destruct c as [|[|c]];
                    [vm_compute; reflexivity|vm_compute; reflexivity|lia]).
  change (1 < 2)%nat. lia.
Defined.

Lemma load_bmp24_short (data : list byte) (heap : option (nat -> Pixel24)) :
  (length data < 54)%nat -> load_bmp24 (Some data) heap = Rejected [].
Proof.
  intros H. rewrite load_bmp24_eq.
  destruct (Nat.ltb_spec (length data) 54); [reflexivity|lia].
Qed.

(** C6 (amended).  [load_bmp24] returns the same value 0 for every rejected
    stream.  What tells the failures apart is only the text on [stderr]:
    nothing for a stream shorter than the 54 header bytes; the signature
    message for a complete header with a wrong signature; the format message
    when the signature is right and the bit count is not 24 (or the
    compression not 0); the dimensions message when those are right and the
    width or the height is not positive. *)
Theorem load_bmp24_rejections (data : list byte)
  (heap : option (nat -> Pixel24)) :
  let fh := stream_fh data in
  let ih := stream_ih data in
  let o := load_bmp24 (Some data) heap in
  ((length data < 54)%nat -> o = Rejected [] /\ load_return o = Some 0)
  /\ ((54 <= length data)%nat -> bfType fh <> 0x4D42 ->
      o = Rejected [msg_signature] /\ load_return o = Some 0)
  /\ ((54 <= length data)%nat -> bfType fh = 0x4D42 ->
      biBitCount ih <> 24 \/ biCompression ih <> 0 ->
      o = Rejected [msg_format] /\ load_return o = Some 0)
  /\ ((54 <= length data)%nat -> bfType fh = 0x4D42 ->
      biBitCount ih = 24 -> biCompression ih = 0 ->
      biWidth ih <= 0 \/ biHeight ih <= 0 ->
      o = Rejected [msg_dimensions] /\ load_return o = Some 0).
Proof.
  intros fh ih o. unfold o. rewrite load_bmp24_eq. fold fh ih.
  destruct (Nat.ltb_spec (length data) 54) as [Hs|Hl].
  - repeat split; intros; try lia; reflexivity.
  - cbv zeta. fold fh ih. split; [intros; lia|].
    destruct (Z.eqb_spec (bfType fh) 0x4D42) as [Hsig|Hsig]; cbn [negb].
    2:{ repeat split; intros; try contradiction; reflexivity. }
    split; [intros; contradiction|].
    destruct (Z.eqb_spec (biBitCount ih) 24) as [Hb|Hb]; cbn [negb orb].
    2:{ repeat split; intros; try contradiction; reflexivity. }
    destruct (Z.eqb_spec (biCompression ih) 0) as [Hc|Hc]; cbn [negb orb].
    2:{ repeat split; intros; try contradiction; reflexivity. }
    split; [intros _ _ [H|H]; contradiction|].
    intros _ _ _ _ Hdim.
    assert (E : (biWidth ih <=? 0) || (biHeight ih <=? 0) = true).
    { apply orb_true_iff. rewrite !Z.leb_le. exact Hdim. }
    rewrite E. split; reflexivity.
Qed.

Lemma load_bmp24_rejections_witness :
  load_bmp24 (Some stream_truncated) (Some no_junk) = Rejected []
  /\ load_bmp24 (Some stream_bad_signature) (Some no_junk)
     = Rejected [msg_signature]
  /\ load_bmp24 (Some stream_8bpp) (Some no_junk) = Rejected [msg_format]
  /\ load_bmp24 (Some stream_negative_width) (Some no_junk)
     = Rejected [msg_dimensions].
Proof.
  split; [|split; [|split]].
  - apply (proj1 (load_bmp24_rejections stream_truncated (Some no_junk))).
    vm_compute. lia.
  - apply (proj1 (proj2 (load_bmp24_rejections stream_bad_signature
                           (Some no_junk)))).
    + vm_compute. lia.
    + vm_compute. discriminate.
  - apply (proj1 (proj2 (proj2 (load_bmp24_rejections stream_8bpp
                                  (Some no_junk))))).
    + vm_compute. lia.
    + vm_compute. reflexivity.
    + left. vm_compute. discriminate.
  - apply (proj2 (proj2 (proj2 (load_bmp24_rejections stream_negative_width
                                  (Some no_junk))))).
    + vm_compute. lia.
    + vm_compute. reflexivity.
    + vm_compute. reflexivity.
    + vm_compute. reflexivity.
    + left. vm_compute. discriminate.
Defined.

(** C6, as stated, fails: the caller of [load_bmp24] gets the same value for
    a wrong signature and for a truncated header, so no tag can be read off
    it. *)
Lemma load_bmp24_errors_not_tagged :
  ~ exists classify : option Z -> error_tag,
      classify (load_return
                  (load_bmp24 (Some stream_bad_signature) (Some no_junk)))
      = InvalidSignature
      /\ classify (load_return
                     (load_bmp24 (Some stream_truncated) (Some no_junk)))
         = TruncatedHeader.
Proof.
  intros (classify & Hsig & Htrunc).
  assert (E : load_return
                (load_bmp24 (Some stream_bad_signature) (Some no_junk))
              = load_return
                  (load_bmp24 (Some stream_truncated) (Some no_junk)))
    by (vm_compute; reflexivity).
  rewrite E, Htrunc in Hsig. discriminate.
Qed.





(* ================================================================= *)
(** ** The header-size field *)

Lemma info_header_size_prefix (a a' rest : list byte) :
  length a = 4%nat -> length a' = 4%nat ->
  BMPInfoHeader_of_bytes (a' ++ rest)
  = set_biSize (le_value a') (BMPInfoHeader_of_bytes (a ++ rest)).
Proof.
  intros Ha Ha'.
  destruct a as [|a0 [|a1 [|a2 [|a3 [|]]]]]; try discriminate.
  destruct a' as [|b0 [|b1 [|b2 [|b3 [|]]]]]; try discriminate.
  reflexivity.
Qed.

Lemma length_with_size_field (bs data : list byte) :
  length bs = 4%nat -> (18 <= length data)%nat ->
  length (with_size_field bs data) = length data.
Proof.
  intros Hb Hd. unfold with_size_field.
  rewrite !length_app, length_firstn, length_skipn. lia.
Qed.

Lemma stream_fh_with_size_field (bs data : list byte) :
  (14 <= length data)%nat ->
  stream_fh (with_size_field bs data) = stream_fh data.
Proof.
  intros Hd. unfold stream_fh, with_size_field.
  rewrite firstn_app, length_firstn.
  replace (14 - Nat.min 14 (length data))%nat with 0%nat by lia.
  rewrite firstn_firstn. cbn [Nat.min firstn]. rewrite app_nil_r.
  reflexivity.
Qed.

Lemma stream_ih_with_size_field (bs data : list byte) :
  length bs = 4%nat -> (18 <= length data)%nat ->
  stream_ih (with_size_field bs data)
  = set_biSize (le_value bs) (stream_ih data).
Proof.
  intros Hb Hd. unfold stream_ih, with_size_field.
  rewrite skipn_app, length_firstn.
  replace (14 - Nat.min 14 (length data))%nat with 0%nat by lia.
  rewrite skipn_all2 by (rewrite length_firstn; lia).
  rewrite skipn_0, app_nil_l.
  rewrite firstn_app, Hb, (firstn_all2 bs) by lia.
  replace (40 - 4)%nat with 36%nat by reflexivity.
  assert (E : firstn 40 (skipn 14 data)
              = firstn 4 (skipn 14 data) ++ firstn 36 (skipn 18 data)).
  { change 40%nat with (4 + 36)%nat. rewrite firstn_plus, skipn_skipn.
    reflexivity. }
  rewrite E.
  apply info_header_size_prefix; [|exact Hb].
  rewrite length_firstn, length_skipn. lia.
Qed.

Lemma skipn_with_size_field (bs data : list byte) (pos : nat) :
  length bs = 4%nat -> (18 <= length data)%nat -> (18 <= pos)%nat ->
  skipn pos (with_size_field bs data) = skipn pos data.
Proof.
  intros Hb Hd Hpos. unfold with_size_field.
  rewrite skipn_app, length_firstn.
  rewrite skipn_all2 by (rewrite length_firstn; lia).
  replace (pos - Nat.min 14 (length data))%nat with (pos - 14)%nat by lia.
  rewrite skipn_app, Hb, skipn_all2 by lia.
  cbn [app]. rewrite skipn_skipn. f_equal. lia.
Qed.

Lemma rows_from_with_size_field (bs data : list byte) (w stride : nat) :
  length bs = 4%nat -> (18 <= length data)%nat ->
  forall n pos, (18 <= pos)%nat ->
  rows_from (with_size_field bs data) w stride pos n
  = rows_from data w stride pos n.
Proof.
  intros Hb Hd. induction n as [|n IH]; intros pos Hpos; [reflexivity|].
  cbn [rows_from]. rewrite IH by lia. unfold row_at.
  rewrite skipn_with_size_field by assumption. reflexivity.
Qed.

Lemma accepted_with_size_field (bs data : list byte) :
  length bs = 4%nat -> accepted data -> accepted (with_size_field bs data).
Proof.
  intros Hb [Hlen Hsig Hbits Hcomp HW HH Hnw Hrows].
  assert (Hfh := stream_fh_with_size_field bs data ltac:(lia)).
  assert (Hih := stream_ih_with_size_field bs data Hb ltac:(lia)).
  assert (Hl := length_with_size_field bs data Hb ltac:(lia)).
  constructor; rewrite ?Hfh, ?Hih, ?Hl; cbn [set_biSize biBitCount
    biCompression biWidth biHeight]; try assumption.
  unfold rows_present, stream_offset, stream_stride in *.
  rewrite Hfh, Hih, Hl. exact Hrows.
Qed.

(** C9 (amended).  [load_bmp24] never looks at the header-size field: a
    stream it accepts is still accepted after bytes 14 to 17 are replaced by
    any four bytes; the value of the field comes back in the info header,
    and the pixels are the same whenever the pixel data starts after the
    field. *)
Theorem load_bmp24_ignores_biSize (data bs : list byte)
  (junk : nat -> Pixel24)
  (fh : BMPHeader) (ih : BMPInfoHeader) (px : list Pixel24) :
  length bs = 4%nat ->
  load_bmp24 (Some data) (Some junk) = Loaded fh ih px ->
  exists px',
    load_bmp24 (Some (with_size_field bs data)) (Some junk)
    = Loaded fh (set_biSize (le_value bs) ih) px'
    /\ (18 <= bfOffBits fh -> px' = px).
Proof.
  intros Hb Hload.
  apply load_bmp24_Loaded in Hload.
  destruct Hload as (Hacc & -> & -> & ->).
  pose proof (acc_length data Hacc) as Hlen.
  exists (stream_pixels (with_size_field bs data)). split.
  - rewrite (load_bmp24_accepted _ junk (accepted_with_size_field _ _ Hb Hacc)).
    rewrite stream_fh_with_size_field, stream_ih_with_size_field by lia.
    reflexivity.
  - intros Hoff. unfold stream_pixels, stream_stride, stream_offset.
    rewrite stream_fh_with_size_field, stream_ih_with_size_field by lia.
    cbn [set_biSize biWidth biHeight].
    apply rows_from_with_size_field; lia.
Qed.

Lemma load_bmp24_ignores_biSize_witness :
  length (le_bytes 4 124) = 4%nat
  /\ exists px',
       load_bmp24 (Some (with_size_field (le_bytes 4 124) stream_2x2))
         (Some no_junk)
       = Loaded (stream_fh stream_2x2)
           (set_biSize (le_value (le_bytes 4 124)) (stream_ih stream_2x2)) px'
       /\ (18 <= bfOffBits (stream_fh stream_2x2)
           -> px' = [blue; blue; red; red]).
Proof.
  split; [reflexivity|].
  apply (load_bmp24_ignores_biSize stream_2x2 (le_bytes 4 124) no_junk).
  - reflexivity.
  - vm_compute. reflexivity.
Defined.

(** C9, as stated, fails: a stream whose header-size field is 124 is
    accepted. *)
Lemma load_bmp24_accepts_size_124 :
  biSize (stream_ih stream_size_124) = 124
  /\ load_bmp24 (Some stream_size_124) (Some no_junk)
     = Loaded (stream_fh stream_size_124) (stream_ih stream_size_124)
         [blue; blue; red; red].
Proof. split; vm_compute; reflexivity. Qed.

(* ================================================================= *)
(** ** Cells *)

Lemma get_app {A R : Type} (undef : R) (done : list A) (p : A)
  (rest : list A) :
  get undef (done ++ p :: rest) (Z.of_nat (length done)) = Next p.
Proof.
  unfold get.
  assert (Hin : in_block (Z.of_nat (length done)) 1
                  (length (done ++ p :: rest)) = true).
  { apply in_block_spec. rewrite length_app. cbn [length]. lia. }
  rewrite Hin, Nat2Z.id, nth_error_app2, Nat.sub_diag by lia.
  reflexivity.
Qed.

Lemma set_app {A R : Type} (undef : R) (done : list A) (p v : A)
  (rest : list A) :
  set undef (done ++ p :: rest) (Z.of_nat (length done)) v
  = Next (done ++ v :: rest).
Proof.
  unfold set.
  assert (Hin : in_block (Z.of_nat (length done)) 1
                  (length (done ++ p :: rest)) = true).
  { apply in_block_spec. rewrite length_app. cbn [length]. lia. }
  rewrite Hin, Nat2Z.id. unfold store_cells.
  rewrite firstn_app, Nat.sub_diag, firstn_all, skipn_app.
  rewrite skipn_all2 by (cbn [length]; lia).
  cbn [length]. replace (length done + 1 - length done)%nat with 1%nat by lia.
  cbn [firstn skipn app]. rewrite app_nil_r. reflexivity.
Qed.

Lemma get_outside {A R : Type} (undef : R) (blk : list A) (i : Z) :
  Z.of_nat (length blk) <= i -> get undef blk i = Return undef.
Proof.
  intros H. unfold get.
  assert (Hin : in_block i 1 (length blk) = false).
  { unfold in_block. apply andb_false_iff. right. apply Z.leb_gt. lia. }
  rewrite Hin. reflexivity.
Qed.

(* ================================================================= *)
(** ** to_grayscale *)

Lemma to_grayscale_loop :
  forall (n : nat) (done todo : list Pixel24),
  for_up n (Z.of_nat (length done)) to_grayscale_body (done ++ todo) =
  if (n <=? length todo)%nat
  then Next (done ++ map gray_of (firstn n todo) ++ skipn n todo)
  else Return tt.
Proof.
  induction n as [|n IH]; intros done todo; [reflexivity|].
  cbn [for_up]. unfold to_grayscale_body at 1.
  destruct todo as [|p rest].
  - rewrite get_outside by (rewrite app_nil_r; lia). reflexivity.
  - rewrite get_app. cbn [bind]. rewrite set_app.
    replace (Z.of_nat (length done) + 1)
      with (Z.of_nat (length (done ++ [gray_of p])))
      by (rewrite length_app; cbn [length]; lia).
    change (done ++ gray_pixel _ :: rest)
      with (done ++ [gray_of p] ++ rest).
    rewrite app_assoc, IH.
    cbn [length firstn skipn map]. change (S n <=? S (length rest))%nat
      with (n <=? length rest)%nat.
    destruct (n <=? length rest)%nat; [|reflexivity].
    rewrite <- app_assoc. reflexivity.
Qed.

Lemma to_grayscale_eq (pixels : list Pixel24) (width height : Z) :
  to_grayscale pixels width height =
  let n := Z.to_nat (to_int (width * height)) in
  if (n <=? length pixels)%nat
  then Some (map gray_of (firstn n pixels) ++ skipn n pixels)
  else None.
Proof.
  unfold to_grayscale.
  pose proof (to_grayscale_loop (Z.to_nat (to_int (width * height))) []
                pixels) as H.
  cbn [length app Z.of_nat] in H. rewrite H. cbv zeta.
  destruct (_ <=? _)%nat; reflexivity.
Qed.

(** The constants of line 215 and of line 263, bit for bit:
    0x1.322d0e5604189p-2, 0x1.2c8b439581062p-1, 0x1.d2f1a9fbe76c9p-4 in
    binary64, and 0.5 in both formats. *)
Example literals :
  B64.literal 299 1000 = S754_finite false 0x1322d0e5604189 (-54)
  /\ B64.literal 587 1000 = S754_finite false 0x12c8b439581062 (-53)
  /\ B64.literal 114 1000 = S754_finite false 0x1d2f1a9fbe76c9 (-56)
  /\ B64.literal 5 10 = S754_finite false (2 ^ 52) (-53)
  /\ F32.half = S754_finite false (2 ^ 23) (-24).
Proof. repeat split; vm_compute; reflexivity. Qed.

Lemma luma_gray (v : byte) : clamp_int_to_u8 (luma (u8 v) (u8 v) (u8 v)) = v.
Proof. destruct v; vm_compute; reflexivity. Qed.

Lemma gray_of_gray_pixel (v : byte) : gray_of (gray_pixel v) = gray_pixel v.
Proof.
  unfold gray_of. cbn [gray_pixel Px.r Px.g Px.b].
  rewrite luma_gray. reflexivity.
Qed.

Lemma gray_of_idempotent (p : Pixel24) : gray_of (gray_of p) = gray_of p.
Proof. unfold gray_of at 2 3. apply gray_of_gray_pixel. Qed.

(** C8.  A gray pixel is a fixed point of the transform, and running
    [to_grayscale] on its own result changes nothing; the first run returns
    whenever the block holds the [width * height] pixels it walks over. *)
Theorem to_grayscale_idempotent :
  (forall v : byte, gray_of (gray_pixel v) = gray_pixel v)
  /\ (forall pixels width height,
        to_int (width * height) <= Z.of_nat (length pixels) ->
        exists once,
          to_grayscale pixels width height = Some once
          /\ to_grayscale once width height = Some once).
Proof.
  split; [exact gray_of_gray_pixel|].
  intros pixels width height Hn.
  rewrite !to_grayscale_eq. cbv zeta.
  set (n := Z.to_nat (to_int (width * height))).
  assert (Hle : (n <= length pixels)%nat) by (unfold n; lia).
  destruct (Nat.leb_spec n (length pixels)) as [_|]; [|lia].
  eexists. split; [reflexivity|].
  rewrite to_grayscale_eq. cbv zeta. fold n.
  assert (Hl : length (map gray_of (firstn n pixels)) = n)
    by (rewrite length_map, length_firstn; lia).
  rewrite length_app, Hl, length_skipn.
  destruct (Nat.leb_spec n (n + (length pixels - n))) as [_|]; [|lia].
  rewrite firstn_app, skipn_app, Hl, Nat.sub_diag.
  rewrite firstn_all2 by lia. rewrite (skipn_all2 (map _ _)) by lia.
  cbn [firstn skipn app]. rewrite app_nil_r.
  rewrite map_map.
  f_equal. f_equal. apply map_ext. intros p. apply gray_of_idempotent.
Qed.

Lemma to_grayscale_idempotent_witness :
  to_int (2 * 1) <= Z.of_nat (length [red; blue])
  /\ exists once,
       to_grayscale [red; blue] 2 1 = Some once
       /\ to_grayscale once 2 1 = Some once.
Proof.
  split; [vm_compute; congruence|].
  apply (proj2 to_grayscale_idempotent). vm_compute. congruence.
Defined.

(** C3 (amended).  [to_grayscale] sets the three channels of every pixel of
    a [width] x [height] block to [clamp (trunc E)], where [E] is
    [0.299 * R + 0.587 * G + 0.114 * B + 0.5] evaluated from left to right in
    binary64 arithmetic; (255,0,0) gives 76, (0,255,0) gives 150, (0,0,255)
    gives 29 and (255,255,255) gives 255, and on pixels with one channel
    only the value is that of the exact formula. *)
Theorem to_grayscale_luma (pixels : list Pixel24) (width height : Z) :
  0 <= width * height <= INT_MAX ->
  Z.of_nat (length pixels) = width * height ->
  to_grayscale pixels width height
  = Some (map (fun p =>
                 let g8 := clamp_int_to_u8
                             (luma (u8 (Px.r p)) (u8 (Px.g p)) (u8 (Px.b p)))
                 in Px.mk g8 g8 g8) pixels)
  /\ luma 255 0 0 = 76 /\ luma 0 255 0 = 150 /\ luma 0 0 255 = 29
  /\ luma 255 255 255 = 255
  /\ (forall v : byte,
        luma (u8 v) 0 0 = luma_exact (u8 v) 0 0
        /\ luma 0 (u8 v) 0 = luma_exact 0 (u8 v) 0
        /\ luma 0 0 (u8 v) = luma_exact 0 0 (u8 v)).
Proof.
  intros Hn Hlen. unfold INT_MAX in Hn.
  split; [|split; [|split; [|split; [|split]]]].
  2-5: vm_compute; reflexivity.
  2:{ intros v. destruct v; vm_compute; repeat split. }
  rewrite to_grayscale_eq. cbv zeta.
  rewrite to_int_small by lia.
  replace (Z.to_nat (width * height)) with (length pixels) by lia.
  rewrite Nat.leb_refl, firstn_all, skipn_all, app_nil_r.
  reflexivity.
Qed.

Lemma to_grayscale_luma_witness :
  0 <= 2 * 1 <= INT_MAX
  /\ Z.of_nat (length [red; blue]) = 2 * 1
  /\ to_grayscale [red; blue] 2 1
     = Some [gray_pixel "076"%byte; gray_pixel "029"%byte].
Proof.
  split; [vm_compute; split; congruence|].
  split; [reflexivity|].
  rewrite (proj1 (to_grayscale_luma [red; blue] 2 1
                    ltac:(vm_compute; split; congruence) eq_refl)).
  vm_compute. reflexivity.
Defined.

(** C3, as stated, fails: for the pixel (R,G,B) = (0,36,12) the exact
    value of the formula is 21.132 + 1.368 + 0.5 = 23, and the code stores
    22.  In binary64 the constant 0.587 is 0.58699999999999996..., so
    [0.587 * 36] rounds to 21.131999999999997..., [0.114 * 12] to
    1.3680000000000001..., their sum to 22.499999999999996... and the sum
    with 0.5 to 22.999999999999996..., which truncates to 22. *)
Lemma to_grayscale_not_exact :
  clamp_int_to_u8 (luma_exact 0 36 12) = "023"%byte
  /\ to_grayscale [Px.mk "012" "036" "000"] 1 1
     = Some [gray_pixel "022"%byte].
Proof. split; vm_compute; reflexivity. Qed.

(* ================================================================= *)
(** ** Loops with an invariant *)

Lemma for_up_inv {St R : Type} (I : Z -> St -> Prop)
  (body : Z -> St -> step St R) :
  forall (n : nat) (y0 : Z) (s0 : St),
  I y0 s0 ->
  (forall y s, y0 <= y < y0 + Z.of_nat n -> I y s ->
               exists s', body y s = Next s' /\ I (y + 1) s') ->
  exists s', for_up n y0 body s0 = Next s' /\ I (y0 + Z.of_nat n) s'.
Proof.
  induction n as [|n IH]; intros y0 s0 H0 Hstep.
  - exists s0. split; [reflexivity|].
    replace (y0 + Z.of_nat 0) with y0 by lia. exact H0.
  - destruct (Hstep y0 s0 ltac:(lia) H0) as (s1 & Hb & H1).
    cbn [for_up]. rewrite Hb.
    destruct (IH (y0 + 1) s1 H1) as (s' & Hrun & Hs').
    + intros y s Hy. apply Hstep. lia.
    + exists s'. split; [exact Hrun|].
      replace (y0 + Z.of_nat (S n)) with (y0 + 1 + Z.of_nat n) by lia.
      exact Hs'.
Qed.

(* ================================================================= *)
(** ** Reading and writing cells *)

Lemma get_in {A R : Type} (undef : R) (blk : list A) (i : Z) (d : A) :
  0 <= i < Z.of_nat (length blk) ->
  get undef blk i = Next (nth (Z.to_nat i) blk d).
Proof.
  intros H. unfold get.
  assert (Hin : in_block i 1 (length blk) = true)
    by (apply in_block_spec; lia).
  rewrite Hin.
  destruct (nth_error blk (Z.to_nat i)) as [v|] eqn:E.
  - rewrite (nth_error_nth _ _ d E). reflexivity.
  - apply nth_error_None in E. lia.
Qed.

Lemma set_in {A R : Type} (undef : R) (blk : list A) (i : Z) (v : A) :
  0 <= i < Z.of_nat (length blk) ->
  set undef blk i v = Next (store_cells (Z.to_nat i) [v] blk).
Proof.
  intros H. unfold set.
  assert (Hin : in_block i 1 (length blk) = true)
    by (apply in_block_spec; lia).
  rewrite Hin. reflexivity.
Qed.

Lemma nth_store_cells {A : Type} (i j : nat) (v d : A) (blk : list A) :
  (i < length blk)%nat ->
  nth j (store_cells i [v] blk) d = if (j =? i)%nat then v else nth j blk d.
Proof.
  intros Hi. unfold store_cells. cbn [length].
  destruct (Nat.eqb_spec j i) as [->|Hne].
  - rewrite app_nth2 by (rewrite length_firstn; lia).
    rewrite length_firstn.
    replace (i - Nat.min i (length blk))%nat with 0%nat by lia.
    reflexivity.
  - destruct (Nat.lt_ge_cases j i) as [Hlt|Hge].
    + rewrite app_nth1 by (rewrite length_firstn; lia).
      rewrite <- (firstn_skipn i blk) at 2.
      rewrite app_nth1 by (rewrite length_firstn; lia). reflexivity.
    + rewrite app_nth2 by (rewrite length_firstn; lia).
      rewrite length_firstn.
      replace (j - Nat.min i (length blk))%nat with (S (j - i - 1)) by lia.
      cbn [app nth].
      rewrite <- (firstn_skipn (i + 1) blk) at 2.
      rewrite app_nth2 by (rewrite length_firstn; lia).
      rewrite length_firstn. f_equal. lia.
Qed.

Lemma map_loop {A B : Type} (g : A -> B) (X : list A) :
  forall (n : nat) (done todo : list B),
  (length done + n <= length X)%nat -> (n <= length todo)%nat ->
  for_up n (Z.of_nat (length done))
    (fun i Y => v <- get tt X i ;; set tt Y i (g v)) (done ++ todo)
  = Next (done ++ map g (firstn n (skipn (length done) X)) ++ skipn n todo).
Proof.
  induction n as [|n IH]; intros done todo HX Htodo; [reflexivity|].
  cbn [for_up].
  destruct todo as [|t rest]; [cbn [length] in Htodo; lia|].
  destruct (skipn (length done) X) as [|a X'] eqn:EX.
  { apply (f_equal (@length A)) in EX. rewrite length_skipn in EX.
    cbn [length] in EX. lia. }
  assert (Ha : nth_error X (length done) = Some a).
  { rewrite <- (Nat.add_0_r (length done)), <- nth_error_skipn, EX.
    reflexivity. }
  rewrite (get_in tt X _ a) by lia.
  rewrite Nat2Z.id, (nth_error_nth _ _ a Ha). cbn [bind].
  rewrite set_app.
  replace (Z.of_nat (length done) + 1)
    with (Z.of_nat (length (done ++ [g a])))
    by (rewrite length_app; cbn [length]; lia).
  change (done ++ g a :: rest) with (done ++ [g a] ++ rest).
  rewrite app_assoc, IH.
  - rewrite length_app. cbn [length].
    replace (skipn (length done + 1) X) with X'.
    + cbn [firstn map skipn]. rewrite <- app_assoc. reflexivity.
    + rewrite Nat.add_comm, <- skipn_skipn, EX. reflexivity.
  - rewrite length_app. cbn [length]. lia.
  - cbn [length] in Htodo. lia.
Qed.

(* ================================================================= *)
(** ** Cells of a plane, by row and column *)

Lemma cell_index (W H y x : Z) :
  0 <= y < H -> 0 <= x < W -> 0 <= y * W + x < W * H.
Proof. intros Hy Hx. nia. Qed.

Lemma cell_index_inj (W y x y' x' : Z) :
  0 <= x < W -> 0 <= x' < W -> y * W + x = y' * W + x' ->
  y = y' /\ x = x'.
Proof.
  intros Hx Hx' E.
  assert (Hy : y = y').
  { destruct (Z.lt_trichotomy y y') as [L|[e|G]]; [exfalso|exact e|exfalso].
    - assert ((y + 1) * W <= y' * W) by (apply Z.mul_le_mono_nonneg_r; lia).
      lia.
    - assert ((y' + 1) * W <= y * W) by (apply Z.mul_le_mono_nonneg_r; lia).
      lia. }
  subst y'. split; [reflexivity|lia].
Qed.

Lemma cell_pointer (W H y x : Z) :
  W * H < 2 ^ 31 -> 0 <= y < H -> 0 <= x < W ->
  to_int (to_int (y * W) + x) = y * W + x.
Proof.
  intros Hsmall Hy Hx. pose proof (cell_index W H y x Hy Hx) as Hc.
  assert (0 <= y * W < 2 ^ 31) by nia.
  rewrite (to_int_small (y * W)) by lia. apply to_int_small. lia.
Qed.

Lemma plane_bounds (W H : Z) :
  0 < W -> 0 < H -> W * H < 2 ^ 31 -> W < 2 ^ 31 /\ H < 2 ^ 31.
Proof. intros HW HH Hsmall. split; nia. Qed.

Lemma agree_write (W H : Z) (E : Z -> Z -> byte) (P Q : Z -> Z -> Prop)
  (dst : list byte) (y0 x0 : Z) :
  agree W H E P dst -> 0 <= y0 < H -> 0 <= x0 < W ->
  (forall y x, 0 <= y < H -> 0 <= x < W ->
               Q y x -> P y x \/ (y = y0 /\ x = x0)) ->
  exists dst',
    set tt dst (y0 * W + x0) (E y0 x0) = Next dst' /\ agree W H E Q dst'.
Proof.
  intros [Hlen Hag] Hy0 Hx0 HQ.
  pose proof (cell_index W H y0 x0 Hy0 Hx0) as Hc0.
  rewrite set_in by lia.
  eexists. split; [reflexivity|]. split.
  - rewrite length_store_cells by (cbn [length]; lia). exact Hlen.
  - intros y x Hy Hx Hq.
    pose proof (cell_index W H y x Hy Hx) as Hc.
    rewrite nth_store_cells by lia.
    destruct (Nat.eqb_spec (Z.to_nat (y * W + x)) (Z.to_nat (y0 * W + x0)))
      as [Eq|Ne].
    + assert (Ei : y * W + x = y0 * W + x0) by lia.
      destruct (cell_index_inj W y x y0 x0 Hx Hx0 Ei) as [-> ->]. reflexivity.
    + destruct (HQ y x Hy Hx Hq) as [Hp|[-> ->]]; [|contradiction].
      apply Hag; assumption.
Qed.

Lemma agree_weaken (W H : Z) (E : Z -> Z -> byte) (P Q : Z -> Z -> Prop)
  (dst : list byte) :
  (forall y x, 0 <= y < H -> 0 <= x < W -> Q y x -> P y x) ->
  agree W H E P dst -> agree W H E Q dst.
Proof.
  intros HQ [Hlen Hag]. split; [exact Hlen|].
  intros y x Hy Hx Hq. apply Hag; auto.
Qed.

(* ================================================================= *)
(** ** The phases of convolve3x3 *)

Section Convolution.

Variables (W H : Z) (src : list byte) (k : kernel).
Hypothesis HW : 0 < W.
Hypothesis HH : 0 < H.
Hypothesis Hsmall : W * H < 2 ^ 31.
Hypothesis Hsrc : Z.of_nat (length src) = W * H.

Let E : Z -> Z -> byte := convolved_cell src W H k.

Let Hbounds : W < 2 ^ 31 /\ H < 2 ^ 31 := plane_bounds W H HW HH Hsmall.

Lemma window_sum_eq (x y : Z) :
  1 <= x < W - 1 -> 1 <= y < H - 1 ->
  window_sum src W k x y = Next (window_acc src W k x y).
Proof.
  intros Hx Hy.
  assert (Hget : forall dy dx, -1 <= dy <= 1 -> -1 <= dx <= 1 ->
            get tt src (to_int (to_int (to_int (y + dy) * W)
                                + to_int (x + dx)))
            = Next (nth (Z.to_nat ((y + dy) * W + (x + dx))) src
                      "000"%byte)).
  { intros dy dx Hdy Hdx.
    rewrite (to_int_small (y + dy)), (to_int_small (x + dx)) by lia.
    rewrite (cell_pointer W H) by first [assumption | lia].
    pose proof (cell_index W H (y + dy) (x + dx) ltac:(lia) ltac:(lia)).
    apply get_in. lia. }
  unfold window_sum, window_acc. cbn [for_up iter_up].
  repeat (rewrite Hget by lia; cbn [bind]).
  reflexivity.
Qed.

Lemma write_interior (P Q : Z -> Z -> Prop) (dst : list byte) (y x : Z) :
  agree W H E P dst -> 1 <= y < H - 1 -> 1 <= x < W - 1 ->
  (forall y' x', 0 <= y' < H -> 0 <= x' < W ->
                 Q y' x' -> P y' x' \/ (y' = y /\ x' = x)) ->
  exists dst',
    (acc <- window_sum src W k x y ;;
     set tt dst (to_int (to_int (y * W) + x))
       (interior_value acc (norm_factor k))) = Next dst'
    /\ agree W H E Q dst'.
Proof.
  intros Hag Hy Hx HQ.
  rewrite window_sum_eq by assumption. cbn [bind].
  rewrite (cell_pointer W H) by first [assumption | lia].
  replace (interior_value (window_acc src W k x y) (norm_factor k))
    with (E y x).
  - apply (agree_write W H) with (P := P); try assumption; lia.
  - unfold E, convolved_cell, is_border.
    destruct (Z.eqb_spec y 0); [lia|].
    destruct (Z.eqb_spec y (H - 1)); [lia|].
    destruct (Z.eqb_spec x 0); [lia|].
    destruct (Z.eqb_spec x (W - 1)); [lia|].
    reflexivity.
Qed.

Lemma copy_border (P Q : Z -> Z -> Prop) (dst : list byte) (y x : Z) :
  agree W H E P dst -> 0 <= y < H -> 0 <= x < W ->
  is_border W H x y = true ->
  (forall y' x', 0 <= y' < H -> 0 <= x' < W ->
                 Q y' x' -> P y' x' \/ (y' = y /\ x' = x)) ->
  exists dst',
    copy_cell src (y * W + x) dst = Next dst' /\ agree W H E Q dst'.
Proof.
  intros Hag Hy Hx Hb HQ. unfold copy_cell.
  pose proof (cell_index W H y x Hy Hx) as Hc.
  rewrite (get_in tt src _ "000"%byte) by lia. cbn [bind].
  replace (nth (Z.to_nat (y * W + x)) src "000"%byte) with (E y x).
  - apply (agree_write W H) with (P := P); assumption.
  - unfold E, convolved_cell. rewrite Hb. reflexivity.
Qed.

Lemma convolve_row_agree (P : Z -> Z -> Prop) (dst : list byte) (y : Z) :
  agree W H E P dst -> 1 <= y < H - 1 ->
  exists dst',
    convolve_row src W k (norm_factor k) y dst = Next dst'
    /\ agree W H E (fun y' x' => P y' x' \/ (y' = y /\ 1 <= x' < W - 1))
         dst'.
Proof.
  intros Hag Hy. unfold convolve_row.
  rewrite (to_int_small (W - 1)) by lia.
  destruct (for_up_inv
              (fun x d => agree W H E
                 (fun y' x' => P y' x' \/ (y' = y /\ 1 <= x' < x)) d)
              (fun x dst =>
                 acc <- window_sum src W k x y ;;
                 set tt dst (to_int (to_int (y * W) + x))
                   (interior_value acc (norm_factor k)))
              (Z.to_nat (W - 1 - 1)) 1 dst) as (dst' & Hrun & Hfin).
  - apply agree_weaken with (P := P); [|exact Hag].
    intros y' x' _ _ [Hp|[_ Hx]]; [exact Hp|lia].
  - intros x d Hx Hd.
    apply write_interior with
      (P := fun y' x' => P y' x' \/ (y' = y /\ 1 <= x' < x));
      try assumption; try lia.
    intros y' x' _ _ [Hp|[-> Hx']]; [left; left; exact Hp|].
    destruct (Z.eq_dec x' x) as [->|Hne]; [right; split; reflexivity|].
    left. right. split; [reflexivity|lia].
  - exists dst'. split; [exact Hrun|].
    apply agree_weaken with (2 := Hfin).
    intros y' x' _ _ [Hp|[-> Hx']]; [left; exact Hp|right].
    split; [reflexivity|lia].
Qed.

Lemma interior_agree (dst : list byte) :
  Z.of_nat (length dst) = W * H ->
  exists dst',
    for_up (Z.to_nat (to_int (H - 1) - 1)) 1
      (convolve_row src W k (norm_factor k)) dst = Next dst'
    /\ agree W H E (fun y x => 1 <= y < H - 1 /\ 1 <= x < W - 1) dst'.
Proof.
  intros Hlen.
  rewrite (to_int_small (H - 1)) by lia.
  destruct (for_up_inv
              (fun y d => agree W H E
                 (fun y' x' => 1 <= y' < y /\ 1 <= x' < W - 1) d)
              (convolve_row src W k (norm_factor k))
              (Z.to_nat (H - 1 - 1)) 1 dst) as (dst' & Hrun & Hfin).
  - split; [exact Hlen|]. intros y x _ _ [Hy _]. lia.
  - intros y d Hy Hd.
    destruct (convolve_row_agree _ d y Hd ltac:(lia)) as (d' & Hr & Hd').
    exists d'. split; [exact Hr|].
    apply agree_weaken with (2 := Hd').
    intros y' x' _ _ [Hy' Hx'].
    destruct (Z.eq_dec y' y) as [->|Hne]; [right; split; [reflexivity|lia]|].
    left. split; lia.
  - exists dst'. split; [exact Hrun|].
    apply agree_weaken with (2 := Hfin).
    intros y' x' _ _ [Hy' Hx']. split; lia.
Qed.

Lemma copy_rows_agree (P : Z -> Z -> Prop) (dst : list byte) :
  agree W H E P dst ->
  exists dst',
    copy_rows src W H dst = Next dst'
    /\ agree W H E (fun y x => P y x \/ y = 0 \/ y = H - 1) dst'.
Proof.
  intros Hag. unfold copy_rows.
  destruct (for_up_inv
              (fun x d => agree W H E
                 (fun y' x' => P y' x'
                               \/ ((y' = 0 \/ y' = H - 1) /\ 0 <= x' < x)) d)
              (fun x dst =>
                 dst <- copy_cell src (to_int (to_int (0 * W) + x)) dst ;;
                 copy_cell src
                   (to_int (to_int (to_int (H - 1) * W) + x)) dst)
              (Z.to_nat W) 0 dst) as (dst' & Hrun & Hfin).
  - apply agree_weaken with (P := P); [|exact Hag].
    intros y' x' _ _ [Hp|[_ Hx]]; [exact Hp|lia].
  - intros x d Hx Hd.
    rewrite (to_int_small (H - 1)) by lia.
    rewrite !(cell_pointer W H) by first [assumption | lia].
    destruct (copy_border _
                (fun y' x' => P y' x'
                              \/ ((y' = 0 \/ y' = H - 1) /\ 0 <= x' < x)
                              \/ (y' = 0 /\ x' = x))
                d 0 x Hd ltac:(lia) ltac:(lia))
      as (d1 & Hr1 & Hd1).
    { unfold is_border. rewrite Z.eqb_refl. reflexivity. }
    { intros y' x' _ _ [Hp|[Hq|Hq]];
        [left; left; exact Hp|left; right; exact Hq|right; exact Hq]. }
    rewrite Hr1. cbn [bind].
    apply copy_border with (1 := Hd1); try lia.
    { unfold is_border. rewrite Z.eqb_refl, orb_true_r. reflexivity. }
    intros y' x' _ _ [Hp|[Hrow Hx']]; [left; left; exact Hp|].
    destruct (Z.eq_dec x' x) as [->|Hne].
    + destruct Hrow as [->| ->].
      * left. right. right. split; reflexivity.
      * right. split; reflexivity.
    + left. right. left. split; [exact Hrow|lia].
  - exists dst'. split; [exact Hrun|].
    apply agree_weaken with (2 := Hfin).
    intros y' x' _ Hx' [Hp|Hrow]; [left; exact Hp|right].
    split; [exact Hrow|lia].
Qed.

Lemma copy_columns_agree (P : Z -> Z -> Prop) (dst : list byte) :
  agree W H E P dst ->
  exists dst',
    copy_columns src W H dst = Next dst'
    /\ agree W H E (fun y x => P y x \/ x = 0 \/ x = W - 1) dst'.
Proof.
  intros Hag. unfold copy_columns.
  destruct (for_up_inv
              (fun y d => agree W H E
                 (fun y' x' => P y' x'
                               \/ ((x' = 0 \/ x' = W - 1) /\ 0 <= y' < y)) d)
              (fun y dst =>
                 dst <- copy_cell src (to_int (to_int (y * W) + 0)) dst ;;
                 copy_cell src
                   (to_int (to_int (y * W) + to_int (W - 1))) dst)
              (Z.to_nat H) 0 dst) as (dst' & Hrun & Hfin).
  - apply agree_weaken with (P := P); [|exact Hag].
    intros y' x' _ _ [Hp|[_ Hy]]; [exact Hp|lia].
  - intros y d Hy Hd.
    rewrite (to_int_small (W - 1)) by lia.
    rewrite !(cell_pointer W H) by first [assumption | lia].
    destruct (copy_border _
                (fun y' x' => P y' x'
                              \/ ((x' = 0 \/ x' = W - 1) /\ 0 <= y' < y)
                              \/ (y' = y /\ x' = 0))
                d y 0 Hd ltac:(lia) ltac:(lia))
      as (d1 & Hr1 & Hd1).
    { unfold is_border. rewrite Z.eqb_refl, !orb_true_r. reflexivity. }
    { intros y' x' _ _ [Hp|[Hq|Hq]];
        [left; left; exact Hp|left; right; exact Hq|right; exact Hq]. }
    rewrite Hr1. cbn [bind].
    apply copy_border with (1 := Hd1); try lia.
    { unfold is_border. rewrite Z.eqb_refl, !orb_true_r. reflexivity. }
    intros y' x' _ _ [Hp|[Hcol Hy']]; [left; left; exact Hp|].
    destruct (Z.eq_dec y' y) as [->|Hne].
    + destruct Hcol as [->| ->].
      * left. right. right. split; reflexivity.
      * right. split; reflexivity.
    + left. right. left. split; [exact Hcol|lia].
  - exists dst'. split; [exact Hrun|].
    apply agree_weaken with (2 := Hfin).
    intros y' x' Hy' _ [Hp|Hcol]; [left; exact Hp|right].
    split; [exact Hcol|lia].
Qed.

(** Every cell of the plane after the three phases. *)
Lemma planes_agree (dst : list byte) :
  Z.of_nat (length dst) = W * H ->
  exists d1 d2 d3,
    for_up (Z.to_nat (to_int (H - 1) - 1)) 1
      (convolve_row src W k (norm_factor k)) dst = Next d1
    /\ copy_rows src W H d1 = Next d2
    /\ copy_columns src W H d2 = Next d3
    /\ Z.of_nat (length d3) = W * H
    /\ forall y x, 0 <= y < H -> 0 <= x < W ->
         nth (Z.to_nat (y * W + x)) d3 "000"%byte = E y x.
Proof.
  intros Hlen.
  destruct (interior_agree dst Hlen) as (d1 & Hr1 & Hd1).
  destruct (copy_rows_agree _ d1 Hd1) as (d2 & Hr2 & Hd2).
  destruct (copy_columns_agree _ d2 Hd2) as (d3 & Hr3 & Hd3).
  exists d1, d2, d3.
  split; [exact Hr1|]. split; [exact Hr2|]. split; [exact Hr3|].
  destruct Hd3 as [Hl3 Hc3].
  split; [exact Hl3|].
  intros y x Hy Hx. apply Hc3; try assumption.
  destruct (Z.eq_dec x 0) as [->|Hx0]; [right; left; reflexivity|].
  destruct (Z.eq_dec x (W - 1)) as [->|Hx1]; [right; right; reflexivity|].
  left.
  destruct (Z.eq_dec y 0) as [->|Hy0]; [right; left; reflexivity|].
  destruct (Z.eq_dec y (H - 1)) as [->|Hy1]; [right; right; reflexivity|].
  left. split; lia.
Qed.

End Convolution.

Lemma convolve3x3_run (pixels : list Pixel24) (W H : Z) (k : kernel)
  (junk_src junk_dst : nat -> byte) :
  0 < W -> 0 < H -> W * H <= INT_MAX ->
  Z.of_nat (length pixels) = W * H ->
  exists out,
    convolve3x3 (Some junk_src) (Some junk_dst) pixels W H k = Some out
    /\ length out = length pixels
    /\ forall y x, 0 <= y < H -> 0 <= x < W ->
         nth_error out (Z.to_nat (y * W + x))
         = Some (gray_pixel (convolved_cell (map Px.r pixels) W H k y x)).
Proof.
  intros HW HH Hmax Hlen. unfold INT_MAX in Hmax.
  assert (Hsmall : W * H < 2 ^ 31) by lia.
  destruct (plane_bounds W H HW HH Hsmall) as [HW31 HH31].
  unfold convolve3x3.
  rewrite (to_size_t_small W), (to_size_t_small H) by lia.
  rewrite to_size_t_small by lia.
  rewrite to_int_small by lia.
  replace (Z.to_nat (W * H)) with (length pixels) by lia.
  pose proof (map_loop Px.r pixels (length pixels) []
                (malloc junk_src (length pixels))) as H1.
  cbn [length app Z.of_nat skipn Nat.add] in H1.
  rewrite H1 by (rewrite ?length_malloc; lia). clear H1.
  cbn [bind].
  rewrite firstn_all.
  rewrite skipn_all2 by (rewrite length_malloc; lia).
  rewrite app_nil_r.
  destruct (planes_agree W H (map Px.r pixels) k HW HH Hsmall
              ltac:(rewrite length_map; exact Hlen)
              (malloc junk_dst (length pixels))
              ltac:(rewrite length_malloc; exact Hlen))
    as (d1 & d2 & d3 & Hr1 & Hr2 & Hr3 & Hl3 & Hc3).
  rewrite Hr1. cbn [bind]. rewrite Hr2. cbn [bind]. rewrite Hr3. cbn [bind].
  pose proof (map_loop gray_pixel d3 (length pixels) [] pixels) as H2.
  cbn [length app Z.of_nat skipn Nat.add] in H2.
  rewrite H2 by lia. clear H2.
  rewrite firstn_all2 by lia.
  rewrite skipn_all, app_nil_r.
  eexists. split; [reflexivity|]. split.
  - rewrite length_map. lia.
  - intros y x Hy Hx.
    pose proof (cell_index W H y x Hy Hx) as Hc.
    rewrite nth_error_map.
    rewrite (nth_error_nth' d3 "000"%byte) by lia.
    cbn [option_map]. rewrite Hc3 by assumption. reflexivity.
Qed.

(** C4.  For a block of at least 3 x 3 pixels and any kernel, [convolve3x3]
    returns; every pixel of row 0, row [H-1], column 0 and column [W-1] has
    its three channels equal to the red channel it had before the call (so a
    gray border pixel is unchanged), and every interior pixel holds the
    value computed from the red channels the block had before the call. *)
Theorem convolve3x3_borders (pixels : list Pixel24) (W H : Z) (k : kernel)
  (junk_src junk_dst : nat -> byte) :
  3 <= W -> 3 <= H -> W * H <= INT_MAX ->
  Z.of_nat (length pixels) = W * H ->
  exists out,
    convolve3x3 (Some junk_src) (Some junk_dst) pixels W H k = Some out
    /\ length out = length pixels
    /\ forall y x, 0 <= y < H -> 0 <= x < W ->
       exists p,
         nth_error pixels (Z.to_nat (y * W + x)) = Some p
         /\ (is_border W H x y = true ->
             nth_error out (Z.to_nat (y * W + x))
             = Some (gray_pixel (Px.r p))
             /\ (forall v, p = gray_pixel v ->
                   nth_error out (Z.to_nat (y * W + x)) = Some p))
         /\ (is_border W H x y = false ->
             nth_error out (Z.to_nat (y * W + x))
             = Some (gray_pixel
                       (interior_value
                          (window_acc (map Px.r pixels) W k x y)
                          (norm_factor k)))).
Proof.
  intros HW HH Hmax Hlen.
  destruct (convolve3x3_run pixels W H k junk_src junk_dst
              ltac:(lia) ltac:(lia) Hmax Hlen) as (out & Hrun & Hl & Hcells).
  exists out. split; [exact Hrun|]. split; [exact Hl|].
  intros y x Hy Hx.
  pose proof (cell_index W H y x Hy Hx) as Hc.
  destruct (nth_error pixels (Z.to_nat (y * W + x))) as [p|] eqn:Ep.
  2:{ apply nth_error_None in Ep. lia. }
  exists p. split; [reflexivity|].
  rewrite (Hcells y x Hy Hx). unfold convolved_cell.
  split; intros Hb; rewrite Hb.
  - assert (Er : nth (Z.to_nat (y * W + x)) (map Px.r pixels) "000"%byte
                 = Px.r p).
    { apply nth_error_nth. rewrite nth_error_map, Ep. reflexivity. }
    rewrite Er. split; [reflexivity|].
    intros v ->. reflexivity.
  - reflexivity.
Qed.

Lemma convolve3x3_borders_witness :
  (3 <= 3 /\ 3 * 3 <= INT_MAX /\ Z.of_nat (length block_3x3) = 3 * 3)
  /\ exists out,
       convolve3x3 (Some no_junk8) (Some no_junk8) block_3x3 3 3 box
       = Some out
       /\ length out = length block_3x3
       /\ forall y x, 0 <= y < 3 -> 0 <= x < 3 ->
          exists p,
            nth_error block_3x3 (Z.to_nat (y * 3 + x)) = Some p
            /\ (is_border 3 3 x y = true ->
                nth_error out (Z.to_nat (y * 3 + x))
                = Some (gray_pixel (Px.r p))
                /\ (forall v, p = gray_pixel v ->
                      nth_error out (Z.to_nat (y * 3 + x)) = Some p))
            /\ (is_border 3 3 x y = false ->
                nth_error out (Z.to_nat (y * 3 + x))
                = Some (gray_pixel
                          (interior_value
                             (window_acc (map Px.r block_3x3) 3 box x y)
                             (norm_factor box)))).
Proof.
  split.
  - repeat split; vm_compute; congruence.
  - apply (convolve3x3_borders block_3x3 3 3 box no_junk8 no_junk8);
      vm_compute; congruence.
Defined.

(** A block with fewer than three rows has no interior: a gray 4 x 2 block
    comes back as it was, whatever the kernel of the menu. *)
Example convolve3x3_4x2 :
  let block :=
    map gray_pixel ["010"; "020"; "030"; "040"; "050"; "060"; "070"; "080"]%byte
  in
  convolve3x3 (Some no_junk8) (Some no_junk8) block 4 2 sobelX = Some block
  /\ convolve3x3 (Some no_junk8) (Some no_junk8) block 4 2 laplacian
     = Some block.
Proof. split; vm_compute; reflexivity. Qed.













(** C10.  When either [malloc] fails, [convolve3x3] returns with the block
    of pixels exactly as it was; its result carries no sign of the
    failure. *)
Theorem convolve3x3_malloc_failure (pixels : list Pixel24) (W H : Z)
  (k : kernel) (heap : option (nat -> byte)) :
  convolve3x3 None heap pixels W H k = Some pixels
  /\ convolve3x3 heap None pixels W H k = Some pixels.
Proof. split; destruct heap; reflexivity. Qed.

(* ================================================================= *)
(** ** More on load_bmp24 *)

(** X1.  With memory available, [load_bmp24] returns 1 exactly on the
    streams that hold 54 header bytes with the signature, 24 bits per pixel,
    no compression, a positive width and height whose row indices fit [int],
    and the pixels of the last stored row; the padding after the last row
    need not be there. *)
Theorem load_bmp24_returns_1_iff (data : list byte) (junk : nat -> Pixel24) :
  let fh := stream_fh data in
  let ih := stream_ih data in
  let w := Z.to_nat (biWidth ih) in
  let h := Z.to_nat (biHeight ih) in
  let stride := (3 * w + Z.to_nat (row_padding (biWidth ih)))%nat in
  load_return (load_bmp24 (Some data) (Some junk)) = Some 1
  <-> ((54 <= length data)%nat
       /\ bfType fh = 0x4D42
       /\ biBitCount ih = 24 /\ biCompression ih = 0
       /\ 0 < biWidth ih /\ 0 < biHeight ih
       /\ (biHeight ih - 1) * biWidth ih <= INT_MAX
       /\ (Z.to_nat (bfOffBits fh) + (h - 1) * stride + 3 * w
           <= length data)%nat).
Proof.
  cbv zeta. unfold INT_MAX. split.
  - intros Hret.
    destruct (load_bmp24 (Some data) (Some junk)) as [fh' ih' px| |] eqn:E;
      try discriminate.
    apply load_bmp24_Loaded in E.
    destruct E as ([Hlen Hsig Hbits Hcomp HW HH Hnw Hrows] & _).
    unfold rows_present, stream_offset, stream_stride in Hrows.
    apply Nat.leb_le in Hrows.
    repeat split; try assumption; lia.
  - intros (Hlen & Hsig & Hbits & Hcomp & HW & HH & Hnw & Hrows).
    rewrite load_bmp24_accepted; [reflexivity|].
    pose proof (stream_ih_width_range data).
    pose proof (stream_ih_height_range data).
    constructor; try assumption; try lia.
    unfold rows_present, stream_offset, stream_stride.
    apply Nat.leb_le. exact Hrows.
Qed.

(** X2.  When the headers are sound and the pixel data stops before the end
    of the last stored row, [load_bmp24] prints its row message and
    returns 0. *)
Theorem load_bmp24_short_rows (data : list byte) (junk : nat -> Pixel24) :
  let fh := stream_fh data in
  let ih := stream_ih data in
  (54 <= length data)%nat ->
  bfType fh = 0x4D42 -> biBitCount ih = 24 -> biCompression ih = 0 ->
  0 < biWidth ih -> 0 < biHeight ih ->
  (biHeight ih - 1) * biWidth ih <= INT_MAX ->
  rows_present data = false ->
  load_bmp24 (Some data) (Some junk) = Rejected [msg_row].
Proof.
  cbv zeta. intros Hlen Hsig Hbits Hcomp HW HH Hnw Hrows.
  unfold INT_MAX in Hnw.
  rewrite load_bmp24_rows by (try assumption; lia).
  rewrite Hrows. reflexivity.
Qed.

Lemma load_bmp24_short_rows_witness :
  rows_present stream_short_rows = false
  /\ load_bmp24 (Some stream_short_rows) (Some no_junk) = Rejected [msg_row].
Proof.
  split; [vm_compute; reflexivity|].
  apply (load_bmp24_short_rows stream_short_rows no_junk);
    vm_compute; congruence || lia.
Defined.

(** X3.  Without memory for the pixels [load_bmp24] returns 0, whatever the
    stream; when the headers pass every check it does so without a word on
    [stderr]. *)
Theorem load_bmp24_no_memory (data : list byte) :
  load_return (load_bmp24 (Some data) None) = Some 0
  /\ ((54 <= length data)%nat ->
      bfType (stream_fh data) = 0x4D42 ->
      biBitCount (stream_ih data) = 24 ->
      biCompression (stream_ih data) = 0 ->
      0 < biWidth (stream_ih data) -> 0 < biHeight (stream_ih data) ->
      load_bmp24 (Some data) None = Rejected []).
Proof.
  rewrite load_bmp24_eq. cbv zeta.
  destruct (Nat.ltb_spec (length data) 54) as [Hs|Hl].
  { split; [reflexivity|intros; lia]. }
  destruct (Z.eqb_spec (bfType (stream_fh data)) 0x4D42); cbn [negb].
  2:{ split; [reflexivity|intros; contradiction]. }
  destruct (Z.eqb_spec (biBitCount (stream_ih data)) 24); cbn [negb orb].
  2:{ split; [reflexivity|intros; contradiction]. }
  destruct (Z.eqb_spec (biCompression (stream_ih data)) 0); cbn [negb orb].
  2:{ split; [reflexivity|intros; contradiction]. }
  destruct (Z.leb_spec (biWidth (stream_ih data)) 0); cbn [orb].
  { split; [reflexivity|intros; lia]. }
  destruct (Z.leb_spec (biHeight (stream_ih data)) 0); cbn [orb].
  { split; [reflexivity|intros; lia]. }
  split; reflexivity.
Qed.

Lemma load_bmp24_no_memory_witness :
  load_bmp24 (Some stream_2x2) None = Rejected [].
Proof.
  apply (proj2 (load_bmp24_no_memory stream_2x2));
    vm_compute; congruence || lia.
Defined.

Lemma load_rows_any_junk (W H P : Z) :
  forall (n : nat) (y : Z) (f : FILE) (px px' : list Pixel24),
  length px = length px' ->
  (exists g q q',
     for_up n y (load_row W H P) (f, px) = Next (g, q)
     /\ for_up n y (load_row W H P) (f, px') = Next (g, q')
     /\ length q = length q')
  \/ (exists o,
        for_up n y (load_row W H P) (f, px) = Return o
        /\ for_up n y (load_row W H P) (f, px') = Return o).
Proof.
  induction n as [|n IH]; intros y f px px' Hlen.
  - left. exists f, px, px'. repeat split. exact Hlen.
  - cbn [for_up]. unfold load_row at 1 3 5 7. rewrite <- Hlen.
    destruct (in_block _ _ _); cbn [negb].
    2:{ right. exists LoadUndefined. split; reflexivity. }
    destruct (fread 3 (Z.to_nat W) f) as [got g].
    destruct (items 3 got =? Z.to_nat W)%nat; cbn [negb].
    2:{ right. exists (Rejected [msg_row]). split; reflexivity. }
    apply IH. unfold store_cells.
    rewrite !length_app, !length_firstn, !length_skipn, Hlen. reflexivity.
Qed.

(** X4.  What [load_bmp24] does never depends on what the freshly allocated
    block happened to hold. *)
Theorem load_bmp24_any_junk (data : list byte) (junk junk' : nat -> Pixel24) :
  load_bmp24 (Some data) (Some junk) = load_bmp24 (Some data) (Some junk').
Proof.
  destruct (load_bmp24 (Some data) (Some junk)) as [fh ih px| |] eqn:E.
  { apply load_bmp24_Loaded in E. destruct E as (Hacc & -> & -> & ->).
    symmetry. apply load_bmp24_accepted. exact Hacc. }
  all: destruct (load_bmp24 (Some data) (Some junk')) as [fh ih px| |] eqn:E'.
  all: try (apply load_bmp24_Loaded in E'; destruct E' as (Hacc & _);
            rewrite (load_bmp24_accepted data junk Hacc) in E; discriminate).
  all: rewrite load_bmp24_eq in E, E'; cbv zeta in E, E'.
  all: destruct (length data <? 54)%nat; [congruence|].
  all: destruct (negb (bfType _ =? _)); [congruence|].
  all: destruct (negb _ || negb _); [congruence|].
  all: destruct ((_ <=? 0) || (_ <=? 0)); [congruence|].
  all: destruct (load_rows_any_junk (biWidth (stream_ih data))
                  (biHeight (stream_ih data))
                  (row_padding (biWidth (stream_ih data)))
                  (Z.to_nat (biHeight (stream_ih data))) 0
                  (mkFILE data (Z.to_nat (bfOffBits (stream_fh data))))
                  (malloc junk (Z.to_nat (biWidth (stream_ih data))
                                * Z.to_nat (biHeight (stream_ih data))))
                  (malloc junk' (Z.to_nat (biWidth (stream_ih data))
                                 * Z.to_nat (biHeight (stream_ih data))))
                  ltac:(rewrite !length_malloc; reflexivity))
         as [(g & q & q' & H1 & H2 & _)|(o & H1 & H2)];
       rewrite H1 in E; rewrite H2 in E'; congruence.
Qed.

(* ================================================================= *)
(** ** More on save_bmp24 *)

Lemma to_uint32_to_int (z : Z) : to_uint32 (to_int z) = to_uint32 z.
Proof.
  unfold to_uint32, to_int.
  destruct (z mod 2 ^ 32 <? 2 ^ 31).
  - apply Z.mod_mod. lia.
  - replace (z mod 2 ^ 32 - 2 ^ 32) with (z mod 2 ^ 32 + (-1) * 2 ^ 32)
      by lia.
    rewrite Z.mod_add by lia. apply Z.mod_mod. lia.
Qed.



(** X5.  Encode, then decode.  For a template with a positive width and
    height whose row indices fit [int] and a block of exactly
    [width * height] pixels, [save_bmp24] succeeds on a device that takes
    every byte, and [load_bmp24] of the file returns the same pixels with a
    header in which size, planes, bit count and compression are 40, 1, 24
    and 0 whatever the template held, and the resolution and colour fields
    are those of the template. *)
Theorem save_then_load (ih : BMPInfoHeader) (px : list Pixel24)
  (junk : nat -> Pixel24) :
  0 < biWidth ih -> 0 < biHeight ih ->
  biWidth ih <= INT_MAX -> biHeight ih <= INT_MAX ->
  (biHeight ih - 1) * biWidth ih <= INT_MAX ->
  Z.of_nat (length px) = biHeight ih * biWidth ih ->
  exists out fh' ih',
    save_bmp24 (Some None) ih px = Saved out
    /\ load_bmp24 (Some out) (Some junk) = Loaded fh' ih' px
    /\ biWidth ih' = biWidth ih /\ biHeight ih' = biHeight ih
    /\ biSize ih' = 40 /\ biPlanes ih' = 1 /\ biBitCount ih' = 24
    /\ biCompression ih' = 0
    /\ biXPelsPerMeter ih' = to_int (biXPelsPerMeter ih)
    /\ biYPelsPerMeter ih' = to_int (biYPelsPerMeter ih)
    /\ biClrUsed ih' = to_uint32 (biClrUsed ih)
    /\ biClrImportant ih' = to_uint32 (biClrImportant ih).
Proof.
  unfold INT_MAX. intros HW HH HW' HH' Hnw Hlen.
  destruct (saved_stream_decodes ih px ltac:(lia) ltac:(lia) ltac:(lia) Hlen)
    as [Hacc Hpx].
  exists (saved_stream ih px), (stream_fh (saved_stream ih px)),
    (stream_ih (saved_stream ih px)).
  split; [apply save_bmp24_run; lia|].
  split; [rewrite (load_bmp24_accepted _ junk Hacc), Hpx; reflexivity|].
  rewrite stream_ih_saved, BMPInfoHeader_of_bytes_of.
  cbn [biWidth biHeight biSize biPlanes biBitCount biCompression
       biXPelsPerMeter biYPelsPerMeter biClrUsed biClrImportant saved_ih].
  rewrite !to_int_mod32.
  rewrite (to_int_small (biWidth ih)), (to_int_small (biHeight ih)) by lia.
  repeat split.
Qed.

Lemma save_then_load_witness :
  (0 < 2 /\ 2 <= INT_MAX /\ (2 - 1) * 2 <= INT_MAX
   /\ Z.of_nat (length [blue; blue; red; red]) = 2 * 2)
  /\ exists out fh' ih',
       save_bmp24 (Some None) (template 2 2) [blue; blue; red; red]
       = Saved out
       /\ load_bmp24 (Some out) (Some no_junk)
          = Loaded fh' ih' [blue; blue; red; red]
       /\ biWidth ih' = 2 /\ biHeight ih' = 2
       /\ biSize ih' = 40 /\ biPlanes ih' = 1 /\ biBitCount ih' = 24
       /\ biCompression ih' = 0
       /\ biXPelsPerMeter ih' = to_int 2835
       /\ biYPelsPerMeter ih' = to_int (-1)
       /\ biClrUsed ih' = to_uint32 0
       /\ biClrImportant ih' = to_uint32 0.
Proof.
  split; [repeat split; vm_compute; congruence|].
  apply (save_then_load (template 2 2) [blue; blue; red; red] no_junk);
    vm_compute; congruence.
Defined.



(** X7.  A template whose height is zero or negative makes [save_bmp24]
    write the 54 header bytes and nothing else, and return 1; [load_bmp24]
    then rejects that file for its dimensions. *)
Theorem save_bmp24_no_rows (ih : BMPInfoHeader) (px : list Pixel24)
  (junk : nat -> Pixel24) :
  INT_MIN < biHeight ih <= 0 ->
  exists out,
    save_bmp24 (Some None) ih px = Saved out
    /\ length out = 54%nat
    /\ load_bmp24 (Some out) (Some junk) = Rejected [msg_dimensions].
Proof.
  unfold INT_MIN. intros HH.
  exists (bytes_of_BMPHeader (saved_fh ih)
          ++ bytes_of_BMPInfoHeader (saved_ih ih)).
  split; [|split; [reflexivity|]].
  - unfold save_bmp24.
    unfold fwrite at 1. cbn [fopen_wb room written option_map app].
    unfold sizeof_BMPHeader, sizeof_BMPInfoHeader.
    rewrite items_exact by (rewrite ?length_bytes_of_BMPHeader; lia).
    rewrite length_bytes_of_BMPHeader.
    cbn [Nat.eqb Nat.mul Nat.add negb].
    unfold fwrite at 1. cbn [room written option_map].
    rewrite items_exact by (rewrite ?length_bytes_of_BMPInfoHeader; lia).
    rewrite length_bytes_of_BMPInfoHeader.
    cbn [Nat.eqb Nat.mul Nat.add negb].
    rewrite (to_int_small (biHeight ih - 1)) by lia.
    replace (Z.to_nat (biHeight ih - 1 + 1)) with 0%nat by lia.
    cbn [for_down written]. reflexivity.
  - set (out := bytes_of_BMPHeader (saved_fh ih)
                ++ bytes_of_BMPInfoHeader (saved_ih ih)).
    assert (Efh : stream_fh out
                  = BMPHeader_of_bytes (bytes_of_BMPHeader (saved_fh ih))).
    { unfold stream_fh, out.
      rewrite firstn_app, length_bytes_of_BMPHeader.
      rewrite firstn_all2 by (rewrite length_bytes_of_BMPHeader; lia).
      cbn [Nat.sub firstn]. rewrite app_nil_r. reflexivity. }
    assert (Eih : stream_ih out
                  = BMPInfoHeader_of_bytes
                      (bytes_of_BMPInfoHeader (saved_ih ih))).
    { unfold stream_ih, out.
      rewrite skipn_app, length_bytes_of_BMPHeader.
      rewrite skipn_all2 by (rewrite length_bytes_of_BMPHeader; lia).
      cbn [Nat.sub]. rewrite skipn_0, app_nil_l.
      rewrite firstn_all2 by (rewrite length_bytes_of_BMPInfoHeader; lia).
      reflexivity. }
    assert (Hlen : length out = 54%nat) by reflexivity.
    rewrite load_bmp24_eq, Hlen. cbn [Nat.ltb Nat.leb]. cbv zeta.
    rewrite Efh, Eih, BMPHeader_of_bytes_of, BMPInfoHeader_of_bytes_of.
    cbn [bfType saved_fh biBitCount biCompression biWidth biHeight saved_ih].
    replace (19778 mod 2 ^ 16 =? 19778) with true by reflexivity.
    replace (24 mod 2 ^ 16 =? 24) with true by reflexivity.
    replace (0 mod 2 ^ 32 =? 0) with true by reflexivity.
    cbn [negb orb].
    rewrite !to_int_mod32, (to_int_small (biHeight ih)) by lia.
    destruct (Z.leb_spec (biHeight ih) 0); [|lia].
    rewrite orb_true_r. reflexivity.
Qed.

Lemma save_bmp24_no_rows_witness :
  INT_MIN < biHeight (template 2 0) <= 0
  /\ exists out,
       save_bmp24 (Some None) (template 2 0) [] = Saved out
       /\ length out = 54%nat
       /\ load_bmp24 (Some out) (Some no_junk) = Rejected [msg_dimensions].
Proof.
  split; [vm_compute; split; congruence|].
  apply (save_bmp24_no_rows (template 2 0) [] no_junk).
  vm_compute. split; congruence.
Defined.

(* ================================================================= *)
(** ** More on to_grayscale *)

(** X9.  [to_grayscale] walks over the first [width * height] pixels of
    the block, the product taken in [int]: it returns exactly when the block
    holds that many pixels; it then turns each of them into a gray pixel,
    independently of the others, and leaves the pixels after them and the
    length of the block as they were. *)
Theorem to_grayscale_prefix (pixels out : list Pixel24) (width height : Z) :
  let n := Z.to_nat (to_int (width * height)) in
  to_grayscale pixels width height = Some out
  <-> ((n <= length pixels)%nat
       /\ length out = length pixels
       /\ forall i, nth_error out i
                    = if (i <? n)%nat
                      then option_map gray_of (nth_error pixels i)
                      else nth_error pixels i).
Proof.
  intros n. rewrite to_grayscale_eq. cbv zeta. fold n.
  assert (Hshape : (n <= length pixels)%nat ->
            length (map gray_of (firstn n pixels) ++ skipn n pixels)
            = length pixels
            /\ forall i,
                 nth_error (map gray_of (firstn n pixels) ++ skipn n pixels) i
                 = if (i <? n)%nat
                   then option_map gray_of (nth_error pixels i)
                   else nth_error pixels i).
  { intros Hle.
    assert (Hl : length (map gray_of (firstn n pixels)) = n)
      by (rewrite length_map, length_firstn; lia).
    split.
    - rewrite length_app, Hl, length_skipn. lia.
    - intros i. destruct (Nat.ltb_spec i n) as [Hi|Hi].
      + rewrite nth_error_app1 by lia.
        rewrite nth_error_map, nth_error_firstn.
        destruct (Nat.ltb_spec i n); [reflexivity|lia].
      + rewrite nth_error_app2 by lia. rewrite Hl, nth_error_skipn.
        f_equal. lia. }
  destruct (Nat.leb_spec n (length pixels)) as [Hle|Hgt].
  - destruct (Hshape Hle) as [Hl Hn]. split.
    + intros E. injection E as <-. repeat split; assumption.
    + intros (_ & Hl' & Hn'). f_equal.
      apply nth_error_ext. intros i. rewrite Hn, Hn'. reflexivity.
  - split; [discriminate|]. intros (Hle & _). lia.
Qed.

(** X10.  When [width * height] is zero or negative as an [int], also
    because the product of two positive numbers wrapped around,
    [to_grayscale] leaves the block as it is. *)
Theorem to_grayscale_no_pixels (pixels : list Pixel24) (width height : Z) :
  to_int (width * height) <= 0 ->
  to_grayscale pixels width height = Some pixels.
Proof.
  intros Hn. rewrite to_grayscale_eq. cbv zeta.
  replace (Z.to_nat (to_int (width * height))) with 0%nat by lia.
  reflexivity.
Qed.

Lemma to_grayscale_no_pixels_witness :
  to_int (65536 * 32768) <= 0
  /\ to_grayscale [red; blue] 65536 32768 = Some [red; blue].
Proof.
  split; [vm_compute; congruence|].
  apply (to_grayscale_no_pixels [red; blue] 65536 32768).
  vm_compute. congruence.
Defined.

(* ================================================================= *)
(** ** More on convolve3x3 *)

(** A block of [W * H] cells is determined by its cells. *)
Lemma cells_ext {A : Type} (W H : Z) (l l' : list A) :
  0 < W ->
  Z.of_nat (length l) = W * H ->
  length l' = length l ->
  (forall y x, 0 <= y < H -> 0 <= x < W ->
     nth_error l (Z.to_nat (y * W + x))
     = nth_error l' (Z.to_nat (y * W + x))) ->
  l = l'.
Proof.
  intros HW Hl Hl' Hc. apply nth_error_ext. intros i.
  destruct (Nat.ltb_spec i (length l)) as [Hi|Hi].
  - pose proof (Z.div_mod (Z.of_nat i) W ltac:(lia)) as Hdm.
    pose proof (Z.mod_pos_bound (Z.of_nat i) W HW) as Hm.
    assert (Hd : 0 <= Z.of_nat i / W < H).
    { split; [apply Z.div_pos; lia|].
      apply Z.div_lt_upper_bound; lia. }
    specialize (Hc (Z.of_nat i / W) (Z.of_nat i mod W) Hd Hm).
    replace (Z.to_nat (Z.of_nat i / W * W + Z.of_nat i mod W)) with i in Hc
      by lia.
    exact Hc.
  - rewrite (proj2 (nth_error_None l i)) by lia.
    rewrite (proj2 (nth_error_None l' i)) by lia.
    reflexivity.
Qed.

Lemma nth_red (pixels : list Pixel24) (i : nat) (p : Pixel24) :
  nth_error pixels i = Some p ->
  nth i (map Px.r pixels) "000"%byte = Px.r p.
Proof.
  intros E. apply nth_error_nth. rewrite nth_error_map, E. reflexivity.
Qed.

Lemma cell_in_block (W H y x : Z) :
  0 < W -> 0 <= y < H -> 0 <= x < W -> 0 <= y * W + x < W * H.
Proof. intros. nia. Qed.

(** X11.  On a block fewer than three pixels wide or high every cell is on
    the border: [convolve3x3] ignores the kernel and returns the red
    channel of each pixel as a gray pixel, so a gray block comes back
    unchanged. *)
Theorem convolve3x3_small_block (pixels : list Pixel24) (W H : Z)
  (k : kernel) (junk_src junk_dst : nat -> byte) :
  0 < W -> 0 < H -> W * H <= INT_MAX ->
  Z.of_nat (length pixels) = W * H ->
  W <= 2 \/ H <= 2 ->
  convolve3x3 (Some junk_src) (Some junk_dst) pixels W H k
  = Some (map red_as_gray pixels).
Proof.
  intros HW HH Hmax Hlen Hsmall.
  destruct (convolve3x3_run pixels W H k junk_src junk_dst HW HH Hmax Hlen)
    as (out & E & Hl & Hc).
  rewrite E. f_equal.
  apply (cells_ext W H); [assumption| | |].
  - rewrite Hl. assumption.
  - rewrite length_map. symmetry. assumption.
  - intros y x Hy Hx. rewrite (Hc y x Hy Hx), nth_error_map.
    pose proof (cell_in_block W H y x HW Hy Hx) as Hi.
    destruct (nth_error pixels (Z.to_nat (y * W + x))) as [p|] eqn:Ep.
    2:{ apply nth_error_None in Ep. lia. }
    cbn [option_map]. unfold red_as_gray, convolved_cell.
    assert (Hb : is_border W H x y = true).
    { unfold is_border. rewrite !orb_true_iff, !Z.eqb_eq. lia. }
    rewrite Hb, (nth_red pixels _ p Ep). reflexivity.
Qed.

Lemma convolve3x3_small_block_witness :
  convolve3x3 (Some no_junk8) (Some no_junk8) [red; blue; blue; red] 2 2
    sobelX
  = Some (map red_as_gray [red; blue; blue; red]).
Proof.
  apply (convolve3x3_small_block [red; blue; blue; red] 2 2 sobelX
           no_junk8 no_junk8);
    first [reflexivity | vm_compute; congruence | (left; lia)].
Defined.

(** X12.  [convolve3x3] reads only the red channel: two blocks of the same
    size whose pixels have the same red values give the same result,
    whatever their green and blue values and whatever the fresh planes
    hold. *)
Theorem convolve3x3_reads_red (pixels pixels' : list Pixel24) (W H : Z)
  (k : kernel) (junk_src junk_dst junk_src' junk_dst' : nat -> byte) :
  0 < W -> 0 < H -> W * H <= INT_MAX ->
  Z.of_nat (length pixels) = W * H ->
  map Px.r pixels = map Px.r pixels' ->
  convolve3x3 (Some junk_src) (Some junk_dst) pixels W H k
  = convolve3x3 (Some junk_src') (Some junk_dst') pixels' W H k.
Proof.
  intros HW HH Hmax Hlen Hred.
  assert (Hlen' : length pixels' = length pixels).
  { rewrite <- (length_map Px.r pixels'), <- Hred, length_map.
    reflexivity. }
  destruct (convolve3x3_run pixels W H k junk_src junk_dst HW HH Hmax Hlen)
    as (out & E & Hl & Hc).
  destruct (convolve3x3_run pixels' W H k junk_src' junk_dst' HW HH Hmax
              ltac:(lia))
    as (out' & E' & Hl' & Hc').
  rewrite E, E'. f_equal.
  apply (cells_ext W H); [assumption|lia|lia|].
  intros y x Hy Hx. rewrite (Hc y x Hy Hx), (Hc' y x Hy Hx), Hred.
  reflexivity.
Qed.

Lemma convolve3x3_reads_red_witness :
  convolve3x3 (Some no_junk8) (Some no_junk8) block_3x3 3 3 box
  = convolve3x3 (Some (fun _ => "255"%byte)) (Some (fun _ => "077"%byte))
      (map (fun p => Px.mk "001" "002" (Px.r p)) block_3x3) 3 3 box.
Proof.
  apply (convolve3x3_reads_red block_3x3
           (map (fun p => Px.mk "001" "002" (Px.r p)) block_3x3) 3 3 box);
    first [reflexivity | vm_compute; congruence].
Defined.

(** Products and sums with the weights 0 and 1, on the values of a byte. *)
Lemma mul_zero_weight (v : byte) :
  F32.mul (F32.of_int (u8 v)) (F32.of_int 0) = F32.zero.
Proof. destruct v; vm_compute; reflexivity. Qed.

Lemma mul_one_weight (v : byte) :
  F32.add F32.zero (F32.mul (F32.of_int (u8 v)) (F32.of_int 1))
  = F32.of_int (u8 v).
Proof. destruct v; vm_compute; reflexivity. Qed.

Lemma add_zero_term (v : byte) :
  F32.add (F32.of_int (u8 v)) F32.zero = F32.of_int (u8 v).
Proof. destruct v; vm_compute; reflexivity. Qed.

Lemma interior_value_one (v : byte) :
  interior_value (F32.of_int (u8 v)) F32.one = v.
Proof. destruct v; vm_compute; reflexivity. Qed.

Lemma window_acc_identity (src : list byte) (W x y : Z) :
  window_acc src W identity x y
  = F32.of_int (u8 (nth (Z.to_nat (y * W + x)) src "000"%byte)).
Proof.
  unfold window_acc. cbn [iter_up].
  repeat match goal with
         | |- context [identity ?j ?i] =>
             let v := eval vm_compute in (identity j i) in
             change (identity j i) with v
         end.
  change (S754_zero false) with (F32.of_int 0).
  change (S754_finite false 8388608 (-23)) with (F32.of_int 1).
  rewrite !mul_zero_weight.
  change (F32.add F32.zero F32.zero) with F32.zero.
  rewrite mul_one_weight, !add_zero_term.
  do 3 f_equal. lia.
Qed.

(** X13.  With the kernel whose only weight is a 1 at the centre,
    [convolve3x3] changes no value of the plane: the result is the red
    channel of every pixel as a gray pixel, in the interior as on the
    border. *)
Theorem convolve3x3_identity (pixels : list Pixel24) (W H : Z)
  (junk_src junk_dst : nat -> byte) :
  0 < W -> 0 < H -> W * H <= INT_MAX ->
  Z.of_nat (length pixels) = W * H ->
  convolve3x3 (Some junk_src) (Some junk_dst) pixels W H identity
  = Some (map red_as_gray pixels).
Proof.
  intros HW HH Hmax Hlen.
  destruct (convolve3x3_run pixels W H identity junk_src junk_dst
              HW HH Hmax Hlen) as (out & E & Hl & Hc).
  rewrite E. f_equal.
  apply (cells_ext W H); [assumption| | |].
  - rewrite Hl. assumption.
  - rewrite length_map. symmetry. assumption.
  - intros y x Hy Hx. rewrite (Hc y x Hy Hx), nth_error_map.
    pose proof (cell_in_block W H y x HW Hy Hx) as Hi.
    destruct (nth_error pixels (Z.to_nat (y * W + x))) as [p|] eqn:Ep.
    2:{ apply nth_error_None in Ep. lia. }
    cbn [option_map]. unfold red_as_gray, convolved_cell.
    destruct (is_border W H x y).
    + rewrite (nth_red pixels _ p Ep). reflexivity.
    + rewrite window_acc_identity.
      replace (norm_factor identity) with F32.one by reflexivity.
      rewrite interior_value_one, (nth_red pixels _ p Ep). reflexivity.
Qed.

Lemma convolve3x3_identity_witness :
  convolve3x3 (Some no_junk8) (Some no_junk8) block_3x3 3 3 identity
  = Some (map red_as_gray block_3x3).
Proof.
  apply (convolve3x3_identity block_3x3 3 3 no_junk8 no_junk8);
    first [reflexivity | vm_compute; congruence].
Defined.

(** X14.  Called with a positive width and a height of 0, [convolve3x3]
    allocates two planes of no byte and then copies the "first row" of the
    border: it reads [src[0]], outside the plane.  With both dimensions 0
    no loop runs and the block is returned as it is. *)
Theorem convolve3x3_no_rows (pixels : list Pixel24) (W : Z) (k : kernel)
  (junk_src junk_dst : nat -> byte) :
  (0 < W ->
   convolve3x3 (Some junk_src) (Some junk_dst) pixels W 0 k = None)
  /\ convolve3x3 (Some junk_src) (Some junk_dst) pixels 0 0 k = Some pixels.
Proof.
  split; [|reflexivity].
  intros HW. unfold convolve3x3.
  replace (to_size_t W * to_size_t 0) with 0
    by (change (to_size_t 0) with 0; lia).
  replace (W * 0) with 0 by lia.
  change (Z.to_nat (to_size_t 0)) with 0%nat.
  change (Z.to_nat (to_int 0)) with 0%nat.
  change (Z.to_nat (to_int (0 - 1) - 1)) with 0%nat.
  cbn [for_up bind malloc].
  unfold copy_rows.
  destruct (Z.to_nat W) as [|n] eqn:En; [lia|].
  cbn [for_up]. replace (0 * W) with 0 by lia.
  change (to_int (to_int 0 + 0)) with 0.
  reflexivity.
Qed.

Lemma convolve3x3_no_rows_witness :
  convolve3x3 (Some no_junk8) (Some no_junk8) [] 4 0 sobelX = None.
Proof.
  apply (proj1 (convolve3x3_no_rows [] 4 sobelX no_junk8 no_junk8)).
  reflexivity.
Defined.

(* ================================================================= *)
(** ** main *)

Lemma c_string_cons (c : ascii) (s : string) :
  c_string (String c s) = String c s ->
  Ascii.eqb c zero = false /\ c_string s = s.
Proof.
  cbn [c_string]. destruct (Ascii.eqb c zero); [discriminate|].
  intros E. injection E as E. split; [reflexivity|exact E].
Qed.

Lemma c_string_line (s : string) :
  c_string s = s -> c_string (s ++ nl) = (s ++ nl)%string.
Proof.
  induction s as [|c s IH]; intros E; [reflexivity|].
  destruct (c_string_cons c s E) as [Hc Hs].
  cbn [String.append c_string]. rewrite Hc, (IH Hs). reflexivity.
Qed.

Lemma length_line (s : string) :
  String.length (s ++ nl) = S (String.length s).
Proof.
  induction s as [|c s IH]; [reflexivity|].
  cbn [String.append String.length]. rewrite IH. reflexivity.
Qed.

Lemma get_line (s : string) :
  String.get (String.length s) (s ++ nl) = Some newline.
Proof. induction s as [|c s IH]; [reflexivity|exact IH]. Qed.

Lemma substring_line (s : string) :
  String.substring 0 (String.length s) (s ++ nl) = s.
Proof.
  induction s as [|c s IH]; [reflexivity|].
  cbn [String.append String.length String.substring]. rewrite IH.
  reflexivity.
Qed.

(** X15.  [main] cuts one final newline off the text [fgets] stored in the
    buffer, and nothing else.  For stored text without a NUL character:
    text followed by a newline gives the text, only one newline being cut;
    text that does not end in a newline (the input ended there, or the
    typed line was longer than the 255 characters the buffer takes and
    [fgets] stored its beginning) is passed on as it is. *)
Theorem chomp_line (s : string) :
  c_string s = s ->
  chomp (s ++ nl) = s
  /\ (String.get (String.length s - 1) s <> Some newline -> chomp s = s).
Proof.
  intros E. split.
  - unfold chomp. rewrite (c_string_line s E), length_line.
    cbn [Nat.eqb negb andb Nat.sub]. rewrite Nat.sub_0_r, get_line.
    replace (Ascii.eqb newline newline) with true by reflexivity.
    apply substring_line.
  - intros Hlast. unfold chomp. rewrite E.
    destruct (String.length s =? 0)%nat; [reflexivity|].
    cbn [negb andb].
    destruct (String.get (String.length s - 1) s) as [c|]; [|reflexivity].
    destruct (Ascii.eqb_spec c newline) as [->|]; [|reflexivity].
    contradiction Hlast. reflexivity.
Qed.

Lemma chomp_line_witness :
  chomp ("in.bmp" ++ nl) = "in.bmp"%string
  /\ chomp (("in.bmp" ++ nl) ++ nl) = ("in.bmp" ++ nl)%string
  /\ chomp "in.bmp" = "in.bmp"%string.
Proof.
  split; [|split].
  - apply (proj1 (chomp_line "in.bmp" eq_refl)).
  - apply (proj1 (chomp_line ("in.bmp" ++ nl) eq_refl)).
  - apply (proj2 (chomp_line "in.bmp" eq_refl)).
    vm_compute. discriminate.
Defined.

Lemma save_named_exit (w : world) (ih : BMPInfoHeader) (img : list Pixel24)
  (out : list string) (r : finished) :
  save_named w ih img out = Some r -> exit_code r = 0.
Proof.
  unfold save_named. intros E.
  destruct (typed_out_name w) as [line|].
  - destruct (save_bmp24 _ ih img); try discriminate;
      injection E as <-; reflexivity.
  - injection E as <-. reflexivity.
Qed.

Lemma save_named_file (w : world) (ih : BMPInfoHeader) (img : list Pixel24)
  (out : list string) (r : finished) (name : string) (bytes : list byte) :
  save_named w ih img out = Some r ->
  file_written r = Some (name, bytes) ->
  exists out_line space,
    typed_out_name w = Some out_line /\ name = chomp out_line
    /\ devices w name = Some space.
Proof.
  unfold save_named. intros E Hf.
  destruct (typed_out_name w) as [line|].
  2:{ injection E as <-. discriminate. }
  exists line.
  destruct (devices w (chomp line)) as [space|] eqn:Ed.
  2:{ cbn [save_bmp24] in E. injection E as <-. discriminate. }
  exists space.
  destruct (save_bmp24 (Some space) ih img) as [b|err [b|]|];
    try discriminate; injection E as <-; cbn [file_written option_map] in Hf;
    try discriminate; injection Hf as <- _;
    (split; [reflexivity|split; [reflexivity|exact Ed]]).
Qed.

(** X16.  [main] returns 1 exactly when [load_bmp24] returns 0; it then has
    printed nothing but the first prompt, ends the error stream with its
    own message and writes no file.  Every other run that ends returns 0:
    also the runs in which the input ends early, the option is not valid
    or [save_bmp24] fails. *)
Theorem main_exit_code (w : world) (r : finished) :
  main w = Some r ->
  (exit_code r = 0 \/ exit_code r = 1)
  /\ (exit_code r = 1 <->
      exists line,
        typed_in_name w = Some line
        /\ load_return
             (load_bmp24 (file_system w (chomp line)) (image_heap w))
           = Some 0)
  /\ (exit_code r = 1 ->
      stdout r = [prompt_in] /\ file_written r = None
      /\ exists err, stderr r = err ++ [msg_load]).
Proof.
  unfold main. intros E.
  destruct (typed_in_name w) as [line|].
  2:{ injection E as <-. cbn [exit_code].
      split; [left; reflexivity|].
      split; [|discriminate].
      split; [discriminate|]. intros (l & Hl & _). discriminate. }
  destruct (load_bmp24 (file_system w (chomp line)) (image_heap w))
    as [fh ih img|err|] eqn:El; [| |discriminate].
  - assert (H0 : exit_code r = 0).
    { destruct (typed_op w) as [op|]; [|injection E as <-; reflexivity].
      destruct (op =? 1).
      { destruct (to_grayscale img _ _); [|discriminate].
        exact (save_named_exit _ _ _ _ _ E). }
      destruct (op =? 2); [|injection E as <-; reflexivity].
      destruct (read_kernel w) as [k printed].
      destruct (to_grayscale img _ _); [|discriminate].
      destruct (convolve3x3 _ _ _ _ _ _); [|discriminate].
      exact (save_named_exit _ _ _ _ _ E). }
    rewrite H0. split; [left; reflexivity|].
    split; [|discriminate].
    split; [discriminate|].
    intros (l & Hl & Hr). injection Hl as <-. rewrite El in Hr.
    discriminate.
  - injection E as <-. cbn [exit_code stdout stderr file_written].
    split; [right; reflexivity|].
    split.
    + split; [|reflexivity]. intros _. exists line. rewrite El.
      split; reflexivity.
    + intros _. split; [reflexivity|]. split; [reflexivity|].
      exists err. reflexivity.
Qed.

Lemma main_exit_code_witness :
  main (sample_world stream_8bpp 1 0) = Some rejected_run
  /\ (exit_code rejected_run = 1 <->
      exists line,
        typed_in_name (sample_world stream_8bpp 1 0) = Some line
        /\ load_return
             (load_bmp24
                (file_system (sample_world stream_8bpp 1 0) (chomp line))
                (image_heap (sample_world stream_8bpp 1 0)))
           = Some 0).
Proof.
  assert (E : main (sample_world stream_8bpp 1 0) = Some rejected_run)
    by (vm_compute; reflexivity).
  split; [exact E|].
  exact (proj1 (proj2 (main_exit_code (sample_world stream_8bpp 1 0)
                         rejected_run E))).
Defined.

(** X17.  [main] creates a file only on request: when a run ends with a
    file written, [load_bmp24] had accepted the input, the option typed was
    1 or 2, and the file is the one named on the output line, which
    [fopen] could create. *)
Theorem main_file_written (w : world) (r : finished) (name : string)
  (bytes : list byte) :
  main w = Some r ->
  file_written r = Some (name, bytes) ->
  exists in_line out_line op space,
    typed_in_name w = Some in_line
    /\ load_return
         (load_bmp24 (file_system w (chomp in_line)) (image_heap w))
       = Some 1
    /\ typed_op w = Some op /\ (op = 1 \/ op = 2)
    /\ typed_out_name w = Some out_line /\ name = chomp out_line
    /\ devices w name = Some space.
Proof.
  unfold main. intros E Hf.
  destruct (typed_in_name w) as [line|].
  2:{ injection E as <-. discriminate. }
  destruct (load_bmp24 (file_system w (chomp line)) (image_heap w))
    as [fh ih img|err|] eqn:El; [| |discriminate].
  2:{ injection E as <-. discriminate. }
  destruct (typed_op w) as [op|].
  2:{ injection E as <-. discriminate. }
  assert (Hs : exists img' out,
             save_named w ih img' out = Some r /\ (op = 1 \/ op = 2)).
  { destruct (Z.eqb_spec op 1) as [E1|_].
    { destruct (to_grayscale img _ _) as [img'|]; [|discriminate].
      eexists _, _. split; [exact E|left; exact E1]. }
    destruct (Z.eqb_spec op 2) as [E2|_].
    2:{ injection E as <-. discriminate. }
    destruct (read_kernel w) as [k printed].
    destruct (to_grayscale img _ _) as [img'|]; [|discriminate].
    destruct (convolve3x3 _ _ _ _ _ _) as [img''|]; [|discriminate].
    eexists _, _. split; [exact E|right; exact E2]. }
  destruct Hs as (img' & out & Hs & Hop).
  destruct (save_named_file w ih img' out r name bytes Hs Hf)
    as (out_line & space & Ho & Hn & Hd).
  exists line, out_line, op, space.
  rewrite El. repeat split; first [assumption | reflexivity].
Qed.

Lemma main_file_written_witness :
  exists in_line out_line op space,
    typed_in_name (sample_world stream_2x2 1 0) = Some in_line
    /\ load_return
         (load_bmp24
            (file_system (sample_world stream_2x2 1 0) (chomp in_line))
            (image_heap (sample_world stream_2x2 1 0)))
       = Some 1
    /\ typed_op (sample_world stream_2x2 1 0) = Some op
    /\ (op = 1 \/ op = 2)
    /\ typed_out_name (sample_world stream_2x2 1 0) = Some out_line
    /\ "out.bmp"%string = chomp out_line
    /\ devices (sample_world stream_2x2 1 0) "out.bmp" = Some space.
Proof.
  apply (main_file_written (sample_world stream_2x2 1 0)
           (mkFinished 0
              ([prompt_in] ++ menu ++ [prompt_gray; msg_saved "out.bmp"]) []
              (Some ("out.bmp"%string,
                     saved_stream (stream_ih stream_2x2)
                       (map gray_of [blue; blue; red; red]))))
           "out.bmp"
           (saved_stream (stream_ih stream_2x2)
              (map gray_of [blue; blue; red; red])));
    vm_compute; reflexivity.
Defined.

Lemma to_grayscale_whole (pixels : list Pixel24) (W H : Z) :
  0 <= W * H <= INT_MAX ->
  Z.of_nat (length pixels) = H * W ->
  to_grayscale pixels W H = Some (map gray_of pixels).
Proof.
  unfold INT_MAX. intros Hr Hlen.
  rewrite to_grayscale_eq. cbv zeta. rewrite to_int_small by lia.
  replace (Z.to_nat (W * H)) with (length pixels) by lia.
  rewrite Nat.leb_refl, firstn_all, skipn_all, app_nil_r. reflexivity.
Qed.

Lemma saved_stream_loads (ih : BMPInfoHeader) (px : list Pixel24)
  (junk : nat -> Pixel24) :
  0 < biWidth ih < 2 ^ 31 -> 0 < biHeight ih < 2 ^ 31 ->
  (biHeight ih - 1) * biWidth ih < 2 ^ 31 ->
  Z.of_nat (length px) = biHeight ih * biWidth ih ->
  exists fh' ih',
    load_bmp24 (Some (saved_stream ih px)) (Some junk) = Loaded fh' ih' px
    /\ biWidth ih' = biWidth ih /\ biHeight ih' = biHeight ih.
Proof.
  intros HW HH Hnw Hlen.
  destruct (saved_stream_decodes ih px HW HH Hnw Hlen) as [Hacc Hpx].
  exists (stream_fh (saved_stream ih px)), (stream_ih (saved_stream ih px)).
  split; [rewrite (load_bmp24_accepted _ junk Hacc), Hpx; reflexivity|].
  rewrite stream_ih_saved, BMPInfoHeader_of_bytes_of.
  cbn [biWidth biHeight saved_ih].
  rewrite !to_int_mod32.
  rewrite (to_int_small (biWidth ih)), (to_int_small (biHeight ih)) by lia.
  split; reflexivity.
Qed.

Lemma save_named_saved (w : world) (ih : BMPInfoHeader)
  (img : list Pixel24) (out : list string) (out_line : string) :
  typed_out_name w = Some out_line ->
  devices w (chomp out_line) = Some None ->
  0 < biWidth ih < 2 ^ 31 -> 0 < biHeight ih < 2 ^ 31 ->
  (biHeight ih - 1) * biWidth ih < 2 ^ 31 ->
  Z.of_nat (length img) = biHeight ih * biWidth ih ->
  save_named w ih img out
  = Some (mkFinished 0 (out ++ [msg_saved (chomp out_line)]) []
            (Some (chomp out_line, saved_stream ih img))).
Proof.
  intros Ho Hd HW HH Hnw Hlen. unfold save_named.
  rewrite Ho. cbv zeta. rewrite Hd.
  rewrite save_bmp24_run by (try assumption; lia).
  reflexivity.
Qed.

(** X18.  Option 1 from end to end.  When the input file is one
    [load_bmp24] accepts, [width * height] fits [int], and the output
    device has room, [main] returns 0, prints the menu and the
    confirmation, writes nothing to the error stream and creates the
    output file; [load_bmp24] reads that file back as an image of the same
    width and height whose pixels are the gray versions of the pixels of
    the input. *)
Theorem main_grayscale (w : world) (in_line out_line : string)
  (data : list byte) (junk : nat -> Pixel24) :
  typed_in_name w = Some in_line ->
  file_system w (chomp in_line) = Some data ->
  image_heap w = Some junk ->
  accepted data ->
  biWidth (stream_ih data) * biHeight (stream_ih data) <= INT_MAX ->
  typed_op w = Some 1 ->
  typed_out_name w = Some out_line ->
  devices w (chomp out_line) = Some None ->
  exists out,
    main w
    = Some (mkFinished 0
              ([prompt_in] ++ menu
               ++ [prompt_gray; msg_saved (chomp out_line)])
              [] (Some (chomp out_line, out)))
    /\ forall junk', exists fh' ih',
         load_bmp24 (Some out) (Some junk')
         = Loaded fh' ih' (map gray_of (stream_pixels data))
         /\ biWidth ih' = biWidth (stream_ih data)
         /\ biHeight ih' = biHeight (stream_ih data).
Proof.
  intros Hin Hfs Hheap Hacc Hmax Hop Hout Hdev.
  pose proof (length_stream_pixels data Hacc) as Hlen.
  pose proof (acc_width data Hacc) as HW.
  pose proof (acc_height data Hacc) as HH.
  pose proof (acc_no_wrap data Hacc) as Hnw.
  exists (saved_stream (stream_ih data) (map gray_of (stream_pixels data))).
  split.
  - unfold main. rewrite Hin. cbv zeta. rewrite Hfs, Hheap.
    rewrite (load_bmp24_accepted data junk Hacc), Hop.
    cbn [Z.eqb Pos.eqb].
    rewrite to_grayscale_whole by (try assumption; unfold INT_MAX in *; nia).
    rewrite (save_named_saved w _ _ _ out_line Hout Hdev)
      by (rewrite ?length_map; assumption).
    rewrite <- !app_assoc. reflexivity.
  - intros junk'. apply saved_stream_loads; try assumption.
    rewrite length_map. assumption.
Qed.

Lemma accepted_stream_2x2 : accepted stream_2x2.
Proof.
  exact (proj1 (load_bmp24_Loaded stream_2x2 (Some no_junk)
                  (stream_fh stream_2x2) (stream_ih stream_2x2)
                  [blue; blue; red; red] eq_refl)).
Qed.

Lemma main_grayscale_witness :
  exists out,
    main (sample_world stream_2x2 1 0)
    = Some (mkFinished 0
              ([prompt_in] ++ menu
               ++ [prompt_gray; msg_saved (chomp ("out.bmp" ++ nl))])
              [] (Some (chomp ("out.bmp" ++ nl), out)))
    /\ forall junk', exists fh' ih',
         load_bmp24 (Some out) (Some junk')
         = Loaded fh' ih' (map gray_of (stream_pixels stream_2x2))
         /\ biWidth ih' = biWidth (stream_ih stream_2x2)
         /\ biHeight ih' = biHeight (stream_ih stream_2x2).
Proof.
  apply (main_grayscale (sample_world stream_2x2 1 0)
           ("in.bmp" ++ nl) ("out.bmp" ++ nl) stream_2x2 no_junk);
    first [ exact accepted_stream_2x2
          | reflexivity
          | vm_compute; congruence ].
Defined.

Lemma save_named_with_kernel_op (v : option Z) (w : world) :
  save_named (with_kernel_op v w) = save_named w.
Proof. reflexivity. Qed.

Lemma read_kernel_default (w : world) :
  (forall v, typed_kernel_op w = Some v -> v <> 2 /\ v <> 3 /\ v <> 4) ->
  read_kernel w = (sobelX, []).
Proof.
  intros Hv. unfold read_kernel.
  destruct (typed_kernel_op w) as [v|]; [|reflexivity].
  destruct (Hv v eq_refl) as (H2 & H3 & H4).
  destruct (Z.eqb_spec v 1); [reflexivity|].
  destruct (Z.eqb_spec v 2); [contradiction|].
  destruct (Z.eqb_spec v 3); [contradiction|].
  destruct (Z.eqb_spec v 4); [contradiction|].
  reflexivity.
Qed.

(** X19.  The kernel menu falls back to Sobel X: an answer other than 2, 3
    and 4, and no number at all, give the run of the answer 1, with the
    same output and the same file. *)
Theorem main_default_kernel (w : world) :
  (forall v, typed_kernel_op w = Some v -> v <> 2 /\ v <> 3 /\ v <> 4) ->
  main w = main (with_kernel_op (Some 1) w).
Proof.
  intros Hv. unfold main.
  rewrite (read_kernel_default w Hv).
  rewrite (read_kernel_default (with_kernel_op (Some 1) w)).
  - reflexivity.
  - cbn [with_kernel_op typed_kernel_op]. intros v E. injection E as <-.
    lia.
Qed.

Lemma main_default_kernel_witness :
  main (sample_world stream_2x2 2 7)
  = main (with_kernel_op (Some 1) (sample_world stream_2x2 2 7)).
Proof.
  apply (main_default_kernel (sample_world stream_2x2 2 7)).
  cbn [sample_world typed_kernel_op]. intros v E. injection E as <-. lia.
Defined.

Lemma luma_plane_eq (pixels : list Pixel24) :
  map Px.r (map gray_of pixels) = luma_plane pixels.
Proof. unfold luma_plane. apply map_map. Qed.

(** X20.  Option 2 from end to end.  When the input file is one
    [load_bmp24] accepts, [width * height] fits [int], the two planes can
    be allocated and the output device has room, [main] returns 0 and
    creates the output file; [load_bmp24] reads that file back as an image
    of the same width and height in which the pixel at row [y], column [x]
    is gray, with the value the convolution of the gray plane of the input
    with the chosen kernel has in that cell: the gray value itself on the
    border. *)
Theorem main_convolution (w : world) (in_line out_line : string)
  (data : list byte) (junk : nat -> Pixel24) (junk_src junk_dst : nat -> byte) :
  typed_in_name w = Some in_line ->
  file_system w (chomp in_line) = Some data ->
  image_heap w = Some junk ->
  accepted data ->
  biWidth (stream_ih data) * biHeight (stream_ih data) <= INT_MAX ->
  typed_op w = Some 2 ->
  plane_heap_src w = Some junk_src ->
  plane_heap_dst w = Some junk_dst ->
  typed_out_name w = Some out_line ->
  devices w (chomp out_line) = Some None ->
  exists out img,
    main w
    = Some (mkFinished 0
              ([prompt_in] ++ menu ++ kernel_menu ++ snd (read_kernel w)
               ++ [prompt_conv; msg_saved (chomp out_line)])
              [] (Some (chomp out_line, out)))
    /\ (forall junk', exists fh' ih',
          load_bmp24 (Some out) (Some junk') = Loaded fh' ih' img
          /\ biWidth ih' = biWidth (stream_ih data)
          /\ biHeight ih' = biHeight (stream_ih data))
    /\ length img = length (stream_pixels data)
    /\ forall y x,
         0 <= y < biHeight (stream_ih data) ->
         0 <= x < biWidth (stream_ih data) ->
         nth_error img (Z.to_nat (y * biWidth (stream_ih data) + x))
         = Some (gray_pixel
                   (convolved_cell (luma_plane (stream_pixels data))
                      (biWidth (stream_ih data)) (biHeight (stream_ih data))
                      (fst (read_kernel w)) y x)).
Proof.
  intros Hin Hfs Hheap Hacc Hmax Hop Hsrc Hdst Hout Hdev.
  pose proof (length_stream_pixels data Hacc) as Hlen.
  pose proof (acc_width data Hacc) as HW.
  pose proof (acc_height data Hacc) as HH.
  pose proof (acc_no_wrap data Hacc) as Hnw.
  set (W := biWidth (stream_ih data)) in *.
  set (H := biHeight (stream_ih data)) in *.
  destruct (read_kernel w) as [k printed] eqn:Ek. cbn [fst snd].
  destruct (convolve3x3_run (map gray_of (stream_pixels data)) W H k
              junk_src junk_dst ltac:(lia) ltac:(lia) Hmax
              ltac:(rewrite length_map; lia))
    as (img & Ec & Hl & Hc).
  rewrite length_map in Hl. rewrite luma_plane_eq in Hc.
  exists (saved_stream (stream_ih data) img), img.
  split; [|split; [|split; [exact Hl|exact Hc]]].
  - unfold main. rewrite Hin. cbv zeta. rewrite Hfs, Hheap.
    rewrite (load_bmp24_accepted data junk Hacc), Hop.
    cbn [Z.eqb Pos.eqb]. rewrite Ek, Hsrc, Hdst.
    fold W H.
    rewrite to_grayscale_whole by (try assumption; unfold INT_MAX in *; nia).
    rewrite Ec.
    rewrite (save_named_saved w _ _ _ out_line Hout Hdev)
      by (try assumption; fold W H; lia).
    rewrite <- !app_assoc. reflexivity.
  - intros junk'. apply saved_stream_loads; try assumption.
    fold W H. lia.
Qed.

Lemma main_convolution_witness :
  exists out img,
    main (sample_world stream_2x2 2 3)
    = Some (mkFinished 0
              ([prompt_in] ++ menu ++ kernel_menu
               ++ snd (read_kernel (sample_world stream_2x2 2 3))
               ++ [prompt_conv; msg_saved (chomp ("out.bmp" ++ nl))])
              [] (Some (chomp ("out.bmp" ++ nl), out)))
    /\ (forall junk', exists fh' ih',
          load_bmp24 (Some out) (Some junk') = Loaded fh' ih' img
          /\ biWidth ih' = biWidth (stream_ih stream_2x2)
          /\ biHeight ih' = biHeight (stream_ih stream_2x2))
    /\ length img = length (stream_pixels stream_2x2)
    /\ forall y x,
         0 <= y < biHeight (stream_ih stream_2x2) ->
         0 <= x < biWidth (stream_ih stream_2x2) ->
         nth_error img (Z.to_nat (y * biWidth (stream_ih stream_2x2) + x))
         = Some (gray_pixel
                   (convolved_cell (luma_plane (stream_pixels stream_2x2))
                      (biWidth (stream_ih stream_2x2))
                      (biHeight (stream_ih stream_2x2))
                      (fst (read_kernel (sample_world stream_2x2 2 3)))
                      y x)).
Proof.
  apply (main_convolution (sample_world stream_2x2 2 3)
           ("in.bmp" ++ nl) ("out.bmp" ++ nl) stream_2x2 no_junk
           no_junk8 no_junk8);
    first [ exact accepted_stream_2x2
          | reflexivity
          | vm_compute; congruence ].
Defined.

(* ================================================================= *)
(** ** Flat images *)

Lemma flat_cell (pixels : list Pixel24) (W H : Z) (v : byte) (y x : Z) :
  0 < W -> Z.of_nat (length pixels) = W * H ->
  (forall p, In p pixels -> Px.r p = v) ->
  0 <= y < H -> 0 <= x < W ->
  nth (Z.to_nat (y * W + x)) (map Px.r pixels) "000"%byte = v.
Proof.
  intros HW Hlen Hflat Hy Hx.
  pose proof (cell_in_block W H y x HW Hy Hx) as Hi.
  destruct (nth_error pixels (Z.to_nat (y * W + x))) as [p|] eqn:Ep.
  - rewrite (nth_red pixels _ p Ep). apply Hflat.
    exact (nth_error_In _ _ Ep).
  - apply nth_error_None in Ep. lia.
Qed.

Lemma flat_window (v : byte) (k : kernel) :
  k = sobelX \/ k = sobelY \/ k = laplacian ->
  interior_value (flat_acc v k) (norm_factor k) = "000"%byte.
Proof.
  intros [->|[->| ->]]; destruct v; vm_compute; reflexivity.
Qed.

(** X21.  The three kernels of the menu find no edge in a flat image: when
    every pixel has the same red value [v], [convolve3x3] with Sobel X,
    Sobel Y or the Laplacian returns black in every interior cell, and [v]
    on the border. *)
Theorem convolve3x3_flat (pixels : list Pixel24) (W H : Z) (v : byte)
  (k : kernel) (junk_src junk_dst : nat -> byte) :
  0 < W -> 0 < H -> W * H <= INT_MAX ->
  Z.of_nat (length pixels) = W * H ->
  (forall p, In p pixels -> Px.r p = v) ->
  k = sobelX \/ k = sobelY \/ k = laplacian ->
  exists out,
    convolve3x3 (Some junk_src) (Some junk_dst) pixels W H k = Some out
    /\ length out = length pixels
    /\ forall y x, 0 <= y < H -> 0 <= x < W ->
         nth_error out (Z.to_nat (y * W + x))
         = Some (gray_pixel (if is_border W H x y then v else "000"%byte)).
Proof.
  intros HW HH Hmax Hlen Hflat Hk.
  destruct (convolve3x3_run pixels W H k junk_src junk_dst HW HH Hmax Hlen)
    as (out & E & Hl & Hc).
  exists out. split; [exact E|]. split; [exact Hl|].
  intros y x Hy Hx. rewrite (Hc y x Hy Hx). do 2 f_equal.
  unfold convolved_cell.
  destruct (is_border W H x y) eqn:Eb.
  - apply (flat_cell pixels W H); assumption.
  - unfold is_border in Eb.
    rewrite !orb_false_iff, !Z.eqb_neq in Eb.
    destruct Eb as [[[Hy0 Hy1] Hx0] Hx1].
    rewrite <- (flat_window v k Hk). f_equal.
    unfold window_acc, flat_acc. cbn [iter_up].
    rewrite !(flat_cell pixels W H v) by first [assumption | lia].
    reflexivity.
Qed.

Lemma convolve3x3_flat_witness :
  exists out,
    convolve3x3 (Some no_junk8) (Some no_junk8)
      (repeat (gray_pixel "100") 9) 3 3 laplacian = Some out
    /\ length out = length (repeat (gray_pixel "100") 9)
    /\ forall y x, 0 <= y < 3 -> 0 <= x < 3 ->
         nth_error out (Z.to_nat (y * 3 + x))
         = Some (gray_pixel
                   (if is_border 3 3 x y then "100" else "000")%byte).
Proof.
  apply (convolve3x3_flat (repeat (gray_pixel "100") 9) 3 3 "100"%byte
           laplacian no_junk8 no_junk8);
    try first [ reflexivity | vm_compute; congruence ].
  - intros p Hp. apply repeat_spec in Hp. rewrite Hp. reflexivity.
  - right. right. reflexivity.
Defined.

(* ================================================================= *)
(** ** Bytes after the pixel data *)

Lemma firstn_app_long {A : Type} (n : nat) (l l' : list A) :
  (n <= length l)%nat -> firstn n (l ++ l') = firstn n l.
Proof.
  intros Hn. rewrite firstn_app.
  replace (n - length l)%nat with 0%nat by lia.
  cbn [firstn]. apply app_nil_r.
Qed.

Lemma skipn_app_long {A : Type} (n : nat) (l l' : list A) :
  (n <= length l)%nat -> skipn n (l ++ l') = skipn n l ++ l'.
Proof.
  intros Hn. rewrite skipn_app.
  replace (n - length l)%nat with 0%nat by lia.
  reflexivity.
Qed.

Lemma stream_fh_app (data tail : list byte) :
  (54 <= length data)%nat -> stream_fh (data ++ tail) = stream_fh data.
Proof.
  intros Hlen. unfold stream_fh. rewrite firstn_app_long by lia.
  reflexivity.
Qed.

Lemma stream_ih_app (data tail : list byte) :
  (54 <= length data)%nat -> stream_ih (data ++ tail) = stream_ih data.
Proof.
  intros Hlen. unfold stream_ih. rewrite skipn_app_long by lia.
  rewrite firstn_app_long by (rewrite length_skipn; lia).
  reflexivity.
Qed.

Lemma row_at_app (data tail : list byte) (w pos : nat) :
  (pos + 3 * w <= length data)%nat ->
  row_at (data ++ tail) w pos = row_at data w pos.
Proof.
  intros Hlen. unfold row_at. rewrite skipn_app_long by lia.
  rewrite firstn_app_long by (rewrite length_skipn; lia).
  reflexivity.
Qed.

Lemma rows_from_app (data tail : list byte) (w stride : nat) :
  forall n pos,
    (n = 0 \/ pos + (n - 1) * stride + 3 * w <= length data)%nat ->
    rows_from (data ++ tail) w stride pos n = rows_from data w stride pos n.
Proof.
  induction n as [|n IH]; intros pos Hlen; [reflexivity|].
  cbn [rows_from].
  rewrite row_at_app by (destruct Hlen as [|Hlen]; [discriminate|]; nia).
  rewrite IH; [reflexivity|].
  destruct n as [|n]; [left; reflexivity|right].
  destruct Hlen as [|Hlen]; [discriminate|].
  cbn [Nat.sub] in *. rewrite Nat.sub_0_r in *. nia.
Qed.

(** X22.  [load_bmp24] does not look at what follows the last row it
    reads: a stream it accepts gives the same headers and the same pixels
    when bytes are appended to it. *)
Theorem load_bmp24_ignores_tail (data tail : list byte)
  (junk : nat -> Pixel24) (fh : BMPHeader) (ih : BMPInfoHeader)
  (px : list Pixel24) :
  load_bmp24 (Some data) (Some junk) = Loaded fh ih px ->
  load_bmp24 (Some (data ++ tail)) (Some junk) = Loaded fh ih px.
Proof.
  intros Hload.
  destruct (load_bmp24_Loaded data (Some junk) fh ih px Hload)
    as (Hacc & -> & -> & ->).
  pose proof Hacc as [Hlen Hsig Hbits Hcomp HW HH Hnw Hrows].
  pose proof (stream_fh_app data tail Hlen) as Efh.
  pose proof (stream_ih_app data tail Hlen) as Eih.
  unfold rows_present in Hrows. apply Nat.leb_le in Hrows.
  assert (Hacc' : accepted (data ++ tail)).
  { constructor; rewrite ?Efh, ?Eih; try assumption.
    - rewrite length_app. lia.
    - unfold rows_present, stream_offset, stream_stride.
      rewrite Efh, Eih. apply Nat.leb_le. rewrite length_app.
      unfold stream_offset, stream_stride in Hrows. lia. }
  rewrite (load_bmp24_accepted _ junk Hacc'), Efh, Eih.
  f_equal. unfold stream_pixels, stream_offset, stream_stride.
  rewrite Efh, Eih. apply rows_from_app. right. exact Hrows.
Qed.

Lemma load_bmp24_ignores_tail_witness :
  load_bmp24 (Some stream_with_tail) (Some no_junk)
  = Loaded (stream_fh stream_2x2) (stream_ih stream_2x2)
      [blue; blue; red; red].
Proof.
  apply (load_bmp24_ignores_tail stream_2x2 ["001"; "002"; "003"]%byte
           no_junk).
  vm_compute. reflexivity.
Defined.

(* ================================================================= *)
(** ** Files written by save_bmp24 are fixed points *)

Lemma to_uint8_mod (z z' : Z) :
  z mod 256 = z' mod 256 -> to_uint8 z = to_uint8 z'.
Proof. unfold to_uint8. intros ->. reflexivity. Qed.

Lemma le_bytes_congr (n : nat) :
  forall z z',
    z mod 256 ^ Z.of_nat n = z' mod 256 ^ Z.of_nat n ->
    le_bytes n z = le_bytes n z'.
Proof.
  induction n as [|n IH]; intros z z' E; [reflexivity|].
  rewrite Nat2Z.inj_succ, Z.pow_succ_r in E by lia.
  assert (HM : 0 < 256 ^ Z.of_nat n) by (apply Z.pow_pos_nonneg; lia).
  rewrite (Z.rem_mul_r z 256 (256 ^ Z.of_nat n)) in E by lia.
  rewrite (Z.rem_mul_r z' 256 (256 ^ Z.of_nat n)) in E by lia.
  pose proof (Z.mod_pos_bound z 256 ltac:(lia)) as B1.
  pose proof (Z.mod_pos_bound z' 256 ltac:(lia)) as B2.
  cbn [le_bytes]. f_equal.
  - apply to_uint8_mod. lia.
  - apply IH. lia.
Qed.

Lemma le_bytes_4_mod (z : Z) : le_bytes 4 (z mod 2 ^ 32) = le_bytes 4 z.
Proof.
  apply le_bytes_congr. change (256 ^ Z.of_nat 4) with (2 ^ 32).
  apply Z.mod_mod. lia.
Qed.

Lemma le_bytes_4_to_int (z : Z) : le_bytes 4 (to_int z) = le_bytes 4 z.
Proof.
  apply le_bytes_congr. change (256 ^ Z.of_nat 4) with (2 ^ 32).
  exact (to_uint32_to_int z).
Qed.

(** X23.  A file written by [save_bmp24] is a fixed point of loading and
    saving: [load_bmp24] of the file followed by [save_bmp24] of what it
    returned writes the same bytes again.  (A file from elsewhere need not
    come back byte for byte: see [resaved_bytes_differ].) *)
Theorem save_load_save (ih : BMPInfoHeader) (px : list Pixel24)
  (junk : nat -> Pixel24) :
  0 < biWidth ih -> 0 < biHeight ih ->
  biWidth ih <= INT_MAX -> biHeight ih <= INT_MAX ->
  (biHeight ih - 1) * biWidth ih <= INT_MAX ->
  Z.of_nat (length px) = biHeight ih * biWidth ih ->
  exists out fh' ih' px',
    save_bmp24 (Some None) ih px = Saved out
    /\ load_bmp24 (Some out) (Some junk) = Loaded fh' ih' px'
    /\ save_bmp24 (Some None) ih' px' = Saved out.
Proof.
  unfold INT_MAX. intros HW HH HW' HH' Hnw Hlen.
  destruct (saved_stream_decodes ih px ltac:(lia) ltac:(lia) ltac:(lia) Hlen)
    as [Hacc Hpx].
  set (out := saved_stream ih px) in *.
  exists out, (stream_fh out), (stream_ih out), px.
  split; [apply save_bmp24_run; lia|].
  split; [rewrite (load_bmp24_accepted _ junk Hacc), Hpx; reflexivity|].
  assert (Eih : stream_ih out
                = BMPInfoHeader_of_bytes
                    (bytes_of_BMPInfoHeader (saved_ih ih)))
    by apply stream_ih_saved.
  rewrite BMPInfoHeader_of_bytes_of in Eih.
  assert (EW : biWidth (stream_ih out) = biWidth ih).
  { rewrite Eih. cbn [biWidth saved_ih].
    rewrite to_int_mod32. apply to_int_small. lia. }
  assert (EH : biHeight (stream_ih out) = biHeight ih).
  { rewrite Eih. cbn [biHeight saved_ih].
    rewrite to_int_mod32. apply to_int_small. lia. }
  rewrite save_bmp24_run by (rewrite ?EW, ?EH; lia).
  f_equal. transitivity (saved_stream ih px); [|reflexivity].
  unfold saved_stream. rewrite EW, EH.
  assert (Esz : biSizeImage (saved_ih (stream_ih out))
                = biSizeImage (saved_ih ih)).
  { cbn [biSizeImage saved_ih]. rewrite EW, EH. reflexivity. }
  assert (Efh : saved_fh (stream_ih out) = saved_fh ih).
  { unfold saved_fh. rewrite Esz. reflexivity. }
  assert (Ebi : bytes_of_BMPInfoHeader (saved_ih (stream_ih out))
                = bytes_of_BMPInfoHeader (saved_ih ih)).
  { unfold bytes_of_BMPInfoHeader. rewrite Esz.
    cbn [biSize biWidth biHeight biPlanes biBitCount biCompression
         biXPelsPerMeter biYPelsPerMeter biClrUsed biClrImportant saved_ih].
    rewrite EW, EH, Eih.
    cbn [biXPelsPerMeter biYPelsPerMeter biClrUsed biClrImportant].
    rewrite !le_bytes_4_to_int, !le_bytes_4_mod. reflexivity. }
  rewrite Efh, Ebi. reflexivity.
Qed.

Lemma save_load_save_witness :
  exists out fh' ih' px',
    save_bmp24 (Some None) (template 2 2) [blue; blue; red; red] = Saved out
    /\ load_bmp24 (Some out) (Some no_junk) = Loaded fh' ih' px'
    /\ save_bmp24 (Some None) ih' px' = Saved out.
Proof.
  apply (save_load_save (template 2 2) [blue; blue; red; red] no_junk);
    vm_compute; congruence.
Defined.

(* ================================================================= *)
(** ** Option 2 without memory *)

Lemma convolve3x3_no_plane (heap_src heap_dst : option (nat -> byte))
  (pixels : list Pixel24) (W H : Z) (k : kernel) :
  heap_src = None \/ heap_dst = None ->
  convolve3x3 heap_src heap_dst pixels W H k = Some pixels.
Proof.
  intros [-> | ->]; unfold convolve3x3;
    [|destruct heap_src]; reflexivity.
Qed.

(** X24.  Option 2 reports success without convolving when memory is
    short: if one of the two planes of [convolve3x3] cannot be allocated,
    [main] still returns 0 and prints its confirmation, and the file it
    writes holds the gray image of option 1, whatever the kernel. *)
Theorem main_convolution_no_memory (w : world) (in_line out_line : string)
  (data : list byte) (junk : nat -> Pixel24) :
  typed_in_name w = Some in_line ->
  file_system w (chomp in_line) = Some data ->
  image_heap w = Some junk ->
  accepted data ->
  biWidth (stream_ih data) * biHeight (stream_ih data) <= INT_MAX ->
  typed_op w = Some 2 ->
  plane_heap_src w = None \/ plane_heap_dst w = None ->
  typed_out_name w = Some out_line ->
  devices w (chomp out_line) = Some None ->
  exists out,
    main w
    = Some (mkFinished 0
              ([prompt_in] ++ menu ++ kernel_menu ++ snd (read_kernel w)
               ++ [prompt_conv; msg_saved (chomp out_line)])
              [] (Some (chomp out_line, out)))
    /\ forall junk', exists fh' ih',
         load_bmp24 (Some out) (Some junk')
         = Loaded fh' ih' (map gray_of (stream_pixels data))
         /\ biWidth ih' = biWidth (stream_ih data)
         /\ biHeight ih' = biHeight (stream_ih data).
Proof.
  intros Hin Hfs Hheap Hacc Hmax Hop Hplane Hout Hdev.
  pose proof (length_stream_pixels data Hacc) as Hlen.
  pose proof (acc_width data Hacc) as HW.
  pose proof (acc_height data Hacc) as HH.
  pose proof (acc_no_wrap data Hacc) as Hnw.
  exists (saved_stream (stream_ih data) (map gray_of (stream_pixels data))).
  split.
  - unfold main. rewrite Hin. cbv zeta. rewrite Hfs, Hheap.
    rewrite (load_bmp24_accepted data junk Hacc), Hop.
    cbn [Z.eqb Pos.eqb].
    destruct (read_kernel w) as [k printed]. cbn [snd].
    rewrite to_grayscale_whole by (try assumption; unfold INT_MAX in *; nia).
    rewrite (convolve3x3_no_plane _ _ _ _ _ _ Hplane).
    rewrite (save_named_saved w _ _ _ out_line Hout Hdev)
      by (rewrite ?length_map; assumption).
    rewrite <- !app_assoc. reflexivity.
  - intros junk'. apply saved_stream_loads; try assumption.
    rewrite length_map. assumption.
Qed.

Lemma main_convolution_no_memory_witness :
  exists out,
    main (without_plane (sample_world stream_2x2 2 3))
    = Some (mkFinished 0
              ([prompt_in] ++ menu ++ kernel_menu
               ++ snd (read_kernel
                         (without_plane (sample_world stream_2x2 2 3)))
               ++ [prompt_conv; msg_saved (chomp ("out.bmp" ++ nl))])
              [] (Some (chomp ("out.bmp" ++ nl), out)))
    /\ forall junk', exists fh' ih',
         load_bmp24 (Some out) (Some junk')
         = Loaded fh' ih' (map gray_of (stream_pixels stream_2x2))
         /\ biWidth ih' = biWidth (stream_ih stream_2x2)
         /\ biHeight ih' = biHeight (stream_ih stream_2x2).
Proof.
  apply (main_convolution_no_memory
           (without_plane (sample_world stream_2x2 2 3))
           ("in.bmp" ++ nl) ("out.bmp" ++ nl) stream_2x2 no_junk);
    first [ exact accepted_stream_2x2
          | reflexivity
          | (left; reflexivity)
          | vm_compute; congruence ].
Defined.
